(** * BadgerDB buffer manager (buffer.cpp): clock replacement, page index,
      pin / dirty / valid life cycle.

    The development embeds [BufMgr] of [src/buffer.cpp] as functions in a
    state-and-exception monad over an explicit manager state, and proves the
    properties of the specification about it. *)

From Stdlib Require Import NArith Lia.
From stdpp Require Import base option list gmap.

Local Open Scope N_scope.

(** ** Machine integers *)

(** [std::uint32_t] arithmetic ([FrameId], [numBufs], [clockHand], the
    [unsigned] counter of [allocBuf]) wraps modulo 2^32. *)
Definition UINT32_MOD : N := 4294967296.

Definition wrap32 (n : N) : N := n mod UINT32_MOD.

(** ** Data model *)

(** A [File] object is identified by its address; a [File*] may be [NULL]. *)
Abbreviation File := N (only parsing).
Abbreviation FilePtr := (option N) (only parsing).
Abbreviation PageId := N (only parsing).
Abbreviation FrameId := N (only parsing).

(** Modelled from the spec: class [Page] (page.h is not part of the sources):
    opaque contents, copyable by value, with [page_number()]. *)
Record Page : Type := mkPage {
  page_number : PageId;
  page_data : N
}.

Definition INVALID_NUMBER : PageId := 0.

Definition Page_default : Page := mkPage INVALID_NUMBER 0.

(** Modelled from the spec: class [BufDesc] (buffer.h is not part of the
    sources), section 3 "Frame Descriptor".  [pinCnt] is the spec's
    "unsigned count of active pins"; its declared width is not available. *)
Record BufDesc : Type := mkBufDesc {
  file : FilePtr;
  pageNo : PageId;
  frameNo : FrameId;
  pinCnt : N;
  dirty : bool;
  valid : bool;
  refbit : bool
}.

Definition set_pinCnt (n : N) (d : BufDesc) : BufDesc :=
  mkBufDesc (file d) (pageNo d) (frameNo d) n (dirty d) (valid d) (refbit d).

Definition set_dirty (b : bool) (d : BufDesc) : BufDesc :=
  mkBufDesc (file d) (pageNo d) (frameNo d) (pinCnt d) b (valid d) (refbit d).

Definition set_refbit (b : bool) (d : BufDesc) : BufDesc :=
  mkBufDesc (file d) (pageNo d) (frameNo d) (pinCnt d) (dirty d) (valid d) b.

(** Modelled from the spec: [BufDesc::Clear], "all fields reset to an empty
    state (valid=false)"; [frameNo] is immutable after construction. *)
Definition BufDesc_Clear (d : BufDesc) : BufDesc :=
  mkBufDesc None INVALID_NUMBER (frameNo d) 0 false false false.

(** Modelled from the spec: [BufDesc::Set], "transitions an allocated frame
    to valid=true, pinCnt=1, refbit=true, dirty=false". *)
Definition BufDesc_Set (filePtr : FilePtr) (pageNum : PageId) (d : BufDesc)
  : BufDesc :=
  mkBufDesc filePtr pageNum (frameNo d) 1 false true true.

(** ** The File collaborator *)

(** The calls the manager makes on [File] objects, in program order. *)
Inductive FileCall : Type :=
| CallRead (f : File) (n : PageId)
| CallWrite (f : File) (p : Page)
| CallAllocate (f : File)
| CallDelete (f : File) (n : PageId).

(** Modelled from the spec: class [File] (file.h is not part of the
    sources), section 6: [readPage(pageNo)] and [allocatePage()] return page
    contents.  What they return may depend on everything done to the files
    so far, so each is a function of the history of calls. *)
Class FileModel : Type := {
  file_readPage : list FileCall -> File -> PageId -> Page;
  file_allocatePage : list FileCall -> File -> Page
}.

(** ** Manager state *)

(** The fields of [BufMgr].  [hashTable] (class [BufHashTbl]) is modelled
    from the spec, section 3 "Page Identity Index": a mapping from
    (file, pageNo) to frame id.  [fileCalls] is the history of calls made on
    the File collaborator. *)
Record BufMgr : Type := mkBufMgr {
  numBufs : N;
  bufDescTable : list BufDesc;
  bufPool : list Page;
  hashTable : gmap (option N * N) N;
  clockHand : FrameId;
  fileCalls : list FileCall
}.

Definition set_bufDescTable (t : list BufDesc) (s : BufMgr) : BufMgr :=
  mkBufMgr (numBufs s) t (bufPool s) (hashTable s) (clockHand s) (fileCalls s).

Definition set_bufPool (p : list Page) (s : BufMgr) : BufMgr :=
  mkBufMgr (numBufs s) (bufDescTable s) p (hashTable s) (clockHand s)
    (fileCalls s).

Definition set_hashTable (h : gmap (option N * N) N) (s : BufMgr) : BufMgr :=
  mkBufMgr (numBufs s) (bufDescTable s) (bufPool s) h (clockHand s)
    (fileCalls s).

Definition set_clockHand (c : FrameId) (s : BufMgr) : BufMgr :=
  mkBufMgr (numBufs s) (bufDescTable s) (bufPool s) (hashTable s) c
    (fileCalls s).

Definition set_fileCalls (l : list FileCall) (s : BufMgr) : BufMgr :=
  mkBufMgr (numBufs s) (bufDescTable s) (bufPool s) (hashTable s)
    (clockHand s) l.

(** ** Exceptions and the state monad *)

Inductive exn : Type :=
| BufferExceeded
| PageNotPinned
| PagePinned
| BadBuffer
| HashNotFound.

Global Instance exn_eq_dec : EqDecision exn.
Proof. solve_decision. Defined.

(** How a call ends: it returns, it throws, it runs into undefined behaviour
    of C++ (a null [File*] dereferenced, an array indexed out of range, a
    remainder by zero), or the model's loop bound is used up. *)
Inductive outcome (A : Type) : Type :=
| Ok (a : A)
| Raise (e : exn)
| Undefined
| OutOfFuel.

Arguments Ok {A} a.
Arguments Raise {A} e.
Arguments Undefined {A}.
Arguments OutOfFuel {A}.

(** A computation on the manager: the state it leaves is kept in every
    outcome, as a C++ exception leaves the fields as they were at the throw. *)
Definition M (A : Type) : Type := BufMgr -> outcome A * BufMgr.

Definition ret {A} (a : A) : M A := fun s => (Ok a, s).

Definition throw {A} (e : exn) : M A := fun s => (Raise e, s).

Definition undefined {A} : M A := fun s => (Undefined, s).

Definition out_of_fuel {A} : M A := fun s => (OutOfFuel, s).

Definition bind {A B} (m : M A) (k : A -> M B) : M B := fun s =>
  match m s with
  | (Ok a, s') => k a s'
  | (Raise e, s') => (Raise e, s')
  | (Undefined, s') => (Undefined, s')
  | (OutOfFuel, s') => (OutOfFuel, s')
  end.

(** [try { m } catch (e &) { h }] *)
Definition try_catch {A} (m : M A) (e : exn) (h : M A) : M A := fun s =>
  match m s with
  | (Raise e', s') => if decide (e' = e) then h s' else (Raise e', s')
  | r => r
  end.

(** stdpp's notations [x ← m; k] and [m;; k] stand for [bind]. *)
Global Instance M_bind : MBind M := fun A B k m => bind m k.

Definition get {A} (proj : BufMgr -> A) : M A := fun s => (Ok (proj s), s).

Definition modify (f : BufMgr -> BufMgr) : M unit := fun s => (Ok tt, f s).

(** ** Array accesses and pointer dereferences *)

(** [bufDescTable[i]] read. *)
Definition getDesc (i : FrameId) : M BufDesc := fun s =>
  match bufDescTable s !! N.to_nat i with
  | Some d => (Ok d, s)
  | None => (Undefined, s)
  end.

(** An update of fields of [bufDescTable[i]]. *)
Definition modifyDesc (i : FrameId) (f : BufDesc -> BufDesc) : M unit :=
  d ← getDesc i;
  modify (fun s => set_bufDescTable (<[N.to_nat i := f d]> (bufDescTable s)) s).

(** [bufPool[i]] read. *)
Definition getPool (i : FrameId) : M Page := fun s =>
  match bufPool s !! N.to_nat i with
  | Some p => (Ok p, s)
  | None => (Undefined, s)
  end.

(** [bufPool[i] = p]. *)
Definition setPool (i : FrameId) (p : Page) : M unit :=
  _ ← getPool i;
  modify (fun s => set_bufPool (<[N.to_nat i := p]> (bufPool s)) s).

(** [filePtr->...]: a null pointer must not be dereferenced. *)
Definition deref (filePtr : FilePtr) : M File :=
  match filePtr with
  | Some f => ret f
  | None => undefined
  end.

(** ** The page identity index *)

(** Modelled from the spec: [BufHashTbl::lookup]; a miss is signalled by
    [HashNotFoundException], which the callers in buffer.cpp catch. *)
Definition hashTable_lookup (filePtr : FilePtr) (pageNum : PageId)
  : M FrameId := fun s =>
  match hashTable s !! (filePtr, pageNum) with
  | Some frame => (Ok frame, s)
  | None => (Raise HashNotFound, s)
  end.

(** Modelled from the spec: [BufHashTbl::insert], "insert the
    (file, pageNo) -> frame mapping into the Index".  The spec does not
    describe an insert on a key that is present; here it replaces the
    entry. *)
Definition hashTable_insert (filePtr : FilePtr) (pageNum : PageId)
  (frame : FrameId) : M unit :=
  modify (fun s => set_hashTable (<[(filePtr, pageNum) := frame]> (hashTable s)) s).

(** Modelled from the spec: [BufHashTbl::remove]; the absence of the key is
    signalled by [HashNotFoundException] ([allocBuf] catches it). *)
Definition hashTable_remove (filePtr : FilePtr) (pageNum : PageId)
  : M unit := fun s =>
  match hashTable s !! (filePtr, pageNum) with
  | Some _ => (Ok tt, set_hashTable (delete (filePtr, pageNum) (hashTable s)) s)
  | None => (Raise HashNotFound, s)
  end.

(** ** Calls on the File collaborator *)

Section Manager.

Context {FM : FileModel}.

Definition logCall (c : FileCall) : M unit :=
  modify (fun s => set_fileCalls (fileCalls s ++ [c]) s).

(** [f->readPage(pageNum)] *)
Definition File_readPage (f : File) (pageNum : PageId) : M Page :=
  h ← get fileCalls;
  logCall (CallRead f pageNum);;
  ret (file_readPage h f pageNum).

(** [f->writePage(p)] *)
Definition File_writePage (f : File) (p : Page) : M unit :=
  logCall (CallWrite f p).

(** [f->allocatePage()] *)
Definition File_allocatePage (f : File) : M Page :=
  h ← get fileCalls;
  logCall (CallAllocate f);;
  ret (file_allocatePage h f).

(** [f->deletePage(pageNum)] *)
Definition File_deletePage (f : File) (pageNum : PageId) : M unit :=
  logCall (CallDelete f pageNum).

(** ** BufMgr *)

(** [BufMgr::BufMgr(bufs)]: every descriptor is default-constructed (which
    clears it), then gets its [frameNo] and [valid = false]; the hand starts
    at [bufs - 1]. *)
Definition BufDesc_init (i : FrameId) : BufDesc :=
  mkBufDesc None INVALID_NUMBER i 0 false false false.

Definition BufMgr_new (bufs : N) : BufMgr :=
  mkBufMgr bufs
    ((fun i => BufDesc_init (N.of_nat i)) <$> seq 0 (N.to_nat bufs))
    (replicate (N.to_nat bufs) Page_default)
    ∅
    (wrap32 (bufs + UINT32_MOD - 1))
    [].

(** [BufMgr::advanceClock] *)
Definition advanceClock : M unit :=
  modify (fun s => set_clockHand (wrap32 (clockHand s + 1)) s);;
  c ← get clockHand;
  n ← get numBufs;
  if n <=? c then
    if n =? 0 then undefined
    else modify (set_clockHand (c mod n))
  else ret tt.

(** What one pass through the body of [while (true)] in [allocBuf] asks
    for: another pass ([continue], with the counter [pinned]), or to leave
    the loop with the chosen frame ([return] and [break]). *)
Inductive loop_ctl : Type :=
| Continue (pinned : N)
| Done (frame : FrameId).

(** The body of the loop of [BufMgr::allocBuf]. *)
Definition allocBuf_body (pinned : N) : M loop_ctl :=
  advanceClock;;
  h ← get clockHand;
  d ← getDesc h;
  if negb (valid d) then ret (Done h)
  else if refbit d then
    modifyDesc h (set_refbit false);;
    ret (Continue pinned)
  else if negb (pinCnt d =? 0) then
    let pinned := wrap32 (pinned + 1) in
    n ← get numBufs;
    if pinned =? n then throw BufferExceeded
    else ret (Continue pinned)
  else
    (if dirty d then
       f ← deref (file d);
       p ← getPool h;
       File_writePage f p;;
       modifyDesc h (set_dirty false)
     else ret tt);;
    d' ← getDesc h;
    (if valid d' then
       try_catch (hashTable_remove (file d') (pageNo d')) HashNotFound (ret tt)
     else ret tt);;
    ret (Done h).

(** [while (true) { ... }], bounded by [fuel] passes. *)
Fixpoint allocBuf_loop (fuel : nat) (pinned : N) : M FrameId :=
  match fuel with
  | O => out_of_fuel
  | S fuel' =>
      c ← allocBuf_body pinned;
      match c with
      | Continue pinned' => allocBuf_loop fuel' pinned'
      | Done frame => ret frame
      end
  end.

(** [BufMgr::allocBuf].  Two sweeps of the pool are enough for the loop to
    end (lemma [allocBuf_total] below). *)
Definition allocBuf : M FrameId :=
  n ← get numBufs;
  allocBuf_loop (N.to_nat (2 * n)) 0.

(** [BufMgr::readPage]; the handle [bufPool + frame] is returned as the
    frame id. *)
Definition readPage (filePtr : FilePtr) (pageNum : PageId) : M FrameId :=
  try_catch
    (frame ← hashTable_lookup filePtr pageNum;
     modifyDesc frame (set_refbit true);;
     modifyDesc frame (fun d => set_pinCnt (pinCnt d + 1) d);;
     ret frame)
    HashNotFound
    (frame ← allocBuf;
     f ← deref filePtr;
     p ← File_readPage f pageNum;
     setPool frame p;;
     hashTable_insert filePtr pageNum frame;;
     modifyDesc frame (BufDesc_Set filePtr pageNum);;
     ret frame).

(** [BufMgr::unPinPage]; the warning written to [cerr] is not modelled, nor
    are the arguments of the exception (the file is dereferenced for its
    name). *)
Definition unPinPage (filePtr : FilePtr) (pageNum : PageId) (isDirty : bool)
  : M unit :=
  r ← try_catch (frame ← hashTable_lookup filePtr pageNum; ret (Some frame))
         HashNotFound (ret None);
  match r with
  | None => ret tt
  | Some frame =>
      d ← getDesc frame;
      if 0 <? pinCnt d then
        (modifyDesc frame (fun d => set_pinCnt (pinCnt d - 1) d);;
         if isDirty then modifyDesc frame (set_dirty true) else ret tt)
      else
        (deref (file d);;
         throw PageNotPinned)
  end.

(** The body of the loop of [BufMgr::flushFile], for frame [fi]. *)
Definition flushFile_body (filePtr : FilePtr) (fi : FrameId) : M unit :=
  d ← getDesc fi;
  if decide (file d = filePtr) then
    (if negb (valid d) then throw BadBuffer else ret tt);;
    (if 0 <? pinCnt d then (deref filePtr;; throw PagePinned) else ret tt);;
    (if dirty d then
       f ← deref (file d);
       p ← getPool fi;
       File_writePage f p;;
       modifyDesc fi (set_dirty false)
     else ret tt);;
    d' ← getDesc fi;
    hashTable_remove filePtr (pageNo d');;
    modifyDesc fi BufDesc_Clear
  else ret tt.

(** [for (FrameId fi = ...; fi < numBufs; fi++)], bounded by [fuel]
    passes. *)
Fixpoint flushFile_loop (fuel : nat) (filePtr : FilePtr) (fi : FrameId)
  : M unit :=
  match fuel with
  | O => out_of_fuel
  | S fuel' =>
      n ← get numBufs;
      if fi <? n then
        flushFile_body filePtr fi;;
        flushFile_loop fuel' filePtr (wrap32 (fi + 1))
      else ret tt
  end.

(** [BufMgr::flushFile] *)
Definition flushFile (filePtr : FilePtr) : M unit :=
  n ← get numBufs;
  flushFile_loop (S (N.to_nat n)) filePtr 0.

(** [BufMgr::allocPage]; returns the page number and the handle. *)
Definition allocPage (filePtr : FilePtr) : M (PageId * FrameId) :=
  f ← deref filePtr;
  p ← File_allocatePage f;
  frame ← allocBuf;
  setPool frame p;;
  let pageNum := page_number p in
  hashTable_insert filePtr pageNum frame;;
  modifyDesc frame (BufDesc_Set filePtr pageNum);;
  ret (pageNum, frame).

(** [BufMgr::disposePage] *)
Definition disposePage (filePtr : FilePtr) (pageNum : PageId) : M unit :=
  try_catch
    (frame ← hashTable_lookup filePtr pageNum;
     hashTable_remove filePtr pageNum;;
     modifyDesc frame BufDesc_Clear)
    HashNotFound
    (ret tt);;
  f ← deref filePtr;
  File_deletePage f pageNum.

End Manager.

(** ** The manager as a state machine *)

(** The public operations.  [readPage], [allocPage] and [disposePage] call
    methods of the file they are given, which therefore is not null. *)
Inductive op : Type :=
| OpReadPage (f : File) (pageNum : PageId)
| OpAllocPage (f : File)
| OpUnPinPage (filePtr : FilePtr) (pageNum : PageId) (isDirty : bool)
| OpFlushFile (filePtr : FilePtr)
| OpDisposePage (f : File) (pageNum : PageId).

Section Machine.

Context {FM : FileModel}.

(** The state an operation leaves, whether it returns or throws. *)
Definition exec (o : op) (s : BufMgr) : BufMgr :=
  match o with
  | OpReadPage f pageNum => (readPage (Some f) pageNum s).2
  | OpAllocPage f => (allocPage (Some f) s).2
  | OpUnPinPage filePtr pageNum isDirty => (unPinPage filePtr pageNum isDirty s).2
  | OpFlushFile filePtr => (flushFile filePtr s).2
  | OpDisposePage f pageNum => (disposePage (Some f) pageNum s).2
  end.

(** What is asked of the File collaborator: the page that [allocatePage]
    hands out is new, its number is not that of a page of the file that
    is in the pool. *)
Definition new_page_fresh (o : op) (s : BufMgr) : Prop :=
  match o with
  | OpAllocPage f =>
      hashTable s !! (Some f, page_number (file_allocatePage (fileCalls s) f))
      = None
  | _ => True
  end.

(** The states of a manager built by [BufMgr(bufs)] and used through its
    public operations. *)
Inductive reachable : BufMgr -> Prop :=
| reach_new bufs :
    0 < bufs < UINT32_MOD -> reachable (BufMgr_new bufs)
| reach_op o s :
    reachable s -> new_page_fresh o s -> reachable (exec o s).

End Machine.

(** A sequence of operations, from left to right. *)
Definition exec_all {FM : FileModel} (ops : list op) (s : BufMgr) : BufMgr :=
  foldl (fun s o => exec o s) s ops.

Fixpoint fresh_all {FM : FileModel} (ops : list op) (s : BufMgr) : Prop :=
  match ops with
  | [] => True
  | o :: ops' => new_page_fresh o s /\ fresh_all ops' (exec o s)
  end.

(** A File collaborator to run the manager on: a page read has the number
    asked for, and the pages of a file are allocated with the numbers
    1, 2, ... counted over all the calls so far. *)
Definition simpleFile : FileModel := {|
  file_readPage := fun h f n => mkPage n 0;
  file_allocatePage := fun h f => mkPage (1 + N.of_nat (length h)) 0
|}.

(** Runs of a manager of two frames on pages of one file, number 7. *)

(** Pages 1 and 2 read: both frames valid, pinned, recently used. *)
Definition st_pinned : BufMgr :=
  exec_all (FM := simpleFile) [OpReadPage 7 1; OpReadPage 7 2] (BufMgr_new 2).

(** Then page 1 unpinned as dirty: frame 0 is unpinned and dirty, frame 1 is
    pinned. *)
Definition st_one_pinned : BufMgr :=
  exec_all (FM := simpleFile) [OpUnPinPage (Some 7) 1 true] st_pinned.

(** After a failed request for page 3 (which clears the reference bits),
    page 2 is read again and unpinned twice: frame 0 is pinned with its
    reference bit clear, frame 1 is unpinned with its reference bit set, the
    hand is at frame 1. *)
Definition st_second_chance : BufMgr :=
  exec_all (FM := simpleFile)
    [OpReadPage 7 3; OpReadPage 7 2;
     OpUnPinPage (Some 7) 2 false; OpUnPinPage (Some 7) 2 true]
    st_pinned.

(** After a failed request for page 3, both pages are unpinned, page 1 as
    dirty: both frames are valid, unpinned, with the reference bit clear. *)
Definition st_evictable : BufMgr :=
  exec_all (FM := simpleFile)
    [OpReadPage 7 3; OpUnPinPage (Some 7) 1 true; OpUnPinPage (Some 7) 2 false]
    st_pinned.

(** Both pages unpinned right after they were read: no frame is pinned, the
    reference bits are still set. *)
Definition st_unpinned : BufMgr :=
  exec_all (FM := simpleFile) [OpUnPinPage (Some 7) 2 false] st_one_pinned.

(** ** Well-formed states *)

(** The shape every manager state has: the pool size fits [std::uint32_t]
    and is not zero, both arrays have [numBufs] slots, the hand is a frame
    id. *)
Record wf (s : BufMgr) : Prop := mk_wf {
  wf_numBufs : 0 < numBufs s < UINT32_MOD;
  wf_table : length (bufDescTable s) = N.to_nat (numBufs s);
  wf_pool : length (bufPool s) = N.to_nat (numBufs s);
  wf_hand : clockHand s < numBufs s
}.

(** The frame the hand moves to. *)
Definition next_hand (s : BufMgr) : FrameId :=
  (clockHand s + 1) mod numBufs s.

(** ** Symbolic execution *)

Ltac mred :=
  cbv delta [mbind M_bind bind ret throw undefined out_of_fuel get modify
       getDesc modifyDesc getPool setPool deref try_catch
       hashTable_lookup hashTable_insert hashTable_remove
       logCall File_readPage File_writePage File_allocatePage File_deletePage]
    in *;
  cbn beta iota delta
      [numBufs bufDescTable bufPool hashTable clockHand fileCalls
       set_bufDescTable set_bufPool set_hashTable set_clockHand set_fileCalls
       file pageNo frameNo pinCnt dirty valid refbit
       set_pinCnt set_dirty set_refbit BufDesc_Clear BufDesc_Set
       fst snd negb] in *.

(** ** What [allocBuf] guarantees *)

(** A descriptor without the two flags the allocator may change. *)
Definition core (d : BufDesc) : BufDesc := set_dirty false (set_refbit false d).

(** Valid frames have an owner: [Set] is only ever called with the file of
    the request. *)
Definition files_ok (s : BufMgr) : Prop :=
  forall i d, bufDescTable s !! i = Some d -> valid d = true -> is_Some (file d).

(** The write-back the allocator does for the frame [d0] it evicts. *)
Definition writeback (d0 : BufDesc) (p : option Page) : list FileCall :=
  match valid d0 && dirty d0, file d0, p with
  | true, Some f, Some p => [CallWrite f p]
  | _, _, _ => []
  end.

(** [allocBuf] returned [frame], from state [s0] to state [s']. *)
Record alloc_ok (s0 : BufMgr) (frame : FrameId) (s' : BufMgr) : Prop := mk_alloc_ok {
  ao_wf : wf s';
  ao_numBufs : numBufs s' = numBufs s0;
  ao_pool : bufPool s' = bufPool s0;
  ao_hand : clockHand s' = frame;
  ao_core : core <$> bufDescTable s' = core <$> bufDescTable s0;
  ao_frame : exists d0 d',
    bufDescTable s0 !! N.to_nat frame = Some d0 /\
    bufDescTable s' !! N.to_nat frame = Some d' /\
    (valid d0 = true -> pinCnt d0 = 0 /\ dirty d' = false /\ refbit d' = false) /\
    hashTable s' =
      (if valid d0 then delete (file d0, pageNo d0) (hashTable s0)
       else hashTable s0) /\
    fileCalls s' =
      fileCalls s0 ++ writeback d0 (bufPool s0 !! N.to_nat frame)
}.

(** [allocBuf] threw: only reference bits and the hand have changed. *)
Definition alloc_raised (s0 : BufMgr) (s' : BufMgr) : Prop :=
  s' = set_clockHand (clockHand s')
         (set_bufDescTable (set_refbit false <$> bufDescTable s0) s0).

(** The outcome of [allocBuf] started in [s0]. *)
Definition alloc_post (s0 : BufMgr) (r : outcome N) (s' : BufMgr) : Prop :=
  match r with
  | Ok frame => alloc_ok s0 frame s'
  | Raise e => e = BufferExceeded /\ wf s' /\ alloc_raised s0 s'
  | Undefined | OutOfFuel => False
  end.

(** The number of passes of the loop until the hand, now at [h], reaches
    frame [fr] in a pool of [n] frames, minus one. *)
Definition dist (n h fr : N) : N :=
  if h <? fr then fr - h - 1 else fr + n - h - 1.

(** Every frame whose reference bit is set is among the next [k] frames the
    hand visits. *)
Definition refbits_ahead (k : N) (s : BufMgr) : Prop :=
  forall fr d, bufDescTable s !! N.to_nat fr = Some d -> refbit d = true ->
    dist (numBufs s) (clockHand s) fr < k.

(** The state of the loop of [allocBuf] started in [s0], with at most [m]
    passes to go. *)
Record sweeping (s0 : BufMgr) (m : nat) (pinned : N) (s : BufMgr) : Prop := mk_sweeping {
  sw_wf : wf s;
  sw_files : files_ok s;
  sw_numBufs : numBufs s = numBufs s0;
  sw_pool : bufPool s = bufPool s0;
  sw_hash : hashTable s = hashTable s0;
  sw_calls : fileCalls s = fileCalls s0;
  sw_table : set_refbit false <$> bufDescTable s
             = set_refbit false <$> bufDescTable s0;
  sw_ahead : exists k, refbits_ahead k s /\ pinned + k <= numBufs s /\
             pinned < numBufs s /\
             m = N.to_nat (k + (numBufs s - 1 - pinned))
}.

(** The write-backs [flushFile] of file [f] does for the frames [frames] of
    state [s], in that order: one for each dirty frame of the file. *)
Definition flush_writes (f : File) (s : BufMgr) (frames : list nat)
  : list FileCall :=
  flat_map
    (fun j =>
       match bufDescTable s !! j with
       | Some d =>
           if decide (file d = Some f) then writeback d (bufPool s !! j)
           else []
       | None => []
       end)
    frames.

(** Frame [j] belongs to file [f] and is pinned. *)
Definition pinned_by (f : File) (s : BufMgr) (j : nat) : Prop :=
  exists d, bufDescTable s !! j = Some d /\ file d = Some f /\ 0 < pinCnt d.

(** ** The invariant of the manager *)

(** A valid frame has an owner; an empty frame is cleared. *)
Definition desc_ok (d : BufDesc) : Prop :=
  if valid d then is_Some (file d) else file d = None /\ pinCnt d = 0.

(** The index and the descriptor table agree, except possibly at the frame
    [hole] that [allocBuf] has just handed out and that is not yet [Set]:
    no entry points to it. *)
Record inv (hole : option N) (s : BufMgr) : Prop := mk_inv {
  inv_wf : wf s;
  inv_desc : forall i d, bufDescTable s !! i = Some d -> desc_ok d;
  inv_entry : forall k fr, hashTable s !! k = Some fr ->
    Some fr <> hole /\
    exists d, bufDescTable s !! N.to_nat fr = Some d /\ valid d = true /\
              k = (file d, pageNo d);
  inv_valid : forall fr d, bufDescTable s !! N.to_nat fr = Some d ->
    valid d = true -> Some fr <> hole ->
    hashTable s !! (file d, pageNo d) = Some fr
}.

Abbreviation manager_inv s := (inv None s).

(** Every frame of the pool is pinned. *)
Definition all_pinned (s : BufMgr) : Prop :=
  forall i d, bufDescTable s !! i = Some d -> 0 < pinCnt d.

(** Every frame of the pool is valid, unpinned and not recently used. *)
Definition all_evictable (s : BufMgr) : Prop :=
  forall i d, bufDescTable s !! i = Some d ->
    valid d = true /\ pinCnt d = 0 /\ refbit d = false.

(** The central invariant in the words of the spec: a frame is valid if and
    only if the index has an entry that maps some (file, pageNo) to it, that
    entry's (file, pageNo) is the frame's own, and the index has no entries
    for anything but frames. *)
Definition index_consistent (s : BufMgr) : Prop :=
  (forall fr d, bufDescTable s !! N.to_nat fr = Some d ->
     (valid d = true <-> exists k, hashTable s !! k = Some fr) /\
     (forall k, hashTable s !! k = Some fr -> k = (file d, pageNo d))) /\
  (forall k fr, hashTable s !! k = Some fr ->
     is_Some (bufDescTable s !! N.to_nat fr)).

(** The state in which [flushFile] leaves the manager after the pass for
    frame [fi], whose descriptor [d] is valid, unpinned and owned by the
    file: written back if dirty, out of the index, cleared. *)
Definition flush_frame (fi : FrameId) (d : BufDesc) (s : BufMgr) : BufMgr :=
  set_bufDescTable (<[N.to_nat fi := BufDesc_Clear d]> (bufDescTable s))
    (set_hashTable (delete (file d, pageNo d) (hashTable s))
       (set_fileCalls
          (fileCalls s ++ writeback d (bufPool s !! N.to_nat fi)) s)).

(** ** Definitions for the further properties *)

(** A frame [allocBuf] takes when the hand reaches it: empty, or unpinned
    with the reference bit clear. *)
Definition free_frame (d : BufDesc) : Prop :=
  valid d = false \/ (pinCnt d = 0 /\ refbit d = false).

(** The loop of [allocBuf] on its way to the free frame [g], which it
    reaches within [m] passes; [pinned] has counted fewer frames than the
    hand has left behind. *)
Definition reaching (g : N) (dg : BufDesc) (m : nat) (pinned : N)
    (s : BufMgr) : Prop :=
  wf s /\ files_ok s /\
  bufDescTable s !! N.to_nat g = Some dg /\
  pinned + dist (numBufs s) (clockHand s) g < numBufs s /\
  m = N.to_nat (dist (numBufs s) (clockHand s) g).

(** How a public operation ends, without the value it returns. *)
Definition void {A} (r : outcome A) : outcome unit :=
  match r with
  | Ok _ => Ok tt
  | Raise e => Raise e
  | Undefined => Undefined
  | OutOfFuel => OutOfFuel
  end.

Definition result {FM : FileModel} (o : op) (s : BufMgr) : outcome unit :=
  match o with
  | OpReadPage f pageNum => void (readPage (Some f) pageNum s).1
  | OpAllocPage f => void (allocPage (Some f) s).1
  | OpUnPinPage filePtr pageNum isDirty => (unPinPage filePtr pageNum isDirty s).1
  | OpFlushFile filePtr => (flushFile filePtr s).1
  | OpDisposePage f pageNum => (disposePage (Some f) pageNum s).1
  end.

(** The exceptions each operation has a [throw] for, its own or that of
    [allocBuf]. *)
Definition may_throw (o : op) : list exn :=
  match o with
  | OpReadPage _ _ | OpAllocPage _ => [BufferExceeded]
  | OpUnPinPage _ _ _ => [PageNotPinned]
  | OpFlushFile _ => [BadBuffer; PagePinned]
  | OpDisposePage _ _ => []
  end.

(** What no operation changes: the size of the pool, the [frameNo] of the
    descriptors, the sizes of the two arrays; and the history of File calls
    only grows. *)
Definition stable (s s' : BufMgr) : Prop :=
  numBufs s' = numBufs s /\
  frameNo <$> bufDescTable s' = frameNo <$> bufDescTable s /\
  length (bufPool s') = length (bufPool s) /\
  fileCalls s `prefix_of` fileCalls s'.

Definition keeps {A} (m : M A) : Prop := forall s, stable s (m s).2.

(** The first [k] frames have been handed out once, in order, and the others
    have never been used; the hand is at the last frame handed out. *)
Definition filled (k : N) (s : BufMgr) : Prop :=
  manager_inv s /\ k <= numBufs s /\
  clockHand s = (k + numBufs s - 1) mod numBufs s /\
  forall i d, bufDescTable s !! N.to_nat i = Some d ->
    (valid d = true <-> i < k).

(** [k] calls of [advanceClock]. *)
Definition advance_times (k : nat) (s : BufMgr) : BufMgr :=
  Nat.iter k (fun s => (advanceClock s).2) s.

(** ** [printSelf] *)

(** What [printSelf] writes to [cout]: for each frame its number and its
    descriptor (Modelled from the spec: [BufDesc::Print] is declared in
    buffer.h, which is not part of the sources; the line it prints stands
    here as the descriptor itself), then the number of valid frames. *)
Inductive printed : Type :=
| PrintFrame (i : N) (d : BufDesc)
| PrintTotal (validFrames : Z).

Definition INT_MAX : Z := 2147483647.

(** The loop [for (unsigned i = ...; i < numBufs; i++)] and the last line of
    [BufMgr::printSelf], with what is printed so far in [out].  The counter
    [validFrames] is an [int]: incrementing it beyond [INT_MAX] is
    undefined. *)
Fixpoint printSelf_loop (fuel : nat) (i : N) (validFrames : Z)
    (out : list printed) : M (list printed) :=
  match fuel with
  | O => out_of_fuel
  | S fuel' =>
      n ← get numBufs;
      if i <? n then
        tmpbuf ← getDesc i;
        let out := out ++ [PrintFrame i tmpbuf] in
        if valid tmpbuf then
          if (validFrames <? INT_MAX)%Z
          then printSelf_loop fuel' (wrap32 (i + 1)) (validFrames + 1)%Z out
          else undefined
        else printSelf_loop fuel' (wrap32 (i + 1)) validFrames out
      else ret (out ++ [PrintTotal validFrames])
  end.

(** [BufMgr::printSelf]; what it prints is returned. *)
Definition printSelf : M (list printed) :=
  n ← get numBufs;
  printSelf_loop (S (N.to_nat n)) 0 0%Z [].

Section Proofs.

Context {FM : FileModel}.

Lemma wrap32_small n : n < UINT32_MOD -> wrap32 n = n.
Proof. intros H. unfold wrap32. by apply N.mod_small. Qed.

Lemma next_hand_cases s :
  wf s ->
  (clockHand s + 1 < numBufs s /\ next_hand s = clockHand s + 1) \/
  (clockHand s + 1 = numBufs s /\ next_hand s = 0).
Proof.
  intros [Hn _ _ Hh]. unfold next_hand.
  destruct (N.eq_dec (clockHand s + 1) (numBufs s)) as [E|E].
  - right. split; [done|]. rewrite E. apply N.Div0.mod_same.
  - left. split; [lia|]. apply N.mod_small. lia.
Qed.

Lemma next_hand_lt s : wf s -> next_hand s < numBufs s.
Proof. intros H. destruct (next_hand_cases s H) as [[? ->]|[? ->]]; [done|]. destruct H; lia. Qed.

Lemma advanceClock_eq s :
  wf s -> advanceClock s = (Ok tt, set_clockHand (next_hand s) s).
Proof.
  intros H. pose proof (next_hand_cases s H) as Hc.
  destruct H as [Hn _ _ Hh]. destruct s as [n t p ht c l].
  unfold advanceClock, next_hand in *. mred.
  rewrite wrap32_small by lia.
  destruct (N.leb_spec n (c + 1)) as [Hle|Hlt].
  - destruct (N.eqb_spec n 0) as [->|_]; [lia|]. mred. done.
  - mred. destruct Hc as [[_ ->]|[? _]]; [done|lia].
Qed.

(** *** One pass of the loop of [allocBuf], case by case *)

Section Body.

Variables (pinned : N) (s : BufMgr) (d : BufDesc).
Hypothesis Hwf : wf s.
Hypothesis Hd : bufDescTable s !! N.to_nat (next_hand s) = Some d.

Lemma allocBuf_body_invalid :
  valid d = false ->
  allocBuf_body pinned s = (Ok (Done (next_hand s)), set_clockHand (next_hand s) s).
Proof.
  intros Hv. unfold allocBuf_body. mred. rewrite (advanceClock_eq s Hwf).
  mred. rewrite Hd. mred. rewrite Hv. mred. done.
Qed.

Lemma allocBuf_body_refbit :
  valid d = true -> refbit d = true ->
  allocBuf_body pinned s =
    (Ok (Continue pinned),
     set_bufDescTable
       (<[N.to_nat (next_hand s) := set_refbit false d]> (bufDescTable s))
       (set_clockHand (next_hand s) s)).
Proof.
  intros Hv Hr. unfold allocBuf_body. mred. rewrite (advanceClock_eq s Hwf).
  mred. rewrite Hd. mred. rewrite Hv, Hr. mred. rewrite Hd. mred. done.
Qed.

Lemma allocBuf_body_pinned :
  valid d = true -> refbit d = false -> pinCnt d <> 0 ->
  allocBuf_body pinned s =
    if wrap32 (pinned + 1) =? numBufs s
    then (Raise BufferExceeded, set_clockHand (next_hand s) s)
    else (Ok (Continue (wrap32 (pinned + 1))), set_clockHand (next_hand s) s).
Proof.
  intros Hv Hr Hp. unfold allocBuf_body. mred. rewrite (advanceClock_eq s Hwf).
  mred. rewrite Hd. mred. rewrite Hv, Hr. mred.
  destruct (N.eqb_spec (pinCnt d) 0) as [|_]; [done|]. mred.
  by destruct (wrap32 (pinned + 1) =? numBufs s).
Qed.

Lemma allocBuf_body_victim_clean :
  valid d = true -> refbit d = false -> pinCnt d = 0 -> dirty d = false ->
  allocBuf_body pinned s =
    (Ok (Done (next_hand s)),
     set_hashTable (delete (file d, pageNo d) (hashTable s))
       (set_clockHand (next_hand s) s)).
Proof.
  intros Hv Hr Hp Hdi. unfold allocBuf_body. mred.
  rewrite (advanceClock_eq s Hwf).
  mred. rewrite Hd. mred. rewrite Hv, Hr, Hdi, (proj2 (N.eqb_eq _ _) Hp). mred. rewrite Hd. mred.
  rewrite Hv. mred.
  destruct (hashTable s !! (file d, pageNo d)) eqn:E; mred; [done|].
  rewrite delete_id by done. by destruct s.
Qed.

Lemma allocBuf_body_victim_dirty f p :
  valid d = true -> refbit d = false -> pinCnt d = 0 -> dirty d = true ->
  file d = Some f -> bufPool s !! N.to_nat (next_hand s) = Some p ->
  allocBuf_body pinned s =
    (Ok (Done (next_hand s)),
     set_hashTable (delete (file d, pageNo d) (hashTable s))
       (set_bufDescTable
          (<[N.to_nat (next_hand s) := set_dirty false d]> (bufDescTable s))
          (set_fileCalls (fileCalls s ++ [CallWrite f p])
             (set_clockHand (next_hand s) s)))).
Proof.
  intros Hv Hr Hp Hdi Hf Hpo. unfold allocBuf_body. mred.
  rewrite (advanceClock_eq s Hwf).
  mred. rewrite Hd. mred. rewrite Hv, Hr, Hdi, Hf, (proj2 (N.eqb_eq _ _) Hp). mred. rewrite Hpo.
  mred. rewrite Hd. mred.
  rewrite list_lookup_insert_eq by (by eapply lookup_lt_Some).
  mred. rewrite Hv. mred. rewrite Hf.
  destruct (hashTable s !! (Some f, pageNo d)) eqn:E; mred; [done|].
  rewrite delete_id by done. done.
Qed.

End Body.

(** *** The loop of [allocBuf] *)

Lemma lookup_next_hand s :
  wf s -> is_Some (bufDescTable s !! N.to_nat (next_hand s)).
Proof.
  intros H. apply lookup_lt_is_Some. rewrite (wf_table s H).
  pose proof (next_hand_lt s H). lia.
Qed.

Lemma lookup_frame_lt s fr d :
  wf s -> bufDescTable s !! N.to_nat fr = Some d -> fr < numBufs s.
Proof.
  intros H Hl. apply lookup_lt_Some in Hl. rewrite (wf_table s H) in Hl. lia.
Qed.

Lemma dist_next_hand s :
  wf s -> dist (numBufs s) (clockHand s) (next_hand s) = 0.
Proof.
  intros H. pose proof (wf_hand s H).
  unfold dist. destruct (next_hand_cases s H) as [[? ->]|[? ->]];
    destruct (N.ltb_spec (clockHand s) (clockHand s + 1));
    destruct (N.ltb_spec (clockHand s) 0); lia.
Qed.

Lemma dist_step s fr :
  wf s -> fr < numBufs s -> fr <> next_hand s ->
  dist (numBufs s) (next_hand s) fr + 1 = dist (numBufs s) (clockHand s) fr.
Proof.
  intros H Hfr Hne. pose proof (wf_hand s H).
  unfold dist. destruct (next_hand_cases s H) as [[? E]|[? E]];
    rewrite E in *; destruct (N.ltb_spec (clockHand s) fr).
  - destruct (N.ltb_spec (clockHand s + 1) fr); lia.
  - destruct (N.ltb_spec (clockHand s + 1) fr); lia.
  - destruct (N.ltb_spec 0 fr); lia.
  - destruct (N.ltb_spec 0 fr); lia.
Qed.

Lemma set_refbit_false_id d : refbit d = false -> set_refbit false d = d.
Proof. destruct d; simpl; by intros ->. Qed.

Lemma wf_set_clockHand s c : wf s -> c < numBufs s -> wf (set_clockHand c s).
Proof. intros [? ? ? ?] ?. by constructor. Qed.

Lemma wf_set_bufDescTable s t :
  wf s -> length t = length (bufDescTable s) -> wf (set_bufDescTable t s).
Proof. intros [? ? ? ?] E. constructor; try done. simpl. by rewrite E. Qed.

Lemma wf_set_hashTable s h : wf s -> wf (set_hashTable h s).
Proof. intros [? ? ? ?]. by constructor. Qed.

Lemma wf_set_fileCalls s l : wf s -> wf (set_fileCalls l s).
Proof. intros [? ? ? ?]. by constructor. Qed.

Lemma wf_set_bufPool s p :
  wf s -> length p = length (bufPool s) -> wf (set_bufPool p s).
Proof. intros [? ? ? ?] E. constructor; try done. simpl. by rewrite E. Qed.

(** The rule for the loop: a property of the loop state that each pass keeps
    while it lowers a bound on the passes left, gives the property of the
    outcome, and the loop ends within the bound. *)
Lemma allocBuf_loop_rule
  (P : nat -> N -> BufMgr -> Prop) (Q : outcome N -> BufMgr -> Prop) :
  (forall m c s, P m c s ->
     match allocBuf_body c s with
     | (Ok (Continue c'), s') => exists m', (m' < m)%nat /\ P m' c' s'
     | (Ok (Done fr), s') => Q (Ok fr) s'
     | (Raise e, s') => Q (Raise e) s'
     | (Undefined, s') => Q Undefined s'
     | (OutOfFuel, s') => False
     end) ->
  forall fuel m c s, (m < fuel)%nat -> P m c s ->
    Q (allocBuf_loop fuel c s).1 (allocBuf_loop fuel c s).2.
Proof.
  intros Hstep fuel. induction fuel as [|fuel IH]; intros m c s Hm HP; [lia|].
  specialize (Hstep m c s HP). simpl. mred.
  destruct (allocBuf_body c s) as [[[c'|fr]|e| |] s']; simpl; try done.
  destruct Hstep as (m' & Hm' & HP'). apply (IH m'); [lia|done].
Qed.

Lemma core_fmap (l l0 : list BufDesc) :
  set_refbit false <$> l = set_refbit false <$> l0 -> core <$> l = core <$> l0.
Proof.
  intros E. change core with (set_dirty false ∘ set_refbit false).
  by rewrite !(list_fmap_compose (set_refbit false)), E.
Qed.

Lemma fmap_lookup_eq {A B} (f : A -> B) (l l0 : list A) i x :
  f <$> l = f <$> l0 -> l !! i = Some x ->
  exists x0, l0 !! i = Some x0 /\ f x0 = f x.
Proof.
  intros E Hl. assert (H : (f <$> l0) !! i = Some (f x)).
  { by rewrite <- E, list_lookup_fmap, Hl. }
  rewrite list_lookup_fmap in H.
  destruct (l0 !! i) as [x0|]; simplify_eq/=. eauto.
Qed.

Lemma fmap_insert_same {A B} (f : A -> B) (l : list A) i x y :
  l !! i = Some x -> f y = f x -> f <$> <[i := y]> l = f <$> l.
Proof.
  intros Hl E. rewrite list_fmap_insert, E. apply list_insert_id.
  by rewrite list_lookup_fmap, Hl.
Qed.

Lemma set_refbit_inj_fields d d0 :
  set_refbit false d0 = set_refbit false d ->
  file d0 = file d /\ pageNo d0 = pageNo d /\ pinCnt d0 = pinCnt d /\
  dirty d0 = dirty d /\ valid d0 = valid d.
Proof. destruct d, d0; simpl. intros [= -> -> -> -> -> ->]. done. Qed.

Lemma sweeping_step s0 m c s :
  sweeping s0 m c s ->
  match allocBuf_body c s with
  | (Ok (Continue c'), s') => exists m', (m' < m)%nat /\ sweeping s0 m' c' s'
  | (Ok (Done fr), s') => alloc_post s0 (Ok fr) s'
  | (Raise e, s') => alloc_post s0 (Raise e) s'
  | (Undefined, s') => alloc_post s0 Undefined s'
  | (OutOfFuel, s') => False
  end.
Proof.
  intros [Hwf Hfiles Hn Hp Hh Hc Ht (k & HJ & Hck & HcN & ->)].
  destruct (lookup_next_hand s Hwf) as [d Hd].
  pose proof (next_hand_lt s Hwf) as Hlt.
  pose proof (wf_numBufs s Hwf) as Hnb.
  destruct (fmap_lookup_eq _ _ _ _ _ Ht Hd) as (d0 & Hd0 & Ed0).
  apply set_refbit_inj_fields in Ed0 as (Ef & Epn & Epc & Edi & Ev).
  destruct (valid d) eqn:Hv.
  2:{ (* an empty frame *)
    rewrite (allocBuf_body_invalid c s d Hwf Hd Hv). simpl.
    constructor; simpl; try done.
    - by apply wf_set_clockHand.
    - by apply core_fmap.
    - exists d0, d. rewrite Ev. repeat split; try done.
      unfold writeback. rewrite Ev. simpl. by rewrite app_nil_r. }
  destruct (refbit d) eqn:Hr.
  { (* second chance *)
    rewrite (allocBuf_body_refbit c s d Hwf Hd Hv Hr).
    assert (0 < k) as Hk.
    { pose proof (HJ _ _ Hd Hr) as H0. rewrite dist_next_hand in H0 by done. lia. }
    exists (N.to_nat (k - 1 + (numBufs s - 1 - c))). split; [lia|].
    constructor; simpl; try done.
    - apply wf_set_bufDescTable; [by apply wf_set_clockHand|].
      simpl. by rewrite length_insert.
    - intros i d1 Hi Hv1. simpl in Hi.
      destruct (decide (i = N.to_nat (next_hand s))) as [->|Hne].
      + rewrite list_lookup_insert_eq in Hi by (by eapply lookup_lt_Some).
        simplify_eq/=. by eapply Hfiles.
      + rewrite list_lookup_insert_ne in Hi by done. by eapply Hfiles.
    - rewrite <- Ht. by eapply fmap_insert_same.
    - exists (k - 1). repeat split; try lia.
      intros fr d1 Hi Hr1. simpl in *.
      destruct (decide (fr = next_hand s)) as [->|Hne].
      + rewrite list_lookup_insert_eq in Hi by (by eapply lookup_lt_Some).
        by simplify_eq/=.
      + rewrite list_lookup_insert_ne in Hi by lia.
        pose proof (HJ _ _ Hi Hr1).
        pose proof (dist_step s fr Hwf (lookup_frame_lt _ _ _ Hwf Hi) Hne). lia. }
  assert (Hahead : forall k', k' + 1 = k \/ (k = 0 /\ k' = 0) ->
            refbits_ahead k' (set_clockHand (next_hand s) s)).
  { intros k' Hk' fr d1 Hi Hr1. simpl in *.
    assert (fr <> next_hand s) as Hne by (intros ->; congruence).
    pose proof (HJ _ _ Hi Hr1).
    pose proof (dist_step s fr Hwf (lookup_frame_lt _ _ _ Hwf Hi) Hne). lia. }
  destruct (N.eq_dec (pinCnt d) 0) as [Hpc|Hpc].
  2:{ (* a pinned frame *)
    rewrite (allocBuf_body_pinned c s d Hwf Hd Hv Hr Hpc).
    rewrite wrap32_small by lia.
    destruct (N.eqb_spec (c + 1) (numBufs s)) as [Hfull|Hmore].
    - split; [done|]. split; [by apply wf_set_clockHand|].
      unfold alloc_raised. simpl.
      assert (bufDescTable s = set_refbit false <$> bufDescTable s0) as <-.
      { rewrite <- Ht. symmetry. apply list_eq. intros i.
        rewrite list_lookup_fmap. destruct (bufDescTable s !! i) as [d1|] eqn:Hi;
          [|done]. simpl. f_equal. apply set_refbit_false_id.
        destruct (refbit d1) eqn:Hr1; [|done].
        assert (i = N.to_nat (N.of_nat i)) as Ei by lia. rewrite Ei in Hi.
        assert (N.of_nat i <> next_hand s) as Hne by (intros E; rewrite E in Hi; congruence).
        pose proof (HJ _ _ Hi Hr1).
        pose proof (dist_step s _ Hwf (lookup_frame_lt _ _ _ Hwf Hi) Hne). lia. }
      destruct s, s0; simpl in *; by subst.
    - exists (N.to_nat (k - 1 + (numBufs s - 1 - (c + 1)))). split; [lia|].
      constructor; simpl; try done.
      + by apply wf_set_clockHand.
      + exists (k - 1). repeat split; try lia. apply Hahead. lia. }
  (* the victim *)
  destruct (dirty d) eqn:Hdi.
  - destruct (Hfiles _ _ Hd Hv) as [f Hf].
    assert (is_Some (bufPool s !! N.to_nat (next_hand s))) as [p Hpo].
    { apply lookup_lt_is_Some. rewrite (wf_pool s Hwf). lia. }
    rewrite (allocBuf_body_victim_dirty c s d Hwf Hd f p Hv Hr Hpc Hdi Hf Hpo).
    constructor; simpl; try done.
    + apply wf_set_hashTable, wf_set_bufDescTable;
        [by apply wf_set_fileCalls, wf_set_clockHand|].
      simpl. by rewrite length_insert.
    + rewrite <- (core_fmap _ _ Ht). by eapply fmap_insert_same.
    + exists d0, (set_dirty false d).
      rewrite list_lookup_insert_eq by (by eapply lookup_lt_Some).
      rewrite Ev, Ef, Epn, Epc, Hh, Hc. repeat split; try done.
      unfold writeback. rewrite Ev, Edi, Ef, Hf, <- Hp, Hpo. done.
  - rewrite (allocBuf_body_victim_clean c s d Hwf Hd Hv Hr Hpc Hdi).
    constructor; simpl; try done.
    + by apply wf_set_hashTable, wf_set_clockHand.
    + by apply core_fmap.
    + exists d0, d. rewrite Ev, Ef, Epn, Epc, Hh, Hc. repeat split; try done.
      unfold writeback. rewrite Ev, Edi. simpl. by rewrite app_nil_r.
Qed.

Lemma allocBuf_spec s :
  wf s -> files_ok s -> alloc_post s (allocBuf s).1 (allocBuf s).2.
Proof.
  intros Hwf Hfiles. unfold allocBuf. mred.
  pose proof (wf_numBufs s Hwf) as Hn.
  apply (allocBuf_loop_rule (sweeping s) (alloc_post s) (sweeping_step s))
    with (m := N.to_nat (numBufs s + (numBufs s - 1 - 0))); [lia|].
  constructor; try done.
  exists (numBufs s). repeat split; try lia.
  intros fr d Hfr _. pose proof (lookup_frame_lt s fr d Hwf Hfr).
  pose proof (wf_hand s Hwf). unfold dist.
  destruct (N.ltb_spec (clockHand s) fr); lia.
Qed.

(** On a well-formed pool the loop of [allocBuf] ends within its bound and
    runs into no undefined behaviour: it returns a frame or throws
    [BufferExceeded]. *)
Lemma allocBuf_total s :
  wf s -> files_ok s ->
  (exists frame, (allocBuf s).1 = Ok frame) \/
  (allocBuf s).1 = Raise BufferExceeded.
Proof.
  intros Hwf Hfiles. pose proof (allocBuf_spec s Hwf Hfiles) as H.
  destruct (allocBuf s).1 as [fr|e| |]; simpl in H; try done.
  - left. eauto.
  - right. by destruct H as [-> _].
Qed.

(** *** The invariant under the updates the operations make *)

Lemma inv_files_ok hole s : inv hole s -> files_ok s.
Proof.
  intros H i d Hi Hv. pose proof (inv_desc _ _ H i d Hi) as Hd.
  unfold desc_ok in Hd. by rewrite Hv in Hd.
Qed.

Lemma inv_set_fileCalls hole s l : inv hole s -> inv hole (set_fileCalls l s).
Proof. intros [Hw H1 H2 H3]. constructor; try done. by apply wf_set_fileCalls. Qed.

Lemma inv_set_bufPool hole s p :
  inv hole s -> length p = length (bufPool s) -> inv hole (set_bufPool p s).
Proof. intros [Hw H1 H2 H3] E. constructor; try done. by apply wf_set_bufPool. Qed.

Lemma inv_update_frame hole s fr d d' :
  inv hole s -> bufDescTable s !! N.to_nat fr = Some d ->
  file d' = file d -> pageNo d' = pageNo d -> valid d' = valid d ->
  desc_ok d' ->
  inv hole (set_bufDescTable (<[N.to_nat fr := d']> (bufDescTable s)) s).
Proof.
  intros [Hw H1 H2 H3] Hd Ef Ep Ev Hok.
  pose proof (lookup_lt_Some _ _ _ Hd) as Hlt.
  constructor; simpl.
  - apply wf_set_bufDescTable; [done|]. by rewrite length_insert.
  - intros i d1 Hi. destruct (decide (i = N.to_nat fr)) as [->|Hne].
    + rewrite list_lookup_insert_eq in Hi by done. by simplify_eq.
    + rewrite list_lookup_insert_ne in Hi by done. eauto.
  - intros k fr1 Hk. destruct (H2 k fr1 Hk) as (Hh & d1 & Hd1 & Hv1 & ->).
    split; [done|]. destruct (decide (fr1 = fr)) as [->|Hne].
    + exists d'. rewrite list_lookup_insert_eq by done. simplify_eq.
      rewrite Ev, Ef, Ep. done.
    + exists d1. rewrite list_lookup_insert_ne by lia. done.
  - intros fr1 d1 Hi Hv1 Hh. destruct (decide (fr1 = fr)) as [->|Hne].
    + rewrite list_lookup_insert_eq in Hi by done. simplify_eq.
      rewrite Ef, Ep. apply H3; [done| |done]. by rewrite <- Ev.
    + rewrite list_lookup_insert_ne in Hi by lia. by apply H3.
Qed.

Lemma core_eq_fields d d0 :
  core d0 = core d ->
  file d0 = file d /\ pageNo d0 = pageNo d /\ pinCnt d0 = pinCnt d /\
  valid d0 = valid d.
Proof. destruct d, d0; unfold core; simpl. intros [= -> -> -> -> ->]. done. Qed.

Lemma core_eq_desc_ok d d0 : core d0 = core d -> desc_ok d0 -> desc_ok d.
Proof.
  intros E. apply core_eq_fields in E as (Ef & _ & Ep & Ev).
  unfold desc_ok. by rewrite Ef, Ep, Ev.
Qed.

Lemma inv_alloc_ok s0 frame s' :
  inv None s0 -> alloc_ok s0 frame s' -> inv (Some frame) s'.
Proof.
  intros [Hw H1 H2 H3] [Hw' Hn Hp Hh Hc (d0 & d' & Hd0 & Hd' & Hvic & Hht & _)].
  assert (Hback : forall i d, bufDescTable s' !! i = Some d ->
            exists d1, bufDescTable s0 !! i = Some d1 /\ core d1 = core d).
  { intros i d Hi. by eapply fmap_lookup_eq. }
  assert (Hforth : forall i d, bufDescTable s0 !! i = Some d ->
            exists d1, bufDescTable s' !! i = Some d1 /\ core d1 = core d).
  { intros i d Hi. by eapply fmap_lookup_eq. }
  constructor; try done.
  - intros i d Hi. destruct (Hback i d Hi) as (d1 & Hi1 & E).
    eapply core_eq_desc_ok; eauto.
  - intros k fr Hk.
    assert (hashTable s0 !! k = Some fr /\
            (valid d0 = true -> k <> (file d0, pageNo d0))) as [Hk0 Hkne].
    { rewrite Hht in Hk. destruct (valid d0); [|done].
      apply lookup_delete_Some in Hk as [? ?]. split; [done|]. by intros _. }
    destruct (H2 k fr Hk0) as (_ & d1 & Hd1 & Hv1 & ->).
    split.
    + intros [= ->]. simplify_eq. by apply Hkne.
    + destruct (Hforth _ _ Hd1) as (d2 & Hd2 & E).
      apply core_eq_fields in E as (Ef & Ep & _ & Ev).
      exists d2. rewrite Ef, Ep, Ev. done.
  - intros fr d Hi Hv Hne.
    destruct (Hback _ _ Hi) as (d1 & Hd1 & E).
    apply core_eq_fields in E as (Ef & Ep & _ & Ev).
    rewrite <- Ef, <- Ep. rewrite <- Ev in Hv.
    pose proof (H3 fr d1 Hd1 Hv ltac:(done)) as Hk.
    rewrite Hht. destruct (valid d0) eqn:Hv0; [|done].
    rewrite lookup_delete_ne; [done|]. intros E.
    pose proof (H3 frame d0 Hd0 Hv0 ltac:(done)) as Hk0.
    rewrite E in Hk0. congruence.
Qed.

Lemma inv_sweep s0 c :
  inv None s0 -> c < numBufs s0 ->
  inv None
    (set_clockHand c (set_bufDescTable (set_refbit false <$> bufDescTable s0) s0)).
Proof.
  intros [Hw H1 H2 H3] Hc.
  assert (Hback : forall i d,
            (set_refbit false <$> bufDescTable s0) !! i = Some d ->
            exists d1, bufDescTable s0 !! i = Some d1 /\ d = set_refbit false d1).
  { intros i d Hi. rewrite list_lookup_fmap in Hi.
    destruct (bufDescTable s0 !! i) as [d1|]; simplify_eq/=. eauto. }
  constructor; simpl; try done.
  - apply wf_set_clockHand; [|done]. apply wf_set_bufDescTable; [done|].
    by rewrite length_fmap.
  - intros i d Hi. destruct (Hback i d Hi) as (d1 & Hi1 & ->).
    apply (H1 i d1 Hi1).
  - intros k fr Hk. destruct (H2 k fr Hk) as (_ & d1 & Hd1 & Hv1 & ->).
    split; [done|]. exists (set_refbit false d1).
    rewrite list_lookup_fmap, Hd1. done.
  - intros fr d Hi Hv _. destruct (Hback _ d Hi) as (d1 & Hi1 & ->).
    simpl in *. by apply H3.
Qed.

(** [hashTable->insert] and [Set] on the frame [allocBuf] handed out. *)
Lemma inv_fill_hole s frame d f pageNum :
  inv (Some frame) s ->
  bufDescTable s !! N.to_nat frame = Some d ->
  hashTable s !! (Some f, pageNum) = None ->
  inv None
    (set_bufDescTable
       (<[N.to_nat frame := BufDesc_Set (Some f) pageNum d]> (bufDescTable s))
       (set_hashTable (<[(Some f, pageNum) := frame]> (hashTable s)) s)).
Proof.
  intros [Hw H1 H2 H3] Hd Hk.
  pose proof (lookup_lt_Some _ _ _ Hd) as Hlt.
  constructor; simpl.
  - apply wf_set_bufDescTable; [by apply wf_set_hashTable|].
    simpl. by rewrite length_insert.
  - intros i d1 Hi. destruct (decide (i = N.to_nat frame)) as [->|Hne].
    + rewrite list_lookup_insert_eq in Hi by done. simplify_eq.
      unfold desc_ok. simpl. eauto.
    + rewrite list_lookup_insert_ne in Hi by done. eauto.
  - intros k fr Hi. split; [done|].
    destruct (decide (k = (Some f, pageNum))) as [->|Hne].
    + rewrite lookup_insert_eq in Hi. simplify_eq.
      rewrite list_lookup_insert_eq by done. eauto.
    + rewrite lookup_insert_ne in Hi by done.
      destruct (H2 k fr Hi) as (Hh & d1 & Hd1 & Hv1 & ->).
      exists d1. rewrite list_lookup_insert_ne; [done|].
      intros E. apply Hh. f_equal. lia.
  - intros fr d1 Hi Hv _. destruct (decide (fr = frame)) as [->|Hne].
    + rewrite list_lookup_insert_eq in Hi by done. simplify_eq. simpl.
      by rewrite lookup_insert_eq.
    + rewrite list_lookup_insert_ne in Hi by lia.
      pose proof (H3 fr d1 Hi Hv ltac:(congruence)) as Hk1.
      rewrite lookup_insert_ne; [done|]. intros E. rewrite <- E in Hk1.
      congruence.
Qed.

(** [hashTable->remove] and [Clear] on a resident page. *)
Lemma inv_clear_frame s k frame d :
  inv None s -> hashTable s !! k = Some frame ->
  bufDescTable s !! N.to_nat frame = Some d ->
  inv None
    (set_bufDescTable (<[N.to_nat frame := BufDesc_Clear d]> (bufDescTable s))
       (set_hashTable (delete k (hashTable s)) s)).
Proof.
  intros [Hw H1 H2 H3] Hk Hd.
  pose proof (lookup_lt_Some _ _ _ Hd) as Hlt.
  destruct (H2 k frame Hk) as (_ & d' & Hd' & Hv & Ek). simplify_eq.
  constructor; simpl.
  - apply wf_set_bufDescTable; [by apply wf_set_hashTable|].
    simpl. by rewrite length_insert.
  - intros i d1 Hi. destruct (decide (i = N.to_nat frame)) as [->|Hne].
    + rewrite list_lookup_insert_eq in Hi by done. simplify_eq.
      unfold desc_ok. simpl. done.
    + rewrite list_lookup_insert_ne in Hi by done. eauto.
  - intros k fr Hi. split; [done|].
    apply lookup_delete_Some in Hi as [Hne Hi].
    destruct (H2 k fr Hi) as (_ & d1 & Hd1 & Hv1 & ->).
    exists d1. rewrite list_lookup_insert_ne; [done|].
    intros E. assert (fr = frame) as -> by lia. simplify_eq.
  - intros fr d1 Hi Hv1 _. destruct (decide (fr = frame)) as [->|Hne].
    + rewrite list_lookup_insert_eq in Hi by done. by simplify_eq.
    + rewrite list_lookup_insert_ne in Hi by lia.
      pose proof (H3 fr d1 Hi Hv1 ltac:(done)) as Hk1.
      rewrite lookup_delete_ne; [done|]. intros E. rewrite <- E in Hk1.
      congruence.
Qed.

Lemma inv_index_consistent s : inv None s -> index_consistent s.
Proof.
  intros [Hw H1 H2 H3]. split.
  - intros fr d Hd. split; [split|].
    + intros Hv. eexists. by apply H3.
    + intros [k Hk]. destruct (H2 k fr Hk) as (_ & d1 & Hd1 & Hv1 & _).
      congruence.
    + intros k Hk. destruct (H2 k fr Hk) as (_ & d1 & Hd1 & _ & ->).
      congruence.
  - intros k fr Hk. destruct (H2 k fr Hk) as (_ & d1 & Hd1 & _). eauto.
Qed.

(** *** The operations, path by path *)

Lemma readPage_hit filePtr pageNum s frame d :
  hashTable s !! (filePtr, pageNum) = Some frame ->
  bufDescTable s !! N.to_nat frame = Some d ->
  readPage filePtr pageNum s =
    (Ok frame,
     set_bufDescTable
       (<[N.to_nat frame := set_pinCnt (pinCnt d + 1) (set_refbit true d)]>
          (bufDescTable s)) s).
Proof.
  intros Hk Hd. pose proof (lookup_lt_Some _ _ _ Hd) as Hlt.
  unfold readPage. mred. rewrite Hk. mred. rewrite Hd. mred.
  rewrite list_lookup_insert_eq by done. mred.
  by rewrite list_insert_insert_eq.
Qed.

Lemma readPage_miss_raise filePtr pageNum s e s1 :
  hashTable s !! (filePtr, pageNum) = None ->
  allocBuf s = (Raise e, s1) ->
  readPage filePtr pageNum s = (Raise e, s1).
Proof.
  intros Hk Ha. unfold readPage. mred. rewrite Hk. mred.
  destruct (decide (HashNotFound = HashNotFound)); [|done]. by rewrite Ha.
Qed.

Lemma readPage_miss_ok f pageNum s frame s1 d p0 :
  hashTable s !! (Some f, pageNum) = None ->
  allocBuf s = (Ok frame, s1) ->
  bufDescTable s1 !! N.to_nat frame = Some d ->
  bufPool s1 !! N.to_nat frame = Some p0 ->
  readPage (Some f) pageNum s =
    (Ok frame,
     set_bufDescTable
       (<[N.to_nat frame := BufDesc_Set (Some f) pageNum d]> (bufDescTable s1))
       (set_hashTable (<[(Some f, pageNum) := frame]> (hashTable s1))
          (set_bufPool
             (<[N.to_nat frame := file_readPage (fileCalls s1) f pageNum]>
                (bufPool s1))
             (set_fileCalls (fileCalls s1 ++ [CallRead f pageNum]) s1)))).
Proof.
  intros Hk Ha Hd Hp. unfold readPage. mred. rewrite Hk. mred.
  destruct (decide (HashNotFound = HashNotFound)); [|done]. rewrite Ha.
  mred. rewrite Hp. mred. rewrite Hd. done.
Qed.

Lemma unPinPage_absent filePtr pageNum isDirty s :
  hashTable s !! (filePtr, pageNum) = None ->
  unPinPage filePtr pageNum isDirty s = (Ok tt, s).
Proof.
  intros Hk. unfold unPinPage. mred. rewrite Hk. mred.
  by destruct (decide (HashNotFound = HashNotFound)).
Qed.

Lemma unPinPage_pinned filePtr pageNum isDirty s frame d :
  hashTable s !! (filePtr, pageNum) = Some frame ->
  bufDescTable s !! N.to_nat frame = Some d ->
  0 < pinCnt d ->
  unPinPage filePtr pageNum isDirty s =
    (Ok tt,
     set_bufDescTable
       (<[N.to_nat frame :=
            set_dirty (dirty d || isDirty) (set_pinCnt (pinCnt d - 1) d)]>
          (bufDescTable s)) s).
Proof.
  intros Hk Hd Hp. pose proof (lookup_lt_Some _ _ _ Hd) as Hlt.
  unfold unPinPage. mred. rewrite Hk. mred. rewrite Hd. mred.
  rewrite (proj2 (N.ltb_lt _ _) Hp). mred. rewrite Hd. mred.
  destruct isDirty; mred.
  - rewrite list_lookup_insert_eq by done. mred.
    rewrite list_insert_insert_eq, orb_true_r. done.
  - rewrite orb_false_r. by destruct d.
Qed.

Lemma unPinPage_unpinned filePtr pageNum isDirty s frame d :
  hashTable s !! (filePtr, pageNum) = Some frame ->
  bufDescTable s !! N.to_nat frame = Some d ->
  pinCnt d = 0 -> is_Some (file d) ->
  unPinPage filePtr pageNum isDirty s = (Raise PageNotPinned, s).
Proof.
  intros Hk Hd Hp [f Hf]. unfold unPinPage. mred. rewrite Hk. mred.
  rewrite Hd. mred. rewrite Hp, Hf. done.
Qed.

Lemma disposePage_absent f pageNum s :
  hashTable s !! (Some f, pageNum) = None ->
  disposePage (Some f) pageNum s =
    (Ok tt, set_fileCalls (fileCalls s ++ [CallDelete f pageNum]) s).
Proof.
  intros Hk. unfold disposePage. mred. rewrite Hk. mred.
  by destruct (decide (HashNotFound = HashNotFound)).
Qed.

Lemma disposePage_resident f pageNum s frame d :
  hashTable s !! (Some f, pageNum) = Some frame ->
  bufDescTable s !! N.to_nat frame = Some d ->
  disposePage (Some f) pageNum s =
    (Ok tt,
     set_fileCalls (fileCalls s ++ [CallDelete f pageNum])
       (set_bufDescTable
          (<[N.to_nat frame := BufDesc_Clear d]> (bufDescTable s))
          (set_hashTable (delete (Some f, pageNum) (hashTable s)) s))).
Proof.
  intros Hk Hd. unfold disposePage. mred. rewrite Hk. mred. rewrite Hk. mred.
  rewrite Hd. done.
Qed.

Lemma allocPage_raise f s e s1 :
  allocBuf (set_fileCalls (fileCalls s ++ [CallAllocate f]) s) = (Raise e, s1) ->
  allocPage (Some f) s = (Raise e, s1).
Proof. intros Ha. unfold allocPage. mred. by rewrite Ha. Qed.

Lemma allocPage_ok f s frame s1 d p0 :
  allocBuf (set_fileCalls (fileCalls s ++ [CallAllocate f]) s) = (Ok frame, s1) ->
  bufDescTable s1 !! N.to_nat frame = Some d ->
  bufPool s1 !! N.to_nat frame = Some p0 ->
  allocPage (Some f) s =
    (Ok (page_number (file_allocatePage (fileCalls s) f), frame),
     set_bufDescTable
       (<[N.to_nat frame :=
            BufDesc_Set (Some f)
              (page_number (file_allocatePage (fileCalls s) f)) d]>
          (bufDescTable s1))
       (set_hashTable
          (<[(Some f, page_number (file_allocatePage (fileCalls s) f)) := frame]>
             (hashTable s1))
          (set_bufPool
             (<[N.to_nat frame := file_allocatePage (fileCalls s) f]> (bufPool s1))
             s1))).
Proof.
  intros Ha Hd Hp. unfold allocPage. mred. rewrite Ha. mred. rewrite Hp.
  mred. rewrite Hd. by destruct s1.
Qed.

(** *** One pass of the loop of [flushFile], case by case *)

Lemma flushFile_body_other filePtr fi s d :
  bufDescTable s !! N.to_nat fi = Some d -> file d <> filePtr ->
  flushFile_body filePtr fi s = (Ok tt, s).
Proof.
  intros Hd Hne. unfold flushFile_body. mred. rewrite Hd.
  by destruct (decide (file d = filePtr)).
Qed.

Lemma flushFile_body_invalid filePtr fi s d :
  bufDescTable s !! N.to_nat fi = Some d -> file d = filePtr ->
  valid d = false ->
  flushFile_body filePtr fi s = (Raise BadBuffer, s).
Proof.
  intros Hd He Hv. unfold flushFile_body. mred. rewrite Hd.
  destruct (decide (file d = filePtr)); [|done]. by rewrite Hv.
Qed.

Lemma flushFile_body_pinned f fi s d :
  bufDescTable s !! N.to_nat fi = Some d -> file d = Some f ->
  valid d = true -> 0 < pinCnt d ->
  flushFile_body (Some f) fi s = (Raise PagePinned, s).
Proof.
  intros Hd He Hv Hp. unfold flushFile_body. mred. rewrite Hd.
  destruct (decide (file d = Some f)); [|done]. rewrite Hv. mred.
  by rewrite (proj2 (N.ltb_lt _ _) Hp).
Qed.

Lemma flushFile_body_flush f fi s d p frame :
  bufDescTable s !! N.to_nat fi = Some d -> file d = Some f ->
  valid d = true -> pinCnt d = 0 ->
  bufPool s !! N.to_nat fi = Some p ->
  hashTable s !! (Some f, pageNo d) = Some frame ->
  flushFile_body (Some f) fi s = (Ok tt, flush_frame fi d s).
Proof.
  intros Hd He Hv Hp Hpo Hk. pose proof (lookup_lt_Some _ _ _ Hd) as Hlt.
  unfold flushFile_body, flush_frame, writeback. mred. rewrite Hd.
  destruct (decide (file d = Some f)); [|done].
  rewrite Hv, Hp, He, Hpo, N.ltb_irrefl. mred.
  destruct (dirty d) eqn:Hdi; mred.
  - rewrite Hpo. mred. rewrite Hd. mred.
    rewrite list_lookup_insert_eq by done. mred. rewrite Hk. mred.
    rewrite list_lookup_insert_eq by done. mred.
    by rewrite list_insert_insert_eq.
  - rewrite Hd. mred. rewrite Hk. mred. rewrite Hd. mred.
    rewrite app_nil_r. by destruct s.
Qed.

Lemma inv_flush_frame s fi d :
  inv None s -> bufDescTable s !! N.to_nat fi = Some d -> valid d = true ->
  inv None (flush_frame fi d s).
Proof.
  intros Hinv Hd Hv. unfold flush_frame.
  pose proof (inv_valid _ _ Hinv fi d Hd Hv ltac:(done)) as Hk.
  apply (inv_clear_frame (set_fileCalls _ s) (file d, pageNo d) fi d);
    [by apply inv_set_fileCalls|done|done].
Qed.

Lemma flushFile_body_inv filePtr fi s :
  inv None s -> fi < numBufs s -> inv None (flushFile_body filePtr fi s).2.
Proof.
  intros Hinv Hfi. pose proof (inv_wf _ _ Hinv) as Hwf.
  assert (is_Some (bufDescTable s !! N.to_nat fi)) as [d Hd].
  { apply lookup_lt_is_Some. rewrite (wf_table s Hwf). lia. }
  assert (is_Some (bufPool s !! N.to_nat fi)) as [p Hp].
  { apply lookup_lt_is_Some. rewrite (wf_pool s Hwf). lia. }
  destruct (decide (file d = filePtr)) as [He|Hne].
  2:{ by rewrite (flushFile_body_other _ _ _ _ Hd Hne). }
  destruct (valid d) eqn:Hv.
  2:{ by rewrite (flushFile_body_invalid _ _ _ _ Hd He Hv). }
  pose proof (inv_desc _ _ Hinv _ _ Hd) as Hok. unfold desc_ok in Hok.
  rewrite Hv in Hok. destruct Hok as [f Hf]. rewrite Hf in He. subst filePtr.
  destruct (N.eq_dec (pinCnt d) 0) as [Hp0|Hp0].
  - pose proof (inv_valid _ _ Hinv fi d Hd Hv ltac:(done)) as Hk.
    rewrite Hf in Hk.
    rewrite (flushFile_body_flush _ _ _ _ _ _ Hd Hf Hv Hp0 Hp Hk). simpl.
    by apply inv_flush_frame.
  - rewrite (flushFile_body_pinned _ _ _ _ Hd Hf Hv) by lia. done.
Qed.

Lemma flushFile_loop_inv fuel filePtr fi s :
  inv None s -> inv None (flushFile_loop fuel filePtr fi s).2.
Proof.
  revert fi s. induction fuel as [|fuel IH]; intros fi s Hinv; [done|].
  simpl. mred. destruct (N.ltb_spec fi (numBufs s)) as [Hlt|Hge]; [|done].
  pose proof (flushFile_body_inv filePtr fi s Hinv Hlt) as H1.
  destruct (flushFile_body filePtr fi s) as [[[]|e| |] s1]; simpl in *; try done.
  by apply IH.
Qed.

(** *** The invariant under the public operations *)

Lemma BufMgr_new_inv bufs : 0 < bufs < UINT32_MOD -> inv None (BufMgr_new bufs).
Proof.
  intros Hb. unfold BufMgr_new.
  assert (Hi : forall i d,
    ((fun i => BufDesc_init (N.of_nat i)) <$> seq 0 (N.to_nat bufs)) !! i = Some d ->
    valid d = false /\ file d = None /\ pinCnt d = 0).
  { intros i d Hi. rewrite list_lookup_fmap in Hi.
    destruct (seq 0 (N.to_nat bufs) !! i); by simplify_eq/=. }
  constructor; simpl.
  - constructor; simpl; try done.
    + by rewrite length_fmap, length_seq.
    + by rewrite length_replicate.
    + unfold wrap32.
      replace (bufs + UINT32_MOD - 1) with (bufs - 1 + 1 * UINT32_MOD) by lia.
      rewrite N.Div0.mod_add, N.mod_small; lia.
  - intros i d Hd. destruct (Hi i d Hd) as (Hv & Hf & Hp).
    unfold desc_ok. by rewrite Hv.
  - intros k fr Hk. by rewrite lookup_empty in Hk.
  - intros fr d Hd Hv. destruct (Hi _ d Hd) as (Hv' & _). congruence.
Qed.

Lemma alloc_then_set_inv s frame s1 f pageNum p l :
  inv None s -> alloc_ok s frame s1 ->
  hashTable s !! (Some f, pageNum) = None ->
  exists d p0,
    bufDescTable s1 !! N.to_nat frame = Some d /\
    bufPool s1 !! N.to_nat frame = Some p0 /\
    inv None
      (set_bufDescTable
         (<[N.to_nat frame := BufDesc_Set (Some f) pageNum d]> (bufDescTable s1))
         (set_hashTable (<[(Some f, pageNum) := frame]> (hashTable s1))
            (set_bufPool (<[N.to_nat frame := p]> (bufPool s1))
               (set_fileCalls l s1)))).
Proof.
  intros Hinv Hok Hk. pose proof (inv_alloc_ok _ _ _ Hinv Hok) as Hinv1.
  destruct Hok as [Hw1 Hn Hp Hh Hc (d0 & d' & Hd0 & Hd' & Hvic & Hht & _)].
  assert (is_Some (bufPool s1 !! N.to_nat frame)) as [p0 Hp0].
  { apply lookup_lt_is_Some. rewrite (wf_pool s1 Hw1), <- (wf_table s1 Hw1).
    by eapply lookup_lt_Some. }
  exists d', p0. split; [done|]. split; [done|].
  apply (inv_fill_hole (set_bufPool _ (set_fileCalls l s1)) frame d' f pageNum).
  - apply inv_set_bufPool; [by apply inv_set_fileCalls|].
    simpl. by rewrite length_insert.
  - done.
  - simpl. rewrite Hht. destruct (valid d0); [|done].
    by apply lookup_delete_None; right.
Qed.

Lemma alloc_raised_inv s s1 :
  inv None s -> wf s1 -> alloc_raised s s1 -> inv None s1.
Proof.
  intros Hinv Hw1 Hr. assert (numBufs s1 = numBufs s) as Hn by (by rewrite Hr).
  rewrite Hr. apply inv_sweep; [done|]. rewrite <- Hn. apply (wf_hand s1 Hw1).
Qed.

Lemma readPage_inv f pageNum s :
  inv None s -> inv None (readPage (Some f) pageNum s).2.
Proof.
  intros Hinv. destruct (hashTable s !! (Some f, pageNum)) as [fr|] eqn:Hk.
  - destruct (inv_entry _ _ Hinv _ _ Hk) as (_ & d & Hd & Hv & _).
    rewrite (readPage_hit _ _ _ _ _ Hk Hd). simpl.
    apply (inv_update_frame _ _ _ d); try done.
    pose proof (inv_desc _ _ Hinv _ _ Hd) as Hok. unfold desc_ok in *.
    simpl. by rewrite Hv in *.
  - pose proof (allocBuf_spec s (inv_wf _ _ Hinv) (inv_files_ok _ _ Hinv)) as Ha.
    destruct (allocBuf s) as [[fr|e| |] s1] eqn:Hs; simpl in Ha; try done.
    + destruct (alloc_then_set_inv s fr s1 f pageNum
                  (file_readPage (fileCalls s1) f pageNum)
                  (fileCalls s1 ++ [CallRead f pageNum]) Hinv Ha Hk)
        as (d & p0 & Hd & Hp0 & Hfin).
      by rewrite (readPage_miss_ok _ _ _ _ _ _ _ Hk Hs Hd Hp0).
    + destruct Ha as (-> & Hw1 & Hr).
      rewrite (readPage_miss_raise _ _ _ _ _ Hk Hs). simpl.
      by eapply alloc_raised_inv.
Qed.

Lemma allocPage_inv f s :
  inv None s -> new_page_fresh (OpAllocPage f) s ->
  inv None (allocPage (Some f) s).2.
Proof.
  intros Hinv Hfresh. simpl in Hfresh.
  set (s0 := set_fileCalls (fileCalls s ++ [CallAllocate f]) s).
  assert (inv None s0) as Hinv0 by (by apply inv_set_fileCalls).
  pose proof (allocBuf_spec s0 (inv_wf _ _ Hinv0) (inv_files_ok _ _ Hinv0)) as Ha.
  destruct (allocBuf s0) as [[fr|e| |] s1] eqn:Hs; simpl in Ha; try done.
  - destruct (alloc_then_set_inv s0 fr s1 f _
                (file_allocatePage (fileCalls s) f) (fileCalls s1) Hinv0 Ha Hfresh)
      as (d & p0 & Hd & Hp0 & Hfin).
    rewrite (allocPage_ok _ _ _ _ _ _ Hs Hd Hp0). simpl.
    by destruct s1.
  - destruct Ha as (-> & Hw1 & Hr).
    rewrite (allocPage_raise _ _ _ _ Hs). simpl.
    by eapply alloc_raised_inv.
Qed.

Lemma unPinPage_inv filePtr pageNum isDirty s :
  inv None s -> inv None (unPinPage filePtr pageNum isDirty s).2.
Proof.
  intros Hinv. destruct (hashTable s !! (filePtr, pageNum)) as [fr|] eqn:Hk.
  2:{ by rewrite (unPinPage_absent _ _ _ _ Hk). }
  destruct (inv_entry _ _ Hinv _ _ Hk) as (_ & d & Hd & Hv & _).
  pose proof (inv_desc _ _ Hinv _ _ Hd) as Hok. unfold desc_ok in Hok.
  rewrite Hv in Hok.
  destruct (N.eq_dec (pinCnt d) 0) as [Hp|Hp].
  - by rewrite (unPinPage_unpinned _ _ _ _ _ _ Hk Hd Hp Hok).
  - rewrite (unPinPage_pinned _ _ _ _ _ _ Hk Hd) by lia. simpl.
    apply (inv_update_frame _ _ _ d); try done.
    unfold desc_ok. simpl. by rewrite Hv.
Qed.

Lemma flushFile_inv filePtr s :
  inv None s -> inv None (flushFile filePtr s).2.
Proof.
  intros Hinv. unfold flushFile. mred. by apply flushFile_loop_inv.
Qed.

Lemma disposePage_inv f pageNum s :
  inv None s -> inv None (disposePage (Some f) pageNum s).2.
Proof.
  intros Hinv. destruct (hashTable s !! (Some f, pageNum)) as [fr|] eqn:Hk.
  - destruct (inv_entry _ _ Hinv _ _ Hk) as (_ & d & Hd & Hv & _).
    rewrite (disposePage_resident _ _ _ _ _ Hk Hd). simpl.
    by apply inv_set_fileCalls, inv_clear_frame.
  - rewrite (disposePage_absent _ _ _ Hk). by apply inv_set_fileCalls.
Qed.

Lemma exec_inv o s : inv None s -> new_page_fresh o s -> inv None (exec o s).
Proof.
  intros Hinv Hfresh. destruct o; simpl.
  - by apply readPage_inv.
  - by apply allocPage_inv.
  - by apply unPinPage_inv.
  - by apply flushFile_inv.
  - by apply disposePage_inv.
Qed.

Lemma reachable_inv s : reachable s -> inv None s.
Proof.
  induction 1 as [bufs Hb|o s _ IH Hfresh].
  - by apply BufMgr_new_inv.
  - by apply exec_inv.
Qed.

(** *** A pool whose frames are all pinned *)

Lemma allocBuf_all_pinned s :
  manager_inv s -> all_pinned s ->
  exists c,
    allocBuf s =
      (Raise BufferExceeded,
       set_clockHand c
         (set_bufDescTable (set_refbit false <$> bufDescTable s) s)).
Proof.
  intros Hinv Hpin.
  pose proof (allocBuf_spec s (inv_wf _ _ Hinv) (inv_files_ok _ _ Hinv)) as Ha.
  destruct (allocBuf s) as [[fr|e| |] s1] eqn:Hs; simpl in Ha; try done.
  - destruct Ha as [_ _ _ _ _ (d0 & d' & Hd0 & _ & Hvic & _)].
    pose proof (Hpin _ _ Hd0) as Hp.
    pose proof (inv_desc _ _ Hinv _ _ Hd0) as Hok. unfold desc_ok in Hok.
    destruct (valid d0); [destruct Hvic as [? _]; [done|lia] | lia].
  - destruct Ha as (-> & _ & Hr). exists (clockHand s1). by rewrite <- Hr.
Qed.

(** *** [flushFile] up to a pinned frame *)

Lemma flush_writes_flush_frame f fi d s n start :
  (N.to_nat fi < start)%nat ->
  flush_writes f (flush_frame fi d s) (seq start n)
  = flush_writes f s (seq start n).
Proof.
  revert start. induction n as [|n IH]; intros start Hlt; [done|].
  unfold flush_writes in *. simpl.
  rewrite list_lookup_insert_ne by lia. f_equal. apply IH. lia.
Qed.

Lemma inv_owned_valid s i d f :
  manager_inv s -> bufDescTable s !! i = Some d -> file d = Some f ->
  valid d = true.
Proof.
  intros Hinv Hd Hf. pose proof (inv_desc _ _ Hinv _ _ Hd) as Hok.
  unfold desc_ok in Hok. destruct (valid d); [done|].
  destruct Hok as [Hn _]. congruence.
Qed.

Lemma flushFile_loop_pinned f i di fuel :
  forall fi s,
  manager_inv s -> fi <= i -> (N.to_nat (i - fi) < fuel)%nat ->
  bufDescTable s !! N.to_nat i = Some di -> file di = Some f ->
  0 < pinCnt di ->
  (forall j dj, fi <= j < i -> bufDescTable s !! N.to_nat j = Some dj ->
     file dj = Some f -> pinCnt dj = 0) ->
  exists s',
    flushFile_loop fuel (Some f) fi s = (Raise PagePinned, s') /\
    (forall j, j < fi \/ i <= j ->
       bufDescTable s' !! N.to_nat j = bufDescTable s !! N.to_nat j) /\
    (forall j dj, fi <= j < i -> bufDescTable s !! N.to_nat j = Some dj ->
       bufDescTable s' !! N.to_nat j
       = Some (if decide (file dj = Some f) then BufDesc_Clear dj else dj)) /\
    (forall k fr, hashTable s' !! k = Some fr <->
       hashTable s !! k = Some fr /\ ~ (k.1 = Some f /\ fi <= fr < i)) /\
    bufPool s' = bufPool s /\ clockHand s' = clockHand s /\
    numBufs s' = numBufs s /\
    fileCalls s' =
      fileCalls s ++ flush_writes f s (seq (N.to_nat fi) (N.to_nat (i - fi))).
Proof.
  induction fuel as [|fuel IH]; intros fi s Hinv Hle Hfuel Hi Hfi Hpi Hun; [lia|].
  pose proof (inv_wf _ _ Hinv) as Hwf.
  pose proof (lookup_frame_lt _ _ _ Hwf Hi) as Hilt.
  pose proof (wf_numBufs s Hwf) as Hnb.
  simpl. mred. rewrite (proj2 (N.ltb_lt fi (numBufs s))) by lia.
  destruct (N.eq_dec fi i) as [->|Hne].
  { (* the pinned frame *)
    rewrite (flushFile_body_pinned f i s di Hi Hfi
               (inv_owned_valid _ _ _ _ Hinv Hi Hfi) Hpi).
    exists s. split; [done|]. split; [done|]. split; [intros; lia|].
    split; [intros k fr; split; [intros ?; split; [done|lia]|by intros [? _]]|].
    replace (i - i) with 0 by lia. simpl. by rewrite app_nil_r. }
  assert (is_Some (bufDescTable s !! N.to_nat fi)) as [d Hd].
  { apply lookup_lt_is_Some. rewrite (wf_table s Hwf). lia. }
  assert (is_Some (bufPool s !! N.to_nat fi)) as [p Hp].
  { apply lookup_lt_is_Some. rewrite (wf_pool s Hwf). lia. }
  rewrite (wrap32_small (fi + 1)) by lia.
  assert (N.to_nat (i - fi) = S (N.to_nat (i - (fi + 1)))) as En by lia.
  assert (N.to_nat (fi + 1) = S (N.to_nat fi)) as Ef by lia.
  destruct (decide (file d = Some f)) as [Hf|Hf].
  - (* a frame of the file: flushed *)
    pose proof (inv_owned_valid _ _ _ _ Hinv Hd Hf) as Hv.
    pose proof (Hun fi d ltac:(lia) Hd Hf) as Hp0.
    pose proof (inv_valid _ _ Hinv fi d Hd Hv ltac:(done)) as Hk.
    rewrite Hf in Hk.
    rewrite (flushFile_body_flush f fi s d p fi Hd Hf Hv Hp0 Hp Hk).
    destruct (IH (fi + 1) (flush_frame fi d s)) as
      (s' & Hrun & HA & HB & HC & HP & HH & HN & HW); try done; try lia.
    + by apply inv_flush_frame.
    + simpl. by rewrite list_lookup_insert_ne by lia.
    + intros j dj Hj Hdj. simpl in Hdj.
      rewrite list_lookup_insert_ne in Hdj by lia. apply (Hun j dj); [lia|done].
    + exists s'. split; [done|]. simpl in *.
      split; [|split; [|split; [|split; [done|split; [done|split; [done|]]]]]].
      * intros j Hj. rewrite HA by lia. by rewrite list_lookup_insert_ne by lia.
      * intros j dj Hj Hdj. destruct (N.eq_dec j fi) as [->|Hjne].
        -- rewrite HA by lia. simplify_eq.
           rewrite list_lookup_insert_eq by (by eapply lookup_lt_Some).
           by destruct (decide (file d = Some f)).
        -- apply HB; [lia|]. by rewrite list_lookup_insert_ne by lia.
      * intros k fr. rewrite HC, Hf. split.
        -- intros [Hdel Hno]. apply lookup_delete_Some in Hdel as [Hkne Hkfr].
           split; [done|]. intros [Hk1 Hfr].
           destruct (N.eq_dec fr fi) as [->|Hfrne]; [|apply Hno; split; [done|lia]].
           destruct (inv_entry _ _ Hinv _ _ Hkfr) as (_ & d1 & Hd1 & _ & ->).
           simplify_eq. by rewrite Hf in Hkne.
        -- intros [Hkfr Hno]. split.
           ++ apply lookup_delete_Some. split; [|done]. intros <-.
              simplify_eq. apply Hno. simpl. split; [done|lia].
           ++ intros [Hk1 Hfr]. apply Hno. split; [done|lia].
      * rewrite HW, En, Ef, flush_writes_flush_frame by lia.
        rewrite <- app_assoc. f_equal. unfold flush_writes. simpl.
        rewrite Hd. by destruct (decide (file d = Some f)).
  - (* a frame of another file, or an empty one *)
    rewrite (flushFile_body_other (Some f) fi s d Hd Hf).
    destruct (IH (fi + 1) s) as
      (s' & Hrun & HA & HB & HC & HP & HH & HN & HW); try done; try lia.
    + intros j dj Hj Hdj. apply (Hun j dj); [lia|done].
    + exists s'. split; [done|].
      split; [|split; [|split; [|split; [done|split; [done|split; [done|]]]]]].
      * intros j Hj. apply HA. lia.
      * intros j dj Hj Hdj. destruct (N.eq_dec j fi) as [->|Hjne].
        -- rewrite HA by lia. simplify_eq.
           by destruct (decide (file d = Some f)).
        -- apply HB; [lia|done].
      * intros k fr. rewrite HC. split.
        -- intros [Hkfr Hno]. split; [done|]. intros [Hk1 Hfr].
           destruct (N.eq_dec fr fi) as [->|Hfrne]; [|apply Hno; split; [done|lia]].
           destruct (inv_entry _ _ Hinv _ _ Hkfr) as (_ & d1 & Hd1 & _ & ->).
           by simplify_eq.
        -- intros [Hkfr Hno]. split; [done|].
           intros [Hk1 Hfr]. apply Hno. split; [done|lia].
      * rewrite HW, En, Ef. f_equal. unfold flush_writes. simpl.
        rewrite Hd. by destruct (decide (file d = Some f)).
Qed.

Lemma pinned_by_dec f s j : pinned_by f s j \/ ~ pinned_by f s j.
Proof.
  unfold pinned_by. destruct (bufDescTable s !! j) as [d|]; [|right; by intros (? & ? & _)].
  destruct (decide (file d = Some f)) as [Hf|Hf];
    [|right; intros (? & ? & ? & _); by simplify_eq].
  destruct (N.ltb_spec 0 (pinCnt d)) as [Hp|Hp]; [left; eauto|].
  right. intros (? & ? & ? & ?). simplify_eq. lia.
Qed.

Lemma first_pinned_by f s n :
  pinned_by f s n ->
  exists m, (m <= n)%nat /\ pinned_by f s m /\
            forall j, (j < m)%nat -> ~ pinned_by f s j.
Proof.
  induction (lt_wf n) as [n _ IH]. intros Hn.
  assert ((exists j, (j < n)%nat /\ pinned_by f s j) \/
          (forall j, (j < n)%nat -> ~ pinned_by f s j)) as [(j & Hj & HP)|Hnone].
  { clear IH Hn. induction n as [|n [(j & Hj & HP)|Hnone]].
    - right. intros; lia.
    - left. exists j. split; [lia|done].
    - destruct (pinned_by_dec f s n) as [HP|HP].
      + left. exists n. split; [lia|done].
      + right. intros j Hj. destruct (decide (j = n)) as [->|]; [done|].
        apply Hnone. lia. }
  - destruct (IH j Hj HP) as (m & Hm & HPm & Hfirst).
    exists m. split; [lia|done].
  - exists n. split; [lia|done].
Qed.

(** *** Runs *)

Lemma reachable_exec_all ops s :
  reachable s -> fresh_all ops s -> reachable (exec_all ops s).
Proof.
  revert s. induction ops as [|o ops IH]; intros s Hs Hf; [done|].
  destruct Hf as [Ho Hf]. simpl. apply IH; [by apply reach_op|done].
Qed.

Lemma all_pinned_forallb s :
  forallb (fun d => 0 <? pinCnt d) (bufDescTable s) = true -> all_pinned s.
Proof.
  intros H i d Hd. rewrite forallb_forall in H.
  apply N.ltb_lt, H, list_elem_of_In, list_elem_of_lookup. eauto.
Qed.

Lemma all_evictable_forallb s :
  forallb (fun d => valid d && (pinCnt d =? 0) && negb (refbit d))
    (bufDescTable s) = true ->
  all_evictable s.
Proof.
  intros H i d Hd. rewrite forallb_forall in H.
  assert (In d (bufDescTable s)) as Hin
    by (apply list_elem_of_In, list_elem_of_lookup; eauto).
  apply H in Hin. apply andb_prop in Hin as [Hin Hr].
  apply andb_prop in Hin as [Hv Hp]. apply N.eqb_eq in Hp.
  by destruct (refbit d).
Qed.

(** ** The properties of the specification *)

(** C3 (amended).  When some frame owned by the file is pinned, [flushFile]
    throws [PagePinned] at the first such frame in frame order (the scan
    stops at the first violation).  That frame and all frames after it are
    unchanged, and so are the frames of other files: descriptors, index
    entries and contents stay, nothing of them is written back.  The frames
    of the file before it have already been dealt with: written back if
    dirty, taken out of the index and cleared. *)
Theorem flushFile_pinned_partial s f i0 d0 :
  manager_inv s ->
  bufDescTable s !! N.to_nat i0 = Some d0 -> file d0 = Some f ->
  0 < pinCnt d0 ->
  exists i s',
    i <= i0 /\ pinned_by f s (N.to_nat i) /\
    (forall j, j < i -> ~ pinned_by f s (N.to_nat j)) /\
    flushFile (Some f) s = (Raise PagePinned, s') /\
    (forall j, i <= j ->
       bufDescTable s' !! N.to_nat j = bufDescTable s !! N.to_nat j) /\
    (forall j dj, j < i -> bufDescTable s !! N.to_nat j = Some dj ->
       bufDescTable s' !! N.to_nat j
       = Some (if decide (file dj = Some f) then BufDesc_Clear dj else dj)) /\
    (forall k fr, hashTable s' !! k = Some fr <->
       hashTable s !! k = Some fr /\ ~ (k.1 = Some f /\ fr < i)) /\
    bufPool s' = bufPool s /\
    fileCalls s' = fileCalls s ++ flush_writes f s (seq 0 (N.to_nat i)).
Proof.
  intros Hinv Hd0 Hf0 Hp0.
  destruct (first_pinned_by f s (N.to_nat i0)) as (m & Hm & HPm & Hfirst);
    [by exists d0|].
  destruct HPm as (di & Hdi & Hfi & Hpi).
  pose proof (inv_wf _ _ Hinv) as Hwf.
  assert (m = N.to_nat (N.of_nat m)) as Em by lia.
  rewrite Em in Hdi.
  pose proof (lookup_frame_lt _ _ _ Hwf Hdi) as Hlt.
  destruct (flushFile_loop_pinned f (N.of_nat m) di (S (N.to_nat (numBufs s)))
              0 s Hinv) as (s' & Hrun & HA & HB & HC & HP & _ & _ & HW);
    try done; try lia.
  { intros j dj Hj Hdj Hfj.
    destruct (N.eq_dec (pinCnt dj) 0) as [|Hne]; [done|].
    exfalso. apply (Hfirst (N.to_nat j)); [lia|]. exists dj.
    split; [done|]. split; [done|lia]. }
  exists (N.of_nat m), s'. split; [lia|].
  split; [by exists di|].
  split; [intros j Hj; apply Hfirst; lia|].
  split; [unfold flushFile; mred; exact Hrun|].
  split; [intros j Hj; apply HA; lia|].
  split; [intros j dj Hj; apply HB; lia|].
  split.
  { intros k fr. rewrite HC. split; intros [? Hno]; (split; [done|]);
      intros [? ?]; apply Hno; (split; [done|lia]). }
  split; [done|]. rewrite HW. do 3 f_equal. lia.
Qed.

(** C4 (amended).  When every frame of the pool is pinned, an allocation
    request ([allocBuf] itself, a [readPage] miss, [allocPage]) throws
    [BufferExceeded].  It leaves the index, the pool and, in every frame
    descriptor, [valid], [dirty], [pinCnt], [file] and [pageNo] as they were;
    the reference bit of every frame is cleared, as the sweep that finds all
    frames pinned has used up their second chance. *)
Theorem allocBuf_exhausted s :
  manager_inv s -> all_pinned s ->
  exists s',
    allocBuf s = (Raise BufferExceeded, s') /\
    bufDescTable s' = set_refbit false <$> bufDescTable s /\
    hashTable s' = hashTable s /\
    bufPool s' = bufPool s /\
    fileCalls s' = fileCalls s /\
    numBufs s' = numBufs s /\
    (forall f pageNum, hashTable s !! (Some f, pageNum) = None ->
       readPage (Some f) pageNum s = (Raise BufferExceeded, s')) /\
    (forall f, exists s'',
       allocPage (Some f) s = (Raise BufferExceeded, s'') /\
       bufDescTable s'' = set_refbit false <$> bufDescTable s /\
       hashTable s'' = hashTable s /\
       bufPool s'' = bufPool s).
Proof.
  intros Hinv Hpin. destruct (allocBuf_all_pinned s Hinv Hpin) as [c Hc].
  eexists. split; [exact Hc|]. simpl. repeat split; try done.
  - intros f pageNum Hk. by apply readPage_miss_raise.
  - intros f.
    destruct (allocBuf_all_pinned
                (set_fileCalls (fileCalls s ++ [CallAllocate f]) s)) as [c' Hc'];
      [by apply inv_set_fileCalls|done|].
    eexists. split; [by apply allocPage_raise|]. done.
Qed.

(** C9.  [allocPage] asks the File collaborator for a new page before it
    asks for a frame: when every frame is pinned it throws [BufferExceeded]
    with the call [allocatePage] made; the new page is not put in the index
    or in the pool, and nothing is returned. *)
Theorem allocPage_exhausted s f :
  manager_inv s -> all_pinned s ->
  exists s',
    allocPage (Some f) s = (Raise BufferExceeded, s') /\
    fileCalls s' = fileCalls s ++ [CallAllocate f] /\
    hashTable s' = hashTable s /\
    bufPool s' = bufPool s.
Proof.
  intros Hinv Hpin.
  destruct (allocBuf_all_pinned
              (set_fileCalls (fileCalls s ++ [CallAllocate f]) s)) as [c Hc];
    [by apply inv_set_fileCalls|done|].
  eexists. split; [by apply allocPage_raise|]. done.
Qed.

(** C5.  In a pool whose frames are all valid, unpinned and with
    [refbit = false], [allocBuf] returns the frame right after the hand,
    [(clockHand + 1) mod numBufs]; if that frame is dirty its contents are
    handed to [writePage] of its file and its dirty flag is cleared; its
    index entry is removed.  A [readPage] miss in such a pool gets this
    frame, and the write-back comes before the read that fills the frame. *)
Theorem allocBuf_evicts_next s :
  manager_inv s -> all_evictable s ->
  exists d p f s',
    bufDescTable s !! N.to_nat (next_hand s) = Some d /\
    bufPool s !! N.to_nat (next_hand s) = Some p /\
    file d = Some f /\
    allocBuf s = (Ok (next_hand s), s') /\
    fileCalls s' = fileCalls s ++ (if dirty d then [CallWrite f p] else []) /\
    bufDescTable s' =
      <[N.to_nat (next_hand s) := set_dirty false d]> (bufDescTable s) /\
    hashTable s' = delete (Some f, pageNo d) (hashTable s) /\
    bufPool s' = bufPool s /\
    (forall g pageNum, hashTable s !! (Some g, pageNum) = None ->
       exists s2,
         readPage (Some g) pageNum s = (Ok (next_hand s), s2) /\
         fileCalls s2 =
           fileCalls s ++ (if dirty d then [CallWrite f p] else [])
                       ++ [CallRead g pageNum] /\
         bufDescTable s2 !! N.to_nat (next_hand s)
           = Some (BufDesc_Set (Some g) pageNum d) /\
         hashTable s2 =
           <[(Some g, pageNum) := next_hand s]>
             (delete (Some f, pageNo d) (hashTable s))).
Proof.
  intros Hinv Hall. pose proof (inv_wf _ _ Hinv) as Hwf.
  destruct (lookup_next_hand s Hwf) as [d Hd].
  destruct (Hall _ _ Hd) as (Hv & Hp & Hr).
  destruct (inv_files_ok _ _ Hinv _ _ Hd Hv) as [f Hf].
  pose proof (next_hand_lt s Hwf) as Hlt.
  pose proof (lookup_lt_Some _ _ _ Hd) as Hlt'.
  assert (is_Some (bufPool s !! N.to_nat (next_hand s))) as [p Hpo].
  { apply lookup_lt_is_Some. rewrite (wf_pool s Hwf). lia. }
  assert (exists s',
    allocBuf s = (Ok (next_hand s), s') /\
    clockHand s' = next_hand s /\ numBufs s' = numBufs s /\
    fileCalls s' = fileCalls s ++ (if dirty d then [CallWrite f p] else []) /\
    bufDescTable s' =
      <[N.to_nat (next_hand s) := set_dirty false d]> (bufDescTable s) /\
    hashTable s' = delete (Some f, pageNo d) (hashTable s) /\
    bufPool s' = bufPool s) as (s' & Ha & Hh' & Hn' & Hc' & Ht' & Hk' & Hp').
  { unfold allocBuf. mred.
    destruct (N.to_nat (2 * numBufs s)) as [|fuel] eqn:E;
      [pose proof (wf_numBufs s Hwf); lia|].
    simpl. mred. destruct (dirty d) eqn:Hdi.
    - rewrite (allocBuf_body_victim_dirty 0 s d Hwf Hd f p Hv Hr Hp Hdi Hf Hpo).
      eexists. split; [reflexivity|]. simpl. by rewrite Hf.
    - rewrite (allocBuf_body_victim_clean 0 s d Hwf Hd Hv Hr Hp Hdi).
      eexists. split; [reflexivity|]. simpl. rewrite Hf, app_nil_r.
      repeat split; try done. symmetry. apply list_insert_id.
      rewrite Hd. f_equal. destruct d; simpl in *; by subst. }
  exists d, p, f, s'. repeat split; try done.
  intros g pageNum Hk.
  assert (bufDescTable s' !! N.to_nat (next_hand s) = Some (set_dirty false d))
    as Hd'.
  { rewrite Ht'. by apply list_lookup_insert_eq. }
  assert (bufPool s' !! N.to_nat (next_hand s) = Some p) as Hpo'
    by (by rewrite Hp').
  eexists. split; [by apply (readPage_miss_ok _ _ _ _ _ _ _ Hk Ha Hd' Hpo')|].
  simpl. rewrite Hc', Hk', <- app_assoc. repeat split; try done.
  apply list_lookup_insert_eq. by rewrite Ht', length_insert.
Qed.

(** C6.  [unPinPage(file, pageNo, isDirty)] by cases: a page that is not
    in the index leaves the state as it is and nothing is thrown; a resident
    page with [pinCnt > 0] gets [pinCnt] lowered by one and [dirty] or-ed
    with [isDirty], so that [isDirty = false] keeps a dirty flag that is set;
    a resident page with [pinCnt = 0] throws [PageNotPinned] and the count
    stays at zero. *)
Theorem unPinPage_cases s filePtr pageNum isDirty :
  manager_inv s ->
  match hashTable s !! (filePtr, pageNum) with
  | None => unPinPage filePtr pageNum isDirty s = (Ok tt, s)
  | Some frame =>
      exists d, bufDescTable s !! N.to_nat frame = Some d /\
        if 0 <? pinCnt d then
          exists d',
            unPinPage filePtr pageNum isDirty s =
              (Ok tt,
               set_bufDescTable (<[N.to_nat frame := d']> (bufDescTable s)) s) /\
            pinCnt d' + 1 = pinCnt d /\
            dirty d' = dirty d || isDirty /\
            (isDirty = false -> dirty d' = dirty d) /\
            file d' = file d /\ pageNo d' = pageNo d /\
            frameNo d' = frameNo d /\ valid d' = valid d /\
            refbit d' = refbit d
        else
          unPinPage filePtr pageNum isDirty s = (Raise PageNotPinned, s)
  end.
Proof.
  intros Hinv. destruct (hashTable s !! (filePtr, pageNum)) as [fr|] eqn:Hk.
  2:{ by apply unPinPage_absent. }
  destruct (inv_entry _ _ Hinv _ _ Hk) as (_ & d & Hd & Hv & _).
  exists d. split; [done|].
  destruct (N.ltb_spec 0 (pinCnt d)) as [Hp|Hp].
  - eexists. split; [by apply unPinPage_pinned|]. simpl.
    repeat split; try done; [lia|]. intros ->. apply orb_false_r.
  - apply (unPinPage_unpinned _ _ _ _ _ _ Hk Hd); [lia|].
    pose proof (inv_desc _ _ Hinv _ _ Hd) as Hok. unfold desc_ok in Hok.
    by rewrite Hv in Hok.
Qed.

(** C7.  When [readPage] of (file, pageNo) returns, a second [readPage] of
    the same page, with no unpin in between, is an index hit that returns the
    same frame; each of the two calls raises the [pinCnt] of that frame by
    one, and the second leaves its [refbit] set. *)
Theorem readPage_twice s f pageNum frame s1 :
  manager_inv s ->
  readPage (Some f) pageNum s = (Ok frame, s1) ->
  exists d0 d1 d2 s2,
    bufDescTable s !! N.to_nat frame = Some d0 /\
    bufDescTable s1 !! N.to_nat frame = Some d1 /\
    hashTable s1 !! (Some f, pageNum) = Some frame /\
    readPage (Some f) pageNum s1 = (Ok frame, s2) /\
    bufDescTable s2 !! N.to_nat frame = Some d2 /\
    pinCnt d1 = pinCnt d0 + 1 /\
    pinCnt d2 = pinCnt d1 + 1 /\
    refbit d2 = true.
Proof.
  intros Hinv Hr.
  assert (exists d0 d1,
    bufDescTable s !! N.to_nat frame = Some d0 /\
    bufDescTable s1 !! N.to_nat frame = Some d1 /\
    hashTable s1 !! (Some f, pageNum) = Some frame /\
    pinCnt d1 = pinCnt d0 + 1) as (d0 & d1 & Hd0 & Hd1 & Hk1 & Hp1).
  { destruct (hashTable s !! (Some f, pageNum)) as [fr|] eqn:Hk.
    - destruct (inv_entry _ _ Hinv _ _ Hk) as (_ & d & Hd & Hv & _).
      rewrite (readPage_hit _ _ _ _ _ Hk Hd) in Hr. simplify_eq. simpl.
      exists d. eexists. split; [done|].
      split; [apply list_lookup_insert_eq; by eapply lookup_lt_Some|]. done.
    - pose proof (allocBuf_spec s (inv_wf _ _ Hinv) (inv_files_ok _ _ Hinv)) as Ha.
      destruct (allocBuf s) as [[fr|e| |] sa] eqn:Hs; simpl in Ha; try done.
      2:{ rewrite (readPage_miss_raise _ _ _ _ _ Hk Hs) in Hr. done. }
      destruct (alloc_then_set_inv s fr sa f pageNum
                  (file_readPage (fileCalls sa) f pageNum)
                  (fileCalls sa ++ [CallRead f pageNum]) Hinv Ha Hk)
        as (d & p0 & Hd & Hp0 & _).
      rewrite (readPage_miss_ok _ _ _ _ _ _ _ Hk Hs Hd Hp0) in Hr.
      simplify_eq. simpl.
      destruct Ha as [_ _ _ _ _ (d0 & d' & Hd0 & _ & Hvic & _)].
      exists d0. eexists. split; [done|].
      split; [apply list_lookup_insert_eq; by eapply lookup_lt_Some|].
      split; [by rewrite lookup_insert_eq|]. simpl.
      pose proof (inv_desc _ _ Hinv _ _ Hd0) as Hok. unfold desc_ok in Hok.
      destruct (valid d0); [destruct Hvic as [-> _]; done | by destruct Hok as [_ ->]]. }
  exists d0, d1. eexists. eexists. split; [done|]. split; [done|].
  split; [done|]. split; [by apply (readPage_hit _ _ _ _ _ Hk1 Hd1)|]. simpl.
  split; [apply list_lookup_insert_eq; by eapply lookup_lt_Some|]. done.
Qed.

(** C8.  [disposePage] does not look at the pin count: for every resident
    page, pinned or not, it removes the index entry, clears the frame
    descriptor and calls [deletePage] of the file, and returns without an
    error; a frame that is still pinned is reclaimed all the same. *)
Theorem disposePage_ignores_pins s f pageNum frame d :
  hashTable s !! (Some f, pageNum) = Some frame ->
  bufDescTable s !! N.to_nat frame = Some d ->
  exists s',
    disposePage (Some f) pageNum s = (Ok tt, s') /\
    hashTable s' = delete (Some f, pageNum) (hashTable s) /\
    bufDescTable s' = <[N.to_nat frame := BufDesc_Clear d]> (bufDescTable s) /\
    bufDescTable s' !! N.to_nat frame = Some (BufDesc_Clear d) /\
    pinCnt (BufDesc_Clear d) = 0 /\ valid (BufDesc_Clear d) = false /\
    fileCalls s' = fileCalls s ++ [CallDelete f pageNum].
Proof.
  intros Hk Hd. eexists. split; [by apply disposePage_resident|]. simpl.
  repeat split; try done.
  apply list_lookup_insert_eq. by eapply lookup_lt_Some.
Qed.

(** C10.  [disposePage] never calls [writePage]: for every resident page,
    dirty or not, the one call it makes on the File collaborator is
    [deletePage], and the in-memory contents are dropped; the pool, the hand,
    the other frames and the other index entries are as before. *)
Theorem disposePage_no_writeback s f pageNum frame d :
  hashTable s !! (Some f, pageNum) = Some frame ->
  bufDescTable s !! N.to_nat frame = Some d ->
  exists s',
    disposePage (Some f) pageNum s = (Ok tt, s') /\
    fileCalls s' = fileCalls s ++ [CallDelete f pageNum] /\
    bufPool s' = bufPool s /\
    clockHand s' = clockHand s /\
    numBufs s' = numBufs s /\
    (forall i, i <> N.to_nat frame ->
       bufDescTable s' !! i = bufDescTable s !! i) /\
    (forall k, k <> (Some f, pageNum) ->
       hashTable s' !! k = hashTable s !! k).
Proof.
  intros Hk Hd. eexists. split; [by apply disposePage_resident|]. simpl.
  repeat split; try done.
  - intros i Hi. by apply list_lookup_insert_ne.
  - intros k Hne. by apply lookup_delete_ne.
Qed.

(** C2.  In every state of a manager that was built by its constructor and
    used through [readPage], [allocPage], [unPinPage], [flushFile] and
    [disposePage] (whether the calls returned or threw), a frame is valid if
    and only if the index has an entry for it, and that entry's
    (file, pageNo) is the frame's own. *)
Theorem reachable_index_consistent s : reachable s -> index_consistent s.
Proof. intros H. by apply inv_index_consistent, reachable_inv. Qed.

(** ** Further properties of the code *)

(** *** [allocBuf] *)

(** The passes of the loop of [allocBuf], side by side. *)
Lemma allocBuf_body_cases c s :
  wf s -> files_ok s ->
  exists d, bufDescTable s !! N.to_nat (next_hand s) = Some d /\
    ((valid d = false /\
      allocBuf_body c s
      = (Ok (Done (next_hand s)), set_clockHand (next_hand s) s)) \/
     (valid d = true /\ refbit d = true /\
      allocBuf_body c s
      = (Ok (Continue c),
         set_bufDescTable
           (<[N.to_nat (next_hand s) := set_refbit false d]> (bufDescTable s))
           (set_clockHand (next_hand s) s))) \/
     (valid d = true /\ refbit d = false /\ pinCnt d <> 0 /\
      allocBuf_body c s
      = if wrap32 (c + 1) =? numBufs s
        then (Raise BufferExceeded, set_clockHand (next_hand s) s)
        else (Ok (Continue (wrap32 (c + 1))), set_clockHand (next_hand s) s)) \/
     (valid d = true /\ refbit d = false /\ pinCnt d = 0 /\
      exists s',
        allocBuf_body c s = (Ok (Done (next_hand s)), s') /\
        forall i, i <> N.to_nat (next_hand s) ->
          bufDescTable s' !! i = bufDescTable s !! i)).
Proof.
  intros Hwf Hfiles. destruct (lookup_next_hand s Hwf) as [d Hd].
  exists d. split; [done|].
  destruct (valid d) eqn:Hv;
    [|left; split; [done|]; by apply (allocBuf_body_invalid c s d)].
  destruct (refbit d) eqn:Hr;
    [right; left; split; [done|]; split; [done|];
     by apply (allocBuf_body_refbit c s d)|].
  destruct (N.eq_dec (pinCnt d) 0) as [Hp|Hp];
    [|right; right; left; repeat split; try done;
      by apply (allocBuf_body_pinned c s d)].
  right. right. right. repeat split; try done.
  destruct (dirty d) eqn:Hdi.
  - destruct (Hfiles _ _ Hd Hv) as [f Hf].
    assert (is_Some (bufPool s !! N.to_nat (next_hand s))) as [p Hpo].
    { apply lookup_lt_is_Some. rewrite (wf_pool s Hwf).
      pose proof (next_hand_lt s Hwf). lia. }
    eexists. split; [by apply (allocBuf_body_victim_dirty c s d Hwf Hd f p)|].
    intros i Hi. simpl. by rewrite list_lookup_insert_ne.
  - eexists. split; [by apply (allocBuf_body_victim_clean c s d)|]. done.
Qed.

Lemma sweeping_lookup s0 m c s i d :
  sweeping s0 m c s -> bufDescTable s !! i = Some d ->
  exists d0, bufDescTable s0 !! i = Some d0 /\
             set_refbit false d0 = set_refbit false d.
Proof. intros Hsw Hd. by eapply fmap_lookup_eq; [apply (sw_table _ _ _ _ Hsw)|]. Qed.

(** When the loop throws, the frame under the hand is pinned. *)
Lemma sweeping_step_raise s0 m c s :
  sweeping s0 m c s ->
  match allocBuf_body c s with
  | (Ok (Continue c'), s') => exists m', (m' < m)%nat /\ sweeping s0 m' c' s'
  | (Raise e, s') =>
      exists i d, bufDescTable s0 !! i = Some d /\ valid d = true /\
                  0 < pinCnt d
  | (Ok (Done _), _) => True
  | (Undefined, _) | (OutOfFuel, _) => False
  end.
Proof.
  intros Hsw. pose proof (sweeping_step s0 m c s Hsw) as H.
  destruct (allocBuf_body_cases c s (sw_wf _ _ _ _ Hsw) (sw_files _ _ _ _ Hsw))
    as (d & Hd & [(Hv & E)|[(Hv & Hr & E)|[(Hv & Hr & Hp & E)|(Hv & Hr & Hp & s' & E & _)]]]);
    rewrite E in *; try done.
  destruct (wrap32 (c + 1) =? numBufs s); [|done].
  destruct (sweeping_lookup _ _ _ _ _ _ Hsw Hd) as (d0 & Hd0 & Ed0).
  apply set_refbit_inj_fields in Ed0 as (_ & _ & Epc & _ & Ev).
  exists (N.to_nat (next_hand s)), d0. rewrite Ev, Epc. split; [done|].
  split; [done|lia].
Qed.

(** The frames [allocBuf] does not hand out keep all but the reference
    bit. *)
Lemma sweeping_step_others s0 m c s :
  sweeping s0 m c s ->
  match allocBuf_body c s with
  | (Ok (Continue c'), s') => exists m', (m' < m)%nat /\ sweeping s0 m' c' s'
  | (Ok (Done fr), s') =>
      forall i d', i <> N.to_nat fr -> bufDescTable s' !! i = Some d' ->
        exists d0, bufDescTable s0 !! i = Some d0 /\
                   set_refbit false d0 = set_refbit false d'
  | (Raise _, _) => True
  | (Undefined, _) | (OutOfFuel, _) => False
  end.
Proof.
  intros Hsw. pose proof (sweeping_step s0 m c s Hsw) as H.
  destruct (allocBuf_body_cases c s (sw_wf _ _ _ _ Hsw) (sw_files _ _ _ _ Hsw))
    as (d & Hd & [(Hv & E)|[(Hv & Hr & E)|[(Hv & Hr & Hp & E)|(Hv & Hr & Hp & s' & E & Hoth)]]]);
    rewrite E in *; try done.
  - intros i d' _ Hd'. simpl in Hd'. by eapply sweeping_lookup.
  - by destruct (wrap32 (c + 1) =? numBufs s).
  - intros i d' Hi Hd'. rewrite Hoth in Hd' by done. by eapply sweeping_lookup.
Qed.

Lemma sweeping_start s :
  wf s -> files_ok s ->
  sweeping s (N.to_nat (numBufs s + (numBufs s - 1 - 0))) 0 s.
Proof.
  intros Hwf Hfiles. pose proof (wf_numBufs s Hwf) as Hn.
  constructor; try done.
  exists (numBufs s). repeat split; try lia.
  intros fr d Hfr _. pose proof (lookup_frame_lt s fr d Hwf Hfr).
  pose proof (wf_hand s Hwf). unfold dist.
  destruct (N.ltb_spec (clockHand s) fr); lia.
Qed.

Lemma allocBuf_raise_pinned s e s' :
  wf s -> files_ok s -> allocBuf s = (Raise e, s') ->
  exists i d, bufDescTable s !! i = Some d /\ valid d = true /\ 0 < pinCnt d.
Proof.
  intros Hwf Hfiles Ha. pose proof (wf_numBufs s Hwf) as Hn.
  pose proof (allocBuf_loop_rule (sweeping s)
    (fun r _ => match r with
                | Raise _ => exists i d, bufDescTable s !! i = Some d /\
                                         valid d = true /\ 0 < pinCnt d
                | Ok _ => True
                | _ => False
                end)) as Hrule.
  unfold allocBuf in Ha. mred.
  specialize (Hrule (sweeping_step_raise s) (N.to_nat (2 * numBufs s))
                (N.to_nat (numBufs s + (numBufs s - 1 - 0))) 0 s ltac:(lia)
                (sweeping_start s Hwf Hfiles)).
  by rewrite Ha in Hrule.
Qed.

Lemma allocBuf_others_keep s frame s' :
  wf s -> files_ok s -> allocBuf s = (Ok frame, s') ->
  forall i d', i <> N.to_nat frame -> bufDescTable s' !! i = Some d' ->
    exists d0, bufDescTable s !! i = Some d0 /\
               set_refbit false d0 = set_refbit false d'.
Proof.
  intros Hwf Hfiles Ha. pose proof (wf_numBufs s Hwf) as Hn.
  pose proof (allocBuf_loop_rule (sweeping s)
    (fun r s' => match r with
                 | Ok fr =>
                     forall i d', i <> N.to_nat fr ->
                       bufDescTable s' !! i = Some d' ->
                       exists d0, bufDescTable s !! i = Some d0 /\
                                  set_refbit false d0 = set_refbit false d'
                 | Raise _ => True
                 | _ => False
                 end)) as Hrule.
  unfold allocBuf in Ha. mred.
  specialize (Hrule (sweeping_step_others s) (N.to_nat (2 * numBufs s))
                (N.to_nat (numBufs s + (numBufs s - 1 - 0))) 0 s ltac:(lia)
                (sweeping_start s Hwf Hfiles)).
  by rewrite Ha in Hrule.
Qed.

Lemma files_ok_clear_refbit s i d :
  files_ok s -> bufDescTable s !! i = Some d ->
  files_ok (set_bufDescTable (<[i := set_refbit false d]> (bufDescTable s))
              (set_clockHand (next_hand s) s)).
Proof.
  intros Hfiles Hd j d1 Hj Hv. simpl in Hj.
  destruct (decide (j = i)) as [->|Hne].
  - rewrite list_lookup_insert_eq in Hj by (by eapply lookup_lt_Some).
    simplify_eq/=. by eapply Hfiles.
  - rewrite list_lookup_insert_ne in Hj by done. by eapply Hfiles.
Qed.

Lemma reaching_step g dg m c s :
  free_frame dg -> reaching g dg m c s ->
  match allocBuf_body c s with
  | (Ok (Continue c'), s') => exists m', (m' < m)%nat /\ reaching g dg m' c' s'
  | (Ok (Done _), _) => True
  | _ => False
  end.
Proof.
  intros Hfree (Hwf & Hfiles & Hg & Hc & ->).
  pose proof (lookup_frame_lt _ _ _ Hwf Hg) as Hglt.
  pose proof (wf_numBufs s Hwf) as Hn.
  pose proof (next_hand_lt s Hwf) as Hnlt.
  pose proof (dist_next_hand s Hwf) as Hd0.
  destruct (allocBuf_body_cases c s Hwf Hfiles)
    as (d & Hd & [(Hv & E)|[(Hv & Hr & E)|[(Hv & Hr & Hp & E)|(Hv & Hr & Hp & s' & E & _)]]]);
    rewrite E; try done.
  - (* second chance: not the free frame *)
    assert (g <> next_hand s) as Hne.
    { intros ->. simplify_eq. destruct Hfree as [?|[_ ?]]; congruence. }
    pose proof (dist_step s g Hwf Hglt Hne) as Hstep.
    exists (N.to_nat (dist (numBufs s) (next_hand s) g)). split; [lia|].
    split; [|split; [|split; [|split]]]; simpl; try done.
    + apply wf_set_bufDescTable; [by apply wf_set_clockHand|].
      simpl. by rewrite length_insert.
    + by apply files_ok_clear_refbit.
    + rewrite list_lookup_insert_ne by lia. done.
    + lia.
  - (* pinned: not the free frame, and the count stays below [numBufs] *)
    assert (g <> next_hand s) as Hne.
    { intros ->. simplify_eq. destruct Hfree as [?|[? _]]; congruence. }
    pose proof (dist_step s g Hwf Hglt Hne) as Hstep.
    rewrite wrap32_small by lia.
    destruct (N.eqb_spec (c + 1) (numBufs s)) as [?|_]; [lia|].
    exists (N.to_nat (dist (numBufs s) (next_hand s) g)). split; [lia|].
    split; [by apply wf_set_clockHand|]. split; [done|]. split; [done|].
    simpl. split; [lia|done].
Qed.

Lemma allocBuf_free_frame s g dg :
  wf s -> files_ok s ->
  bufDescTable s !! N.to_nat g = Some dg -> free_frame dg ->
  exists frame s', allocBuf s = (Ok frame, s').
Proof.
  intros Hwf Hfiles Hg Hfree.
  pose proof (lookup_frame_lt _ _ _ Hwf Hg) as Hglt.
  pose proof (wf_hand s Hwf) as Hh.
  assert (dist (numBufs s) (clockHand s) g < numBufs s) as Hdist.
  { unfold dist. destruct (N.ltb_spec (clockHand s) g); lia. }
  pose proof (allocBuf_loop_rule (reaching g dg)
    (fun r _ => match r with Ok _ => True | _ => False end)) as Hrule.
  specialize (Hrule (fun m c s => reaching_step g dg m c s Hfree)
                (N.to_nat (2 * numBufs s))
                (N.to_nat (dist (numBufs s) (clockHand s) g)) 0 s).
  assert (reaching g dg (N.to_nat (dist (numBufs s) (clockHand s) g)) 0 s)
    as Hstart
    by (split; [done|split; [done|split; [done|split; [lia|done]]]]).
  unfold allocBuf. mred.
  destruct (allocBuf_loop (N.to_nat (2 * numBufs s)) 0 s) as [[fr|e| |] s'];
    simpl in Hrule; [by eauto| | |]; exfalso; apply Hrule; try done; lia.
Qed.

Lemma allocBuf_loop_more_fuel fuel k c s :
  (allocBuf_loop fuel c s).1 <> OutOfFuel ->
  allocBuf_loop (fuel + k) c s = allocBuf_loop fuel c s.
Proof.
  revert c s. induction fuel as [|fuel IH]; intros c s Hne; [done|].
  simpl in *. mred.
  destruct (allocBuf_body c s) as [[[c'|fr]|e| |] s1]; try done.
  by apply IH.
Qed.

(** X1.  The loop [while (true)] of [allocBuf] ends within [2 * numBufs]
    passes: with that many passes or more allowed, it returns a frame or
    throws [BufferExceeded], and the result does not depend on the bound. *)
Theorem allocBuf_loop_ends s :
  wf s -> files_ok s ->
  exists r s',
    ((exists frame, r = Ok frame) \/ r = Raise BufferExceeded) /\
    forall fuel, (N.to_nat (2 * numBufs s) <= fuel)%nat ->
      allocBuf_loop fuel 0 s = (r, s').
Proof.
  intros Hwf Hfiles. pose proof (allocBuf_total s Hwf Hfiles) as Ht.
  unfold allocBuf in Ht. mred.
  destruct (allocBuf_loop (N.to_nat (2 * numBufs s)) 0 s) as [r s'] eqn:E.
  exists r, s'. split; [exact Ht|]. intros fuel Hfuel.
  replace fuel with (N.to_nat (2 * numBufs s) + (fuel - N.to_nat (2 * numBufs s)))%nat
    by lia.
  rewrite allocBuf_loop_more_fuel; [done|]. rewrite E. simpl in *.
  destruct Ht as [[fr ->]| ->]; done.
Qed.

(** X2.  [allocBuf] never hands out a pinned frame and never drops dirty
    contents: the frame it returns had [pinCnt = 0]; if it was valid and
    dirty, its contents went to [writePage] of its file, and that is the one
    call made on the File collaborator; the pool is untouched, only the
    index entry of the evicted page is removed, and every other frame keeps
    everything but its reference bit. *)
Theorem allocBuf_frame_unpinned s frame s' :
  manager_inv s -> allocBuf s = (Ok frame, s') ->
  exists d0,
    bufDescTable s !! N.to_nat frame = Some d0 /\
    pinCnt d0 = 0 /\
    bufPool s' = bufPool s /\
    fileCalls s' = fileCalls s ++ writeback d0 (bufPool s !! N.to_nat frame) /\
    hashTable s' =
      (if valid d0 then delete (file d0, pageNo d0) (hashTable s)
       else hashTable s) /\
    forall i d', i <> N.to_nat frame -> bufDescTable s' !! i = Some d' ->
      exists d, bufDescTable s !! i = Some d /\
                set_refbit false d = set_refbit false d'.
Proof.
  intros Hinv Ha.
  pose proof (allocBuf_spec s (inv_wf _ _ Hinv) (inv_files_ok _ _ Hinv)) as Hs.
  rewrite Ha in Hs. simpl in Hs.
  destruct Hs as [_ _ Hp _ _ (d0 & d' & Hd0 & _ & Hvic & Hht & Hcalls)].
  exists d0. split; [done|]. split.
  { pose proof (inv_desc _ _ Hinv _ _ Hd0) as Hok. unfold desc_ok in Hok.
    destruct (valid d0); [by destruct Hvic|by destruct Hok]. }
  split; [done|]. split; [done|]. split; [done|].
  by apply (allocBuf_others_keep s frame s' (inv_wf _ _ Hinv)
              (inv_files_ok _ _ Hinv) Ha).
Qed.

(** X3.  A frame that is empty, or unpinned with its reference bit clear,
    anywhere in the pool is enough for [allocBuf] to return a frame: the hand
    reaches it before the counter of pinned frames can reach [numBufs]. *)
Theorem allocBuf_succeeds_with_free_frame s g dg :
  wf s -> files_ok s ->
  bufDescTable s !! N.to_nat g = Some dg -> free_frame dg ->
  exists frame s', allocBuf s = (Ok frame, s').
Proof. apply allocBuf_free_frame. Qed.

(** X4.  [allocBuf] throws only when some frame is pinned: in a pool with
    no pinned frame it returns a frame, whatever the reference bits are. *)
Theorem allocBuf_succeeds_when_unpinned s :
  wf s -> files_ok s ->
  (forall i d, bufDescTable s !! i = Some d -> pinCnt d = 0) ->
  exists frame s', allocBuf s = (Ok frame, s').
Proof.
  intros Hwf Hfiles Hun.
  destruct (allocBuf s) as [r s'] eqn:Ha.
  destruct (allocBuf_total s Hwf Hfiles) as [[fr Hr]|Hr];
    rewrite Ha in Hr; simpl in Hr; subst r; [by eauto|].
  destruct (allocBuf_raise_pinned s _ s' Hwf Hfiles Ha) as (i & d & Hd & _ & Hp).
  rewrite (Hun i d Hd) in Hp. lia.
Qed.

Lemma alloc_keeps_pinned s fra sa f pageNum fr d p :
  manager_inv s -> allocBuf s = (Ok fra, sa) ->
  hashTable s !! (Some f, pageNum) = Some fr ->
  bufDescTable s !! N.to_nat fr = Some d -> 0 < pinCnt d ->
  bufPool s !! N.to_nat fr = Some p ->
  fra <> fr /\
  hashTable sa !! (Some f, pageNum) = Some fr /\
  bufPool sa !! N.to_nat fr = Some p /\
  exists d', bufDescTable sa !! N.to_nat fr = Some d' /\
             set_refbit false d' = set_refbit false d.
Proof.
  intros Hinv Ha Hk Hd Hpin Hp.
  pose proof (allocBuf_spec s (inv_wf _ _ Hinv) (inv_files_ok _ _ Hinv)) as Hs.
  rewrite Ha in Hs. simpl in Hs.
  destruct (inv_entry _ _ Hinv _ _ Hk) as (_ & d1 & Hd1 & Hv & Ek).
  simplify_eq.
  destruct Hs as [_ _ Hpool _ Hcore (d0 & d' & Hd0 & _ & Hvic & Hht & _)].
  assert (fra <> fr) as Hne.
  { intros ->. simplify_eq. destruct (Hvic Hv) as [? _]. lia. }
  split; [done|]. split.
  { rewrite Hht. destruct (valid d0) eqn:Hv0; [|done].
    rewrite lookup_delete_ne; [done|]. intros E.
    pose proof (inv_valid _ _ Hinv _ _ Hd0 Hv0 ltac:(done)) as Hk0.
    rewrite E in Hk0. congruence. }
  split; [by rewrite Hpool|].
  symmetry in Hcore.
  destruct (fmap_lookup_eq _ _ _ _ _ Hcore Hd) as (d2 & Hd2 & _).
  exists d2. split; [done|].
  destruct (allocBuf_others_keep s fra sa (inv_wf _ _ Hinv)
              (inv_files_ok _ _ Hinv) Ha (N.to_nat fr) d2 ltac:(lia) Hd2)
    as (d3 & Hd3 & E3).
  rewrite Hd in Hd3. injection Hd3 as <-. by symmetry.
Qed.

Lemma sweep_keeps_frame s c i d :
  bufDescTable s !! i = Some d ->
  bufDescTable
    (set_clockHand c (set_bufDescTable (set_refbit false <$> bufDescTable s) s))
    !! i = Some (set_refbit false d).
Proof. intros Hd. simpl. by rewrite list_lookup_fmap, Hd. Qed.

(** X5.  A pinned page is never evicted: while (file, pageNo) is resident
    with [pinCnt > 0], a [readPage] of another page and an [allocPage],
    whether they return or throw, leave it in its frame, with its contents,
    and with its descriptor unchanged but for the reference bit. *)
Theorem pinned_page_survives s f pageNum fr d p :
  manager_inv s ->
  hashTable s !! (Some f, pageNum) = Some fr ->
  bufDescTable s !! N.to_nat fr = Some d -> 0 < pinCnt d ->
  bufPool s !! N.to_nat fr = Some p ->
  (forall g pageNum', (g, pageNum') <> (f, pageNum) ->
     let s' := (readPage (Some g) pageNum' s).2 in
     hashTable s' !! (Some f, pageNum) = Some fr /\
     bufPool s' !! N.to_nat fr = Some p /\
     exists d', bufDescTable s' !! N.to_nat fr = Some d' /\
                set_refbit false d' = set_refbit false d) /\
  (forall g, new_page_fresh (OpAllocPage g) s ->
     let s' := (allocPage (Some g) s).2 in
     hashTable s' !! (Some f, pageNum) = Some fr /\
     bufPool s' !! N.to_nat fr = Some p /\
     exists d', bufDescTable s' !! N.to_nat fr = Some d' /\
                set_refbit false d' = set_refbit false d).
Proof.
  intros Hinv Hk Hd Hpin Hp. split.
  - intros g pageNum' Hne s'. subst s'.
    destruct (hashTable s !! (Some g, pageNum')) as [fr'|] eqn:Hk'.
    + destruct (inv_entry _ _ Hinv _ _ Hk') as (_ & d1 & Hd1 & Hv1 & Ek1).
      destruct (inv_entry _ _ Hinv _ _ Hk) as (_ & d2 & Hd2 & Hv2 & Ek2).
      assert (fr' <> fr) as Hfr
        by (intros ->; simplify_eq; apply Hne; congruence).
      rewrite (readPage_hit _ _ _ _ _ Hk' Hd1). simpl.
      rewrite list_lookup_insert_ne by lia. eauto.
    + pose proof (allocBuf_spec s (inv_wf _ _ Hinv) (inv_files_ok _ _ Hinv)) as Hs.
      destruct (allocBuf s) as [[fra|e| |] sa] eqn:Ha; simpl in Hs; try done.
      * destruct (alloc_keeps_pinned s fra sa f pageNum fr d p Hinv Ha Hk Hd Hpin Hp)
          as (Hfra & Hka & Hpa & d' & Hda & Eda).
        destruct (alloc_then_set_inv s fra sa g pageNum'
                    (file_readPage (fileCalls sa) g pageNum')
                    (fileCalls sa ++ [CallRead g pageNum']) Hinv Hs Hk')
          as (d1 & p0 & Hd1 & Hp0 & _).
        rewrite (readPage_miss_ok _ _ _ _ _ _ _ Hk' Ha Hd1 Hp0). simpl.
        rewrite lookup_insert_ne by congruence.
        rewrite !list_lookup_insert_ne by lia. eauto.
      * destruct Hs as (-> & _ & Hr).
        rewrite (readPage_miss_raise _ _ _ _ _ Hk' Ha). simpl. rewrite Hr.
        split; [done|]. split; [done|]. eexists.
        split; [by apply sweep_keeps_frame|]. by destruct d.
  - intros g Hfresh s'. subst s'. simpl in Hfresh.
    set (s0 := set_fileCalls (fileCalls s ++ [CallAllocate g]) s).
    assert (manager_inv s0) as Hinv0 by (by apply inv_set_fileCalls).
    pose proof (allocBuf_spec s0 (inv_wf _ _ Hinv0) (inv_files_ok _ _ Hinv0)) as Hs.
    destruct (allocBuf s0) as [[fra|e| |] sa] eqn:Ha; simpl in Hs; try done.
    + destruct (alloc_keeps_pinned s0 fra sa f pageNum fr d p Hinv0 Ha Hk Hd Hpin Hp)
        as (Hfra & Hka & Hpa & d' & Hda & Eda).
      destruct (alloc_then_set_inv s0 fra sa g _
                  (file_allocatePage (fileCalls s) g) (fileCalls sa)
                  Hinv0 Hs Hfresh) as (d1 & p0 & Hd1 & Hp0 & _).
      rewrite (allocPage_ok _ _ _ _ _ _ Ha Hd1 Hp0). simpl.
      rewrite lookup_insert_ne by (intros E; simplify_eq; congruence).
      rewrite !list_lookup_insert_ne by lia. eauto.
    + destruct Hs as (-> & _ & Hr).
      rewrite (allocPage_raise _ _ _ _ Ha). simpl. rewrite Hr.
      split; [done|]. split; [done|]. eexists.
      split; [by apply (sweep_keeps_frame s0)|]. by destruct d.
Qed.

(** *** [readPage], [allocPage], [unPinPage], [disposePage] *)

Lemma BufDesc_Set_core filePtr pageNum d d0 :
  core d = core d0 -> BufDesc_Set filePtr pageNum d = BufDesc_Set filePtr pageNum d0.
Proof. destruct d, d0; unfold core, BufDesc_Set; simpl. by intros [= _ _ ->]. Qed.

(** X6.  A [readPage] of a resident page does no I/O: it returns the frame
    the index holds, sets [refbit] and raises [pinCnt] by one in that frame's
    descriptor, and leaves the hand, the pool, the index, the other frames
    and the File collaborator alone. *)
Theorem readPage_hit_no_io s filePtr pageNum frame :
  manager_inv s ->
  hashTable s !! (filePtr, pageNum) = Some frame ->
  exists d,
    bufDescTable s !! N.to_nat frame = Some d /\
    readPage filePtr pageNum s =
      (Ok frame,
       set_bufDescTable
         (<[N.to_nat frame := set_pinCnt (pinCnt d + 1) (set_refbit true d)]>
            (bufDescTable s)) s).
Proof.
  intros Hinv Hk. destruct (inv_entry _ _ Hinv _ _ Hk) as (_ & d & Hd & _).
  exists d. split; [done|]. by apply readPage_hit.
Qed.

(** X7.  A [readPage] miss that returns has read the page exactly once,
    after the write-back of the evicted frame if that was dirty; the slot of
    the returned frame holds what the File returned, the page is in the
    index, and the descriptor is set: pinned once, clean, valid, recently
    used. *)
Theorem readPage_miss_loads s f pageNum frame s' :
  manager_inv s ->
  hashTable s !! (Some f, pageNum) = None ->
  readPage (Some f) pageNum s = (Ok frame, s') ->
  exists d0,
    bufDescTable s !! N.to_nat frame = Some d0 /\
    pinCnt d0 = 0 /\
    let w := writeback d0 (bufPool s !! N.to_nat frame) in
    fileCalls s' = fileCalls s ++ w ++ [CallRead f pageNum] /\
    bufPool s' =
      <[N.to_nat frame := file_readPage (fileCalls s ++ w) f pageNum]>
        (bufPool s) /\
    hashTable s' =
      <[(Some f, pageNum) := frame]>
        (if valid d0 then delete (file d0, pageNo d0) (hashTable s)
         else hashTable s) /\
    bufDescTable s' !! N.to_nat frame
      = Some (BufDesc_Set (Some f) pageNum d0) /\
    clockHand s' = frame.
Proof.
  intros Hinv Hk Hr.
  pose proof (allocBuf_spec s (inv_wf _ _ Hinv) (inv_files_ok _ _ Hinv)) as Hs.
  destruct (allocBuf s) as [[fra|e| |] sa] eqn:Ha; simpl in Hs; try done.
  2:{ by rewrite (readPage_miss_raise _ _ _ _ _ Hk Ha) in Hr. }
  destruct (alloc_then_set_inv s fra sa f pageNum
              (file_readPage (fileCalls sa) f pageNum)
              (fileCalls sa ++ [CallRead f pageNum]) Hinv Hs Hk)
    as (d & p0 & Hd & Hp0 & _).
  rewrite (readPage_miss_ok _ _ _ _ _ _ _ Hk Ha Hd Hp0) in Hr.
  injection Hr as <- <-. simpl.
  destruct Hs as [_ _ Hpool Hh Hcore (d0 & d' & Hd0 & Hd' & Hvic & Hht & Hcalls)].
  exists d0. split; [done|]. split.
  { pose proof (inv_desc _ _ Hinv _ _ Hd0) as Hok. unfold desc_ok in Hok.
    destruct (valid d0); [by destruct Hvic|by destruct Hok]. }
  rewrite Hcalls, Hpool, Hht, <- app_assoc. repeat split; try done.
  rewrite list_lookup_insert_eq by (by eapply lookup_lt_Some).
  f_equal. apply BufDesc_Set_core.
  destruct (fmap_lookup_eq _ _ _ _ _ Hcore Hd) as (d1 & Hd1 & E).
  rewrite Hd0 in Hd1. injection Hd1 as <-. by symmetry.
Qed.

(** X8.  An [allocPage] that returns gives the number of the page the File
    allocated; [allocatePage] is called first, and the write-back of the
    evicted frame, if dirty, comes after it; the slot of the returned frame
    holds the new page, the page is in the index, and the descriptor is set
    with [pinCnt = 1]. *)
Theorem allocPage_registers s f pageNum frame s' :
  manager_inv s ->
  allocPage (Some f) s = (Ok (pageNum, frame), s') ->
  exists d0,
    pageNum = page_number (file_allocatePage (fileCalls s) f) /\
    bufDescTable s !! N.to_nat frame = Some d0 /\
    pinCnt d0 = 0 /\
    fileCalls s' =
      fileCalls s ++ [CallAllocate f]
                  ++ writeback d0 (bufPool s !! N.to_nat frame) /\
    bufPool s' =
      <[N.to_nat frame := file_allocatePage (fileCalls s) f]> (bufPool s) /\
    hashTable s' =
      <[(Some f, pageNum) := frame]>
        (if valid d0 then delete (file d0, pageNo d0) (hashTable s)
         else hashTable s) /\
    bufDescTable s' !! N.to_nat frame
      = Some (BufDesc_Set (Some f) pageNum d0).
Proof.
  intros Hinv Hr.
  set (s0 := set_fileCalls (fileCalls s ++ [CallAllocate f]) s) in *.
  assert (manager_inv s0) as Hinv0 by (by apply inv_set_fileCalls).
  pose proof (allocBuf_spec s0 (inv_wf _ _ Hinv0) (inv_files_ok _ _ Hinv0)) as Hs.
  destruct (allocBuf s0) as [[fra|e| |] sa] eqn:Ha; simpl in Hs; try done.
  2:{ by rewrite (allocPage_raise _ _ _ _ Ha) in Hr. }
  destruct Hs as [Hwa _ Hpool Hh Hcore (d0 & d' & Hd0 & Hd' & Hvic & Hht & Hcalls)].
  assert (is_Some (bufPool sa !! N.to_nat fra)) as [p0 Hp0].
  { apply lookup_lt_is_Some. rewrite (wf_pool sa Hwa), <- (wf_table sa Hwa).
    by eapply lookup_lt_Some. }
  rewrite (allocPage_ok _ _ _ _ _ _ Ha Hd' Hp0) in Hr.
  injection Hr as <- <- <-. simpl in *.
  exists d0. split; [done|]. split; [done|]. split.
  { pose proof (inv_desc _ _ Hinv _ _ Hd0) as Hok. unfold desc_ok in Hok.
    destruct (valid d0); [by destruct Hvic|by destruct Hok]. }
  rewrite Hcalls, Hpool, Hht, <- app_assoc. repeat split; try done.
  rewrite list_lookup_insert_eq by (by eapply lookup_lt_Some).
  f_equal. apply BufDesc_Set_core.
  destruct (fmap_lookup_eq _ _ _ _ _ Hcore Hd') as (d1 & Hd1 & E).
  rewrite Hd0 in Hd1. injection Hd1 as <-. by symmetry.
Qed.

(** X9.  Pin and unpin go in pairs: right after a [readPage] that returned,
    [unPinPage] of the same page does not throw, lowers [pinCnt] of the frame
    by one, or-s [isDirty] into its dirty flag, and leaves the page resident
    with its contents. *)
Theorem readPage_then_unPinPage s f pageNum frame s1 isDirty :
  manager_inv s ->
  readPage (Some f) pageNum s = (Ok frame, s1) ->
  exists d1 d2 s2,
    bufDescTable s1 !! N.to_nat frame = Some d1 /\
    unPinPage (Some f) pageNum isDirty s1 = (Ok tt, s2) /\
    bufDescTable s2 !! N.to_nat frame = Some d2 /\
    pinCnt d2 + 1 = pinCnt d1 /\
    dirty d2 = dirty d1 || isDirty /\
    hashTable s2 = hashTable s1 /\
    hashTable s2 !! (Some f, pageNum) = Some frame /\
    bufPool s2 = bufPool s1 /\
    fileCalls s2 = fileCalls s1.
Proof.
  intros Hinv Hr.
  assert (exists d1,
    bufDescTable s1 !! N.to_nat frame = Some d1 /\
    hashTable s1 !! (Some f, pageNum) = Some frame /\
    0 < pinCnt d1) as (d1 & Hd1 & Hk1 & Hp1).
  { destruct (hashTable s !! (Some f, pageNum)) as [fr|] eqn:Hk.
    - destruct (inv_entry _ _ Hinv _ _ Hk) as (_ & d & Hd & Hv & _).
      rewrite (readPage_hit _ _ _ _ _ Hk Hd) in Hr. injection Hr as <- <-.
      simpl. eexists.
      split; [apply list_lookup_insert_eq; by eapply lookup_lt_Some|].
      split; [done|]. simpl. lia.
    - pose proof (allocBuf_spec s (inv_wf _ _ Hinv) (inv_files_ok _ _ Hinv)) as Hs.
      destruct (allocBuf s) as [[fra|e| |] sa] eqn:Ha; simpl in Hs; try done.
      2:{ by rewrite (readPage_miss_raise _ _ _ _ _ Hk Ha) in Hr. }
      destruct (alloc_then_set_inv s fra sa f pageNum
                  (file_readPage (fileCalls sa) f pageNum)
                  (fileCalls sa ++ [CallRead f pageNum]) Hinv Hs Hk)
        as (d & p0 & Hd & Hp0 & _).
      rewrite (readPage_miss_ok _ _ _ _ _ _ _ Hk Ha Hd Hp0) in Hr.
      injection Hr as <- <-. simpl. eexists.
      split; [apply list_lookup_insert_eq; by eapply lookup_lt_Some|].
      split; [by rewrite lookup_insert_eq|]. simpl. lia. }
  exists d1. eexists. eexists. split; [done|].
  split; [by apply (unPinPage_pinned _ _ _ _ _ _ Hk1 Hd1)|]. simpl.
  split; [apply list_lookup_insert_eq; by eapply lookup_lt_Some|].
  simpl. repeat split; try done. lia.
Qed.

(** X10.  After [disposePage] the page is gone from the pool, resident or
    not before: the call returns, the index has no entry for it, the
    invariant of the manager holds, and a late [unPinPage] of it is a no-op
    that does not throw. *)
Theorem disposePage_then_gone s f pageNum isDirty :
  manager_inv s ->
  exists s',
    disposePage (Some f) pageNum s = (Ok tt, s') /\
    hashTable s' !! (Some f, pageNum) = None /\
    manager_inv s' /\
    unPinPage (Some f) pageNum isDirty s' = (Ok tt, s').
Proof.
  intros Hinv. pose proof (disposePage_inv f pageNum s Hinv) as Hinv'.
  destruct (hashTable s !! (Some f, pageNum)) as [fr|] eqn:Hk.
  - destruct (inv_entry _ _ Hinv _ _ Hk) as (_ & d & Hd & _).
    rewrite (disposePage_resident _ _ _ _ _ Hk Hd) in *.
    eexists. split; [done|].
    assert (forall X, hashTable
              (set_fileCalls X
                 (set_bufDescTable (<[N.to_nat fr := BufDesc_Clear d]> (bufDescTable s))
                    (set_hashTable (delete (Some f, pageNum) (hashTable s)) s)))
              !! (Some f, pageNum) = None) as Hgone
      by (intros; simpl; apply lookup_delete_eq).
    split; [done|]. split; [done|]. by apply unPinPage_absent.
  - rewrite (disposePage_absent _ _ _ Hk) in *.
    eexists. split; [done|]. split; [done|]. split; [done|].
    by apply unPinPage_absent.
Qed.

(** *** [flushFile] *)

Lemma flushFile_loop_unowned filePtr fuel :
  forall fi s,
  wf s -> fi <= numBufs s -> (N.to_nat (numBufs s - fi) < fuel)%nat ->
  (forall j d, bufDescTable s !! j = Some d -> file d <> filePtr) ->
  flushFile_loop fuel filePtr fi s = (Ok tt, s).
Proof.
  induction fuel as [|fuel IH]; intros fi s Hwf Hle Hfuel Hno; [lia|].
  pose proof (wf_numBufs s Hwf) as Hnb. simpl. mred.
  destruct (N.ltb_spec fi (numBufs s)) as [Hlt|Hge]; [|done].
  assert (is_Some (bufDescTable s !! N.to_nat fi)) as [d Hd].
  { apply lookup_lt_is_Some. rewrite (wf_table s Hwf). lia. }
  rewrite (flushFile_body_other filePtr fi s d Hd (Hno _ _ Hd)).
  rewrite (wrap32_small (fi + 1)) by lia. apply IH; try done; lia.
Qed.

Lemma flushFile_loop_clean f fuel :
  forall fi s,
  manager_inv s -> fi <= numBufs s ->
  (N.to_nat (numBufs s - fi) < fuel)%nat ->
  (forall j dj, fi <= j -> bufDescTable s !! N.to_nat j = Some dj ->
     file dj = Some f -> pinCnt dj = 0) ->
  exists s',
    flushFile_loop fuel (Some f) fi s = (Ok tt, s') /\
    manager_inv s' /\
    (forall j, j < fi ->
       bufDescTable s' !! N.to_nat j = bufDescTable s !! N.to_nat j) /\
    (forall j dj, fi <= j -> bufDescTable s !! N.to_nat j = Some dj ->
       bufDescTable s' !! N.to_nat j
       = Some (if decide (file dj = Some f) then BufDesc_Clear dj else dj)) /\
    (forall k fr, hashTable s' !! k = Some fr <->
       hashTable s !! k = Some fr /\ ~ (k.1 = Some f /\ fi <= fr)) /\
    bufPool s' = bufPool s /\ clockHand s' = clockHand s /\
    numBufs s' = numBufs s /\
    fileCalls s' =
      fileCalls s
      ++ flush_writes f s (seq (N.to_nat fi) (N.to_nat (numBufs s - fi))).
Proof.
  induction fuel as [|fuel IH]; intros fi s Hinv Hle Hfuel Hun; [lia|].
  pose proof (inv_wf _ _ Hinv) as Hwf.
  pose proof (wf_numBufs s Hwf) as Hnb.
  simpl. mred.
  destruct (N.ltb_spec fi (numBufs s)) as [Hlt|Hge].
  2:{ (* past the last frame *)
    exists s. split; [done|]. split; [done|]. split; [done|].
    split.
    { intros j dj Hj Hdj. pose proof (lookup_frame_lt _ _ _ Hwf Hdj). lia. }
    split.
    { intros k fr. split; [|by intros [? _]]. intros Hk. split; [done|].
      intros [_ Hfr]. destruct (inv_entry _ _ Hinv _ _ Hk) as (_ & d & Hd & _).
      pose proof (lookup_frame_lt _ _ _ Hwf Hd). lia. }
    replace (numBufs s - fi) with 0 by lia. simpl. by rewrite app_nil_r. }
  assert (is_Some (bufDescTable s !! N.to_nat fi)) as [d Hd].
  { apply lookup_lt_is_Some. rewrite (wf_table s Hwf). lia. }
  assert (is_Some (bufPool s !! N.to_nat fi)) as [p Hp].
  { apply lookup_lt_is_Some. rewrite (wf_pool s Hwf). lia. }
  rewrite (wrap32_small (fi + 1)) by lia.
  assert (N.to_nat (numBufs s - fi) = S (N.to_nat (numBufs s - (fi + 1))))
    as En by lia.
  assert (N.to_nat (fi + 1) = S (N.to_nat fi)) as Ef by lia.
  destruct (decide (file d = Some f)) as [Hf|Hf].
  - (* a frame of the file: flushed *)
    pose proof (inv_owned_valid _ _ _ _ Hinv Hd Hf) as Hv.
    pose proof (Hun fi d ltac:(lia) Hd Hf) as Hp0.
    pose proof (inv_valid _ _ Hinv fi d Hd Hv ltac:(done)) as Hk.
    rewrite Hf in Hk.
    rewrite (flushFile_body_flush f fi s d p fi Hd Hf Hv Hp0 Hp Hk).
    destruct (IH (fi + 1) (flush_frame fi d s)) as
      (s' & Hrun & Hinv' & HA & HB & HC & HP & HH & HN & HW);
      try done; try (simpl; lia).
    + by apply inv_flush_frame.
    + intros j dj Hj Hdj. simpl in Hdj.
      rewrite list_lookup_insert_ne in Hdj by lia. apply (Hun j dj); [lia|done].
    + exists s'. split; [done|]. split; [done|]. simpl in *.
      split; [|split; [|split; [|split; [done|split; [done|split; [done|]]]]]].
      * intros j Hj. rewrite HA by lia. by rewrite list_lookup_insert_ne by lia.
      * intros j dj Hj Hdj. destruct (N.eq_dec j fi) as [->|Hjne].
        -- rewrite HA by lia. simplify_eq.
           rewrite list_lookup_insert_eq by (by eapply lookup_lt_Some).
           by destruct (decide (file d = Some f)).
        -- apply HB; [lia|]. by rewrite list_lookup_insert_ne by lia.
      * intros k fr. rewrite HC, Hf. split.
        -- intros [Hdel Hno]. apply lookup_delete_Some in Hdel as [Hkne Hkfr].
           split; [done|]. intros [Hk1 Hfr].
           destruct (N.eq_dec fr fi) as [->|Hfrne]; [|apply Hno; split; [done|lia]].
           destruct (inv_entry _ _ Hinv _ _ Hkfr) as (_ & d1 & Hd1 & _ & ->).
           simplify_eq. by rewrite Hf in Hkne.
        -- intros [Hkfr Hno]. split.
           ++ apply lookup_delete_Some. split; [|done]. intros <-.
              simplify_eq. apply Hno. simpl. split; [done|lia].
           ++ intros [Hk1 Hfr]. apply Hno. split; [done|lia].
      * rewrite HW, En, Ef, flush_writes_flush_frame by lia.
        rewrite <- app_assoc. f_equal. unfold flush_writes. simpl.
        rewrite Hd. by destruct (decide (file d = Some f)).
  - (* a frame of another file, or an empty one *)
    rewrite (flushFile_body_other (Some f) fi s d Hd Hf).
    destruct (IH (fi + 1) s) as
      (s' & Hrun & Hinv' & HA & HB & HC & HP & HH & HN & HW);
      try done; try lia.
    + intros j dj Hj Hdj. apply (Hun j dj); [lia|done].
    + exists s'. split; [done|]. split; [done|].
      split; [|split; [|split; [|split; [done|split; [done|split; [done|]]]]]].
      * intros j Hj. apply HA. lia.
      * intros j dj Hj Hdj. destruct (N.eq_dec j fi) as [->|Hjne].
        -- rewrite HA by lia. simplify_eq.
           by destruct (decide (file d = Some f)).
        -- apply HB; [lia|done].
      * intros k fr. rewrite HC. split.
        -- intros [Hkfr Hno]. split; [done|]. intros [Hk1 Hfr].
           destruct (N.eq_dec fr fi) as [->|Hfrne]; [|apply Hno; split; [done|lia]].
           destruct (inv_entry _ _ Hinv _ _ Hkfr) as (_ & d1 & Hd1 & _ & ->).
           by simplify_eq.
        -- intros [Hkfr Hno]. split; [done|].
           intros [Hk1 Hfr]. apply Hno. split; [done|lia].
      * rewrite HW, En, Ef. f_equal. unfold flush_writes. simpl.
        rewrite Hd. by destruct (decide (file d = Some f)).
Qed.

Lemma least_index (P : nat -> Prop) :
  (forall j, P j \/ ~ P j) ->
  forall n, P n ->
  exists m, (m <= n)%nat /\ P m /\ forall j, (j < m)%nat -> ~ P j.
Proof.
  intros Hdec n. induction (lt_wf n) as [n _ IH]. intros Hn.
  assert ((exists j, (j < n)%nat /\ P j) \/
          (forall j, (j < n)%nat -> ~ P j)) as [(j & Hj & HP)|Hnone].
  { clear IH Hn. induction n as [|n [(j & Hj & HP)|Hnone]].
    - right. intros; lia.
    - left. exists j. split; [lia|done].
    - destruct (Hdec n) as [HP|HP].
      + left. exists n. split; [lia|done].
      + right. intros j Hj. destruct (decide (j = n)) as [->|]; [done|].
        apply Hnone. lia. }
  - destruct (IH j Hj HP) as (m & Hm & HPm & Hfirst).
    exists m. split; [lia|done].
  - exists n. split; [lia|done].
Qed.

Lemma pinned_by_any_dec f s :
  (exists j, pinned_by f s j) \/ (forall j, ~ pinned_by f s j).
Proof.
  assert (forall n, (exists j, (j < n)%nat /\ pinned_by f s j) \/
                    (forall j, (j < n)%nat -> ~ pinned_by f s j)) as Hb.
  { induction n as [|n [(j & Hj & HP)|Hnone]].
    - right. intros; lia.
    - left. exists j. split; [lia|done].
    - destruct (pinned_by_dec f s n) as [HP|HP].
      + left. exists n. split; [lia|done].
      + right. intros j Hj. destruct (decide (j = n)) as [->|]; [done|].
        apply Hnone. lia. }
  destruct (Hb (length (bufDescTable s))) as [(j & _ & HP)|Hnone];
    [left; eauto|].
  right. intros j HP. apply (Hnone j); [|done].
  destruct HP as (d & Hd & _). by eapply lookup_lt_Some.
Qed.

Lemma flushFile_loop_null i di fuel :
  forall fi s,
  manager_inv s -> fi <= i -> (N.to_nat (i - fi) < fuel)%nat ->
  bufDescTable s !! N.to_nat i = Some di -> valid di = false ->
  (forall j dj, fi <= j < i -> bufDescTable s !! N.to_nat j = Some dj ->
     valid dj = true) ->
  flushFile_loop fuel None fi s = (Raise BadBuffer, s).
Proof.
  induction fuel as [|fuel IH]; intros fi s Hinv Hle Hfuel Hi Hvi Hval; [lia|].
  pose proof (inv_wf _ _ Hinv) as Hwf.
  pose proof (lookup_frame_lt _ _ _ Hwf Hi) as Hilt.
  pose proof (wf_numBufs s Hwf) as Hnb.
  simpl. mred. rewrite (proj2 (N.ltb_lt fi (numBufs s))) by lia.
  destruct (N.eq_dec fi i) as [->|Hne].
  - pose proof (inv_desc _ _ Hinv _ _ Hi) as Hok. unfold desc_ok in Hok.
    rewrite Hvi in Hok. destruct Hok as [Hf _].
    by rewrite (flushFile_body_invalid None i s di Hi Hf Hvi).
  - assert (is_Some (bufDescTable s !! N.to_nat fi)) as [d Hd].
    { apply lookup_lt_is_Some. rewrite (wf_table s Hwf). lia. }
    pose proof (Hval fi d ltac:(lia) Hd) as Hv.
    destruct (inv_files_ok _ _ Hinv _ _ Hd Hv) as [f Hf].
    rewrite (flushFile_body_other None fi s d Hd) by congruence.
    rewrite (wrap32_small (fi + 1)) by lia.
    apply IH; try done; try lia.
    intros j dj Hj. apply Hval. lia.
Qed.

Lemma flushFile_pinned_raises s f n :
  manager_inv s -> pinned_by f s n ->
  (flushFile (Some f) s).1 = Raise PagePinned.
Proof.
  intros Hinv Hn.
  destruct (least_index (pinned_by f s) (pinned_by_dec f s) n Hn)
    as (m & Hm & (di & Hdi & Hfi & Hpi) & Hfirst).
  pose proof (inv_wf _ _ Hinv) as Hwf.
  assert (m = N.to_nat (N.of_nat m)) as Em by lia. rewrite Em in Hdi.
  pose proof (lookup_frame_lt _ _ _ Hwf Hdi) as Hlt.
  destruct (flushFile_loop_pinned f (N.of_nat m) di (S (N.to_nat (numBufs s)))
              0 s Hinv) as (s' & Hrun & _); try done; try lia.
  { intros j dj Hj Hdj Hfj.
    destruct (N.eq_dec (pinCnt dj) 0) as [|Hne]; [done|].
    exfalso. apply (Hfirst (N.to_nat j)); [lia|]. exists dj.
    split; [done|]. split; [done|lia]. }
  unfold flushFile. mred. by rewrite Hrun.
Qed.

Lemma flushFile_clean_run s f :
  manager_inv s -> (forall j, ~ pinned_by f s j) ->
  exists s',
    flushFile (Some f) s = (Ok tt, s') /\
    manager_inv s' /\ numBufs s' = numBufs s /\
    forall j dj, bufDescTable s !! j = Some dj ->
      bufDescTable s' !! j
      = Some (if decide (file dj = Some f) then BufDesc_Clear dj else dj).
Proof.
  intros Hinv Hnone.
  destruct (flushFile_loop_clean f (S (N.to_nat (numBufs s))) 0 s Hinv)
    as (s' & Hrun & Hinv' & _ & HB & _ & _ & _ & HN & _); try lia.
  { intros j dj _ Hdj Hf. destruct (N.eq_dec (pinCnt dj) 0) as [|Hne]; [done|].
    exfalso. apply (Hnone (N.to_nat j)). exists dj.
    split; [done|]. split; [done|lia]. }
  exists s'. split; [unfold flushFile; mred; exact Hrun|].
  split; [done|]. split; [done|].
  intros j dj Hdj. assert (j = N.to_nat (N.of_nat j)) as Ej by lia.
  rewrite Ej in Hdj |- *. apply HB; [lia|done].
Qed.

(** X11.  When no frame of the file is pinned, [flushFile] returns with
    every frame of the file written back if dirty (in frame order), taken
    out of the index and cleared; the frames and index entries of other
    files, the pool and the hand are as before, and the invariant of the
    manager holds. *)
Theorem flushFile_flushes_file s f :
  manager_inv s -> (forall j, ~ pinned_by f s j) ->
  exists s',
    flushFile (Some f) s = (Ok tt, s') /\
    manager_inv s' /\
    (forall j dj, bufDescTable s !! j = Some dj ->
       bufDescTable s' !! j
       = Some (if decide (file dj = Some f) then BufDesc_Clear dj else dj)) /\
    (forall k fr, hashTable s' !! k = Some fr <->
       hashTable s !! k = Some fr /\ k.1 <> Some f) /\
    bufPool s' = bufPool s /\ clockHand s' = clockHand s /\
    fileCalls s' =
      fileCalls s ++ flush_writes f s (seq 0 (length (bufDescTable s))).
Proof.
  intros Hinv Hnone. pose proof (inv_wf _ _ Hinv) as Hwf.
  destruct (flushFile_loop_clean f (S (N.to_nat (numBufs s))) 0 s Hinv)
    as (s' & Hrun & Hinv' & _ & HB & HC & HP & HH & _ & HW); try lia.
  { intros j dj _ Hdj Hf. destruct (N.eq_dec (pinCnt dj) 0) as [|Hne]; [done|].
    exfalso. apply (Hnone (N.to_nat j)). exists dj.
    split; [done|]. split; [done|lia]. }
  exists s'. split; [unfold flushFile; mred; exact Hrun|].
  split; [done|]. split.
  { intros j dj Hdj. assert (j = N.to_nat (N.of_nat j)) as Ej by lia.
    rewrite Ej in Hdj |- *. apply HB; [lia|done]. }
  split.
  { intros k fr. rewrite HC. split; intros [? Hno]; (split; [done|]).
    - intros Hk. apply Hno. split; [done|lia].
    - by intros [? _]. }
  split; [done|]. split; [done|]. rewrite HW. do 2 f_equal.
  rewrite (wf_table s Hwf). f_equal. lia.
Qed.

(** X12.  With a file that is not null, in a state that satisfies the
    invariant, [flushFile] throws [PagePinned] exactly when some frame of the
    file is pinned and returns otherwise; [BadBuffer] is not thrown, and the
    [HashNotFoundException] of [hashTable->remove], which [flushFile] does
    not catch, does not occur. *)
Theorem flushFile_throws_iff_pinned s f :
  manager_inv s ->
  ((exists j, pinned_by f s j) /\
   (flushFile (Some f) s).1 = Raise PagePinned) \/
  ((forall j, ~ pinned_by f s j) /\ (flushFile (Some f) s).1 = Ok tt).
Proof.
  intros Hinv. destruct (pinned_by_any_dec f s) as [[n Hn]|Hnone].
  - left. split; [by eauto|]. by eapply flushFile_pinned_raises.
  - right. split; [done|].
    destruct (flushFile_clean_run s f Hinv Hnone) as (s' & -> & _). done.
Qed.

(** X13.  [flushFile] of a file that has no frame in the pool returns and
    changes nothing (no File call either); so a second [flushFile] right
    after one that returned is a no-op. *)
Theorem flushFile_idempotent s f :
  manager_inv s ->
  ((forall j d, bufDescTable s !! j = Some d -> file d <> Some f) ->
   flushFile (Some f) s = (Ok tt, s)) /\
  (forall s', flushFile (Some f) s = (Ok tt, s') ->
     flushFile (Some f) s' = (Ok tt, s')).
Proof.
  intros Hinv. pose proof (inv_wf _ _ Hinv) as Hwf. split.
  - intros Hno. unfold flushFile. mred.
    apply flushFile_loop_unowned; try done; lia.
  - intros s' Hr.
    destruct (pinned_by_any_dec f s) as [[n Hn]|Hnone].
    { pose proof (flushFile_pinned_raises s f n Hinv Hn) as E.
      by rewrite Hr in E. }
    destruct (flushFile_clean_run s f Hinv Hnone) as (s1 & Hrun & Hinv1 & HN & HB).
    rewrite Hrun in Hr. injection Hr as <-.
    pose proof (inv_wf _ _ Hinv1) as Hwf1. unfold flushFile. mred.
    apply flushFile_loop_unowned; try done; try lia.
    intros j d1 Hd1 Hf1.
    assert (is_Some (bufDescTable s !! j)) as [d Hd].
    { apply lookup_lt_is_Some. apply lookup_lt_Some in Hd1.
      rewrite (wf_table s Hwf). rewrite (wf_table s1 Hwf1) in Hd1. lia. }
    rewrite (HB _ d Hd) in Hd1. injection Hd1 as <-.
    destruct (decide (file d = Some f)); [done|congruence].
Qed.

Lemma flushFile_null_invalid s i d :
  manager_inv s -> bufDescTable s !! i = Some d -> valid d = false ->
  flushFile None s = (Raise BadBuffer, s).
Proof.
  intros Hinv Hn Hvn. pose proof (inv_wf _ _ Hinv) as Hwf.
  assert (forall j, (exists d, bufDescTable s !! j = Some d /\ valid d = false)
                    \/ ~ (exists d, bufDescTable s !! j = Some d /\ valid d = false))
    as Hdec.
  { intros j. destruct (bufDescTable s !! j) as [d'|];
      [|right; by intros (? & ? & _)].
    destruct (valid d') eqn:Hv; [right|left; eauto].
    intros (d1 & [= <-] & Hv1). congruence. }
  destruct (least_index _ Hdec i (ex_intro _ d (conj Hn Hvn)))
    as (m & Hm & (di & Hdi & Hvi) & Hfirst).
  assert (m = N.to_nat (N.of_nat m)) as Em by lia. rewrite Em in Hdi.
  pose proof (lookup_frame_lt _ _ _ Hwf Hdi) as Hlt.
  unfold flushFile. mred.
  apply (flushFile_loop_null (N.of_nat m) di); try done; try lia.
  intros j dj Hj Hdj. destruct (valid dj) eqn:Hv; [done|].
  exfalso. apply (Hfirst (N.to_nat j)); [lia|eauto].
Qed.

Lemma flushFile_null_valid s :
  manager_inv s ->
  (forall i d, bufDescTable s !! i = Some d -> valid d = true) ->
  flushFile None s = (Ok tt, s).
Proof.
  intros Hinv Hall. pose proof (inv_wf _ _ Hinv) as Hwf.
  unfold flushFile. mred.
  apply flushFile_loop_unowned; try done; try lia.
  intros j d Hd Hf.
  destruct (inv_files_ok _ _ Hinv _ _ Hd (Hall _ _ Hd)) as [f Hf'].
  congruence.
Qed.

(** X14.  [flushFile] with a null file compares it with the owner of every
    frame: in a state that satisfies the invariant it throws [BadBuffer] as
    soon as it meets an empty frame (whose owner is null), and returns when
    every frame is valid; either way the state is unchanged. *)
Theorem flushFile_null_file s :
  manager_inv s ->
  (forall i d, bufDescTable s !! i = Some d -> valid d = false ->
     flushFile None s = (Raise BadBuffer, s)) /\
  ((forall i d, bufDescTable s !! i = Some d -> valid d = true) ->
   flushFile None s = (Ok tt, s)).
Proof.
  intros Hinv. split.
  - intros i d. by apply flushFile_null_invalid.
  - by apply flushFile_null_valid.
Qed.

(** *** No operation goes wrong *)

Lemma all_valid_dec (l : list BufDesc) :
  (exists i d, l !! i = Some d /\ valid d = false) \/
  (forall i d, l !! i = Some d -> valid d = true).
Proof.
  induction l as [|d l [(i & d' & Hi & Hv)|Hall]].
  - right. intros i d Hd. by rewrite lookup_nil in Hd.
  - left. by exists (S i), d'.
  - destruct (valid d) eqn:Hv; [|left; by exists 0%nat, d].
    right. intros [|i] d' Hd'; simpl in Hd'; [by simplify_eq|by eapply Hall].
Qed.

(** X15.  In a state that satisfies the invariant, each public operation
    returns or throws one of the exceptions it has a [throw] for
    ([BufferExceeded] from [allocBuf]): no array is indexed out of range, no
    null file is dereferenced, no remainder by zero is taken, the loops end,
    and no [HashNotFoundException] leaves the manager. *)
Theorem operations_end_well s o :
  manager_inv s -> new_page_fresh o s ->
  match result o s with
  | Ok _ => True
  | Raise e => e ∈ may_throw o
  | Undefined | OutOfFuel => False
  end.
Proof.
  intros Hinv Hfresh. destruct o as [f n|f|filePtr n b|filePtr|f n]; simpl.
  - destruct (hashTable s !! (Some f, n)) as [fr|] eqn:Hk.
    + destruct (inv_entry _ _ Hinv _ _ Hk) as (_ & d & Hd & _).
      by rewrite (readPage_hit _ _ _ _ _ Hk Hd).
    + pose proof (allocBuf_spec s (inv_wf _ _ Hinv) (inv_files_ok _ _ Hinv)) as Hs.
      destruct (allocBuf s) as [[fra|e| |] sa] eqn:Ha; simpl in Hs; try done.
      * destruct (alloc_then_set_inv s fra sa f n
                    (file_readPage (fileCalls sa) f n)
                    (fileCalls sa ++ [CallRead f n]) Hinv Hs Hk)
          as (d & p0 & Hd & Hp0 & _).
        by rewrite (readPage_miss_ok _ _ _ _ _ _ _ Hk Ha Hd Hp0).
      * destruct Hs as (-> & _).
        rewrite (readPage_miss_raise _ _ _ _ _ Hk Ha). simpl. set_solver.
  - set (s0 := set_fileCalls (fileCalls s ++ [CallAllocate f]) s).
    assert (manager_inv s0) as Hinv0 by (by apply inv_set_fileCalls).
    pose proof (allocBuf_spec s0 (inv_wf _ _ Hinv0) (inv_files_ok _ _ Hinv0)) as Hs.
    destruct (allocBuf s0) as [[fra|e| |] sa] eqn:Ha; simpl in Hs; try done.
    + destruct (alloc_then_set_inv s0 fra sa f _
                  (file_allocatePage (fileCalls s) f) (fileCalls sa)
                  Hinv0 Hs Hfresh) as (d & p0 & Hd & Hp0 & _).
      by rewrite (allocPage_ok _ _ _ _ _ _ Ha Hd Hp0).
    + destruct Hs as (-> & _).
      rewrite (allocPage_raise _ _ _ _ Ha). simpl. set_solver.
  - destruct (hashTable s !! (filePtr, n)) as [fr|] eqn:Hk.
    2:{ by rewrite (unPinPage_absent _ _ _ _ Hk). }
    destruct (inv_entry _ _ Hinv _ _ Hk) as (_ & d & Hd & Hv & _).
    destruct (N.eq_dec (pinCnt d) 0) as [Hp|Hp].
    + rewrite (unPinPage_unpinned _ _ _ _ _ _ Hk Hd Hp
                 (inv_files_ok _ _ Hinv _ _ Hd Hv)). simpl. set_solver.
    + by rewrite (unPinPage_pinned _ _ _ _ _ _ Hk Hd) by lia.
  - destruct filePtr as [f|].
    + destruct (pinned_by_any_dec f s) as [[j Hj]|Hnone].
      * rewrite (flushFile_pinned_raises s f j Hinv Hj). set_solver.
      * by destruct (flushFile_clean_run s f Hinv Hnone) as (s' & -> & _).
    + destruct (all_valid_dec (bufDescTable s)) as [(i & d & Hd & Hv)|Hall].
      * rewrite (flushFile_null_invalid s i d Hinv Hd Hv). simpl. set_solver.
      * by rewrite (flushFile_null_valid s Hinv Hall).
  - destruct (hashTable s !! (Some f, n)) as [fr|] eqn:Hk.
    + destruct (inv_entry _ _ Hinv _ _ Hk) as (_ & d & Hd & _).
      by rewrite (disposePage_resident _ _ _ _ _ Hk Hd).
    + by rewrite (disposePage_absent _ _ _ Hk).
Qed.

(** *** What no operation changes *)

Lemma stable_refl s : stable s s.
Proof. by repeat split. Qed.

Lemma stable_trans s1 s2 s3 : stable s1 s2 -> stable s2 s3 -> stable s1 s3.
Proof.
  intros (H1 & H2 & H3 & H4) (G1 & G2 & G3 & G4).
  repeat split; [congruence..|by etrans].
Qed.

Lemma keeps_ret {A} (a : A) : keeps (ret a).
Proof. intros s. apply stable_refl. Qed.

Lemma keeps_throw {A} e : keeps (@throw A e).
Proof. intros s. apply stable_refl. Qed.

Lemma keeps_undefined {A} : keeps (@undefined A).
Proof. intros s. apply stable_refl. Qed.

Lemma keeps_out_of_fuel {A} : keeps (@out_of_fuel A).
Proof. intros s. apply stable_refl. Qed.

Lemma keeps_get {A} (proj : BufMgr -> A) : keeps (get proj).
Proof. intros s. apply stable_refl. Qed.

Lemma keeps_bind {A B} (m : M A) (k : A -> M B) :
  keeps m -> (forall a, keeps (k a)) -> keeps (bind m k).
Proof.
  intros Hm Hk s. unfold bind. specialize (Hm s).
  destruct (m s) as [[a|e| |] s1]; simpl in *; try done.
  eapply stable_trans; [done|apply Hk].
Qed.

Lemma keeps_try_catch {A} (m : M A) e (h : M A) :
  keeps m -> keeps h -> keeps (try_catch m e h).
Proof.
  intros Hm Hh s. unfold try_catch. specialize (Hm s).
  destruct (m s) as [[a|e'| |] s1]; simpl in *; try done.
  destruct (decide (e' = e)); [|done].
  eapply stable_trans; [done|apply Hh].
Qed.

Lemma keeps_modify (f : BufMgr -> BufMgr) :
  (forall s, stable s (f s)) -> keeps (modify f).
Proof. intros Hf s. apply Hf. Qed.

Lemma keeps_getDesc i : keeps (getDesc i).
Proof. intros s. unfold getDesc. destruct (_ !! _); apply stable_refl. Qed.

Lemma keeps_getPool i : keeps (getPool i).
Proof. intros s. unfold getPool. destruct (_ !! _); apply stable_refl. Qed.

Lemma keeps_modifyDesc i (f : BufDesc -> BufDesc) :
  (forall d, frameNo (f d) = frameNo d) -> keeps (modifyDesc i f).
Proof.
  intros Hf s. unfold modifyDesc. mred.
  destruct (bufDescTable s !! N.to_nat i) as [d|] eqn:Hd;
    [|apply stable_refl].
  repeat split; simpl; try done. by eapply fmap_insert_same.
Qed.

Lemma keeps_setPool i p : keeps (setPool i p).
Proof.
  intros s. unfold setPool. mred.
  destruct (bufPool s !! N.to_nat i); [|apply stable_refl].
  repeat split; simpl; try done. by rewrite length_insert.
Qed.

Lemma keeps_deref filePtr : keeps (deref filePtr).
Proof. destruct filePtr; [apply keeps_ret|apply keeps_undefined]. Qed.

Lemma keeps_hashTable_lookup filePtr pageNum :
  keeps (hashTable_lookup filePtr pageNum).
Proof. intros s. unfold hashTable_lookup. destruct (_ !! _); apply stable_refl. Qed.

Lemma keeps_hashTable_insert filePtr pageNum frame :
  keeps (hashTable_insert filePtr pageNum frame).
Proof. intros s. by repeat split. Qed.

Lemma keeps_hashTable_remove filePtr pageNum :
  keeps (hashTable_remove filePtr pageNum).
Proof.
  intros s. unfold hashTable_remove.
  destruct (_ !! _); [by repeat split|apply stable_refl].
Qed.

Lemma keeps_logCall c : keeps (logCall c).
Proof. intros s. repeat split; simpl; try done. by apply prefix_app_r. Qed.

Ltac keeps_tac :=
  cbv beta zeta delta [mbind M_bind];
  repeat first
    [ apply keeps_ret | apply keeps_throw | apply keeps_undefined
    | apply keeps_out_of_fuel | apply keeps_get
    | apply keeps_getDesc | apply keeps_getPool | apply keeps_setPool
    | apply keeps_deref | apply keeps_logCall
    | apply keeps_hashTable_lookup | apply keeps_hashTable_insert
    | apply keeps_hashTable_remove
    | apply keeps_modifyDesc; by intros []
    | apply keeps_modify; intros ?; by repeat split
    | apply keeps_try_catch
    | apply keeps_bind; [|intros]
    | match goal with
      | |- keeps (if ?b then _ else _) => destruct b
      | |- keeps (match ?x with _ => _ end) => destruct x
      end ].

Lemma keeps_File_readPage f pageNum : keeps (File_readPage f pageNum).
Proof. unfold File_readPage. keeps_tac. Qed.

Lemma keeps_File_writePage f p : keeps (File_writePage f p).
Proof. unfold File_writePage. keeps_tac. Qed.

Lemma keeps_File_allocatePage f : keeps (File_allocatePage f).
Proof. unfold File_allocatePage. keeps_tac. Qed.

Lemma keeps_File_deletePage f pageNum : keeps (File_deletePage f pageNum).
Proof. unfold File_deletePage. keeps_tac. Qed.

Lemma keeps_advanceClock : keeps advanceClock.
Proof.
  unfold advanceClock. keeps_tac.
Qed.

Lemma keeps_allocBuf_body pinned : keeps (allocBuf_body pinned).
Proof.
  unfold allocBuf_body. keeps_tac.
Qed.

Lemma keeps_allocBuf_loop fuel pinned : keeps (allocBuf_loop fuel pinned).
Proof.
  revert pinned. induction fuel as [|fuel IH]; intros pinned; simpl;
    [apply keeps_out_of_fuel|].
  keeps_tac. apply IH.
Qed.

Lemma keeps_allocBuf : keeps allocBuf.
Proof. unfold allocBuf. keeps_tac. apply keeps_allocBuf_loop. Qed.

Lemma keeps_readPage filePtr pageNum : keeps (readPage filePtr pageNum).
Proof.
  unfold readPage. keeps_tac. apply keeps_allocBuf_loop.
Qed.

Lemma keeps_unPinPage filePtr pageNum isDirty :
  keeps (unPinPage filePtr pageNum isDirty).
Proof. unfold unPinPage. keeps_tac. Qed.

Lemma keeps_flushFile_body filePtr fi : keeps (flushFile_body filePtr fi).
Proof. unfold flushFile_body. keeps_tac. Qed.

Lemma keeps_flushFile_loop fuel filePtr fi : keeps (flushFile_loop fuel filePtr fi).
Proof.
  revert fi. induction fuel as [|fuel IH]; intros fi; simpl;
    [apply keeps_out_of_fuel|].
  keeps_tac. apply IH.
Qed.

Lemma keeps_flushFile filePtr : keeps (flushFile filePtr).
Proof. unfold flushFile. keeps_tac. apply keeps_flushFile_loop. Qed.

Lemma keeps_allocPage filePtr : keeps (allocPage filePtr).
Proof.
  unfold allocPage. keeps_tac. apply keeps_allocBuf_loop.
Qed.

Lemma keeps_disposePage filePtr pageNum : keeps (disposePage filePtr pageNum).
Proof. unfold disposePage. keeps_tac. Qed.

(** X16.  Whatever the state and the arguments, and whether it returns or
    throws, no public operation changes [numBufs], the [frameNo] of a
    descriptor or the sizes of [bufDescTable] and [bufPool], and none takes
    back a call made on the File collaborator. *)
Theorem operations_stable o s : stable s (exec o s).
Proof.
  destruct o; simpl.
  - apply keeps_readPage.
  - apply keeps_allocPage.
  - apply keeps_unPinPage.
  - apply keeps_flushFile.
  - apply keeps_disposePage.
Qed.

Lemma reachable_frameNo_fmap s :
  reachable s ->
  frameNo <$> bufDescTable s
  = N.of_nat <$> seq 0 (length (bufDescTable s)).
Proof.
  induction 1 as [bufs Hb|o s _ IH Hfresh].
  - simpl. rewrite length_fmap, length_seq, <- list_fmap_compose.
    by apply list_fmap_ext.
  - assert (stable s (exec o s)) as (_ & E & _).
    { destruct o; simpl;
        [apply keeps_readPage|apply keeps_allocPage|apply keeps_unPinPage
        |apply keeps_flushFile|apply keeps_disposePage]. }
    rewrite E, IH. f_equal. f_equal.
    by rewrite <- (length_fmap frameNo (bufDescTable s)), <- E, length_fmap.
Qed.

(** X17.  [frameNo] is the frame's own index for good: in every state of a
    manager built by the constructor and used through the public operations,
    the descriptor at index [i] has [frameNo = i]. *)
Theorem reachable_frameNo s i d :
  reachable s -> bufDescTable s !! i = Some d -> frameNo d = N.of_nat i.
Proof.
  intros Hr Hd. pose proof (reachable_frameNo_fmap s Hr) as E.
  assert ((frameNo <$> bufDescTable s) !! i = Some (frameNo d)) as Hl
    by (by rewrite list_lookup_fmap, Hd).
  rewrite E, list_lookup_fmap in Hl.
  destruct (seq 0 (length (bufDescTable s)) !! i) as [j|] eqn:Hj; [|done].
  apply lookup_seq in Hj as [-> _]. by simplify_eq/=.
Qed.

(** *** A new manager *)

Lemma BufMgr_new_filled bufs :
  0 < bufs < UINT32_MOD -> filled 0 (BufMgr_new bufs).
Proof.
  intros Hb. split; [by apply BufMgr_new_inv|]. split; [simpl; lia|].
  split.
  - simpl. unfold wrap32.
    replace (bufs + UINT32_MOD - 1) with (bufs - 1 + 1 * UINT32_MOD) by lia.
    rewrite N.Div0.mod_add, !N.mod_small; lia.
  - intros i d Hd. simpl in Hd. rewrite list_lookup_fmap in Hd.
    destruct (seq 0 (N.to_nat bufs) !! N.to_nat i); simplify_eq/=.
    split; [done|lia].
Qed.

Lemma filled_next_hand k s : filled k s -> k < numBufs s -> next_hand s = k.
Proof.
  intros (Hinv & Hk & Hh & _) Hlt. unfold next_hand. rewrite Hh.
  destruct (N.eq_dec k 0) as [->|Hne].
  - rewrite (N.mod_small (0 + numBufs s - 1)) by lia.
    replace (0 + numBufs s - 1 + 1) with (numBufs s) by lia.
    apply N.Div0.mod_same.
  - replace (k + numBufs s - 1) with (k - 1 + 1 * numBufs s) by lia.
    rewrite N.Div0.mod_add, (N.mod_small (k - 1)) by lia.
    replace (k - 1 + 1) with k by lia. apply N.mod_small. lia.
Qed.

(** X18.  A new manager hands out its frames in order.  While the frames
    from [k] on have never been used (a manager fresh from the constructor
    has [k = 0]), a [readPage] miss takes frame [k]: nothing is evicted or
    written back, the one File call is the read, and afterwards the frames
    from [k + 1] on are the unused ones. *)
Theorem readPage_fills_in_order k s f pageNum :
  filled k s -> k < numBufs s ->
  hashTable s !! (Some f, pageNum) = None ->
  exists s',
    readPage (Some f) pageNum s = (Ok k, s') /\
    filled (k + 1) s' /\
    fileCalls s' = fileCalls s ++ [CallRead f pageNum] /\
    hashTable s' = <[(Some f, pageNum) := k]> (hashTable s).
Proof.
  intros Hfill Hlt Hk. pose proof (filled_next_hand k s Hfill Hlt) as Hnext.
  destruct Hfill as (Hinv & Hkn & Hh & Hval).
  pose proof (inv_wf _ _ Hinv) as Hwf.
  pose proof (wf_numBufs s Hwf) as Hnb.
  destruct (lookup_next_hand s Hwf) as [d Hd]. rewrite Hnext in Hd.
  assert (valid d = false) as Hv.
  { destruct (valid d) eqn:Hv; [|done]. apply (Hval k d Hd) in Hv. lia. }
  assert (is_Some (bufPool s !! N.to_nat k)) as [p0 Hp0].
  { apply lookup_lt_is_Some. rewrite (wf_pool s Hwf). lia. }
  assert (allocBuf s = (Ok k, set_clockHand k s)) as Ha.
  { unfold allocBuf. mred.
    destruct (N.to_nat (2 * numBufs s)) as [|fuel] eqn:E; [lia|].
    simpl. mred. rewrite <- Hnext in Hd.
    rewrite (allocBuf_body_invalid 0 s d Hwf Hd Hv). by rewrite Hnext. }
  pose proof (readPage_inv f pageNum s Hinv) as Hinv'.
  rewrite (readPage_miss_ok f pageNum s k (set_clockHand k s) d p0 Hk Ha Hd Hp0)
    in Hinv' |- *.
  eexists. split; [done|]. simpl in *. split; [|done].
  split; [done|]. split; [simpl; lia|]. split.
  - simpl. replace (k + 1 + numBufs s - 1) with (k + 1 * numBufs s) by lia.
    rewrite N.Div0.mod_add, N.mod_small; lia.
  - intros i d1 Hd1. simpl in Hd1.
    destruct (N.eq_dec i k) as [->|Hne].
    + rewrite list_lookup_insert_eq in Hd1 by (by eapply lookup_lt_Some).
      injection Hd1 as <-. simpl. split; [lia|done].
    + rewrite list_lookup_insert_ne in Hd1 by lia.
      rewrite (Hval i d1 Hd1). lia.
Qed.

(** *** The hand *)

Lemma advance_times_hand k s :
  wf s ->
  advance_times k s
  = set_clockHand ((clockHand s + N.of_nat k) mod numBufs s) s.
Proof.
  intros Hwf. pose proof (wf_numBufs s Hwf) as Hnb.
  pose proof (wf_hand s Hwf) as Hh.
  induction k as [|k IH].
  - simpl. rewrite N.add_0_r, N.mod_small by done. by destruct s.
  - unfold advance_times in *. simpl. rewrite IH.
    rewrite advanceClock_eq
      by (apply wf_set_clockHand; [done|apply N.mod_lt; lia]).
    unfold next_hand. simpl. rewrite N.Div0.add_mod_idemp_l.
    unfold set_clockHand. simpl. f_equal. f_equal. lia.
Qed.

(** X19.  The hand goes round the pool: [k] calls of [advanceClock] move it
    from [h] to [(h + k) mod numBufs] and change nothing else, so that
    [numBufs] calls bring it back to where it was. *)
Theorem advanceClock_cycle s :
  wf s ->
  (forall k,
     advance_times k s
     = set_clockHand ((clockHand s + N.of_nat k) mod numBufs s) s) /\
  advance_times (N.to_nat (numBufs s)) s = s.
Proof.
  intros Hwf. split; [intros k; by apply advance_times_hand|].
  rewrite advance_times_hand by done.
  pose proof (wf_numBufs s Hwf) as Hnb. pose proof (wf_hand s Hwf) as Hh.
  rewrite N2Nat.id.
  replace (clockHand s + numBufs s) with (clockHand s + 1 * numBufs s) by lia.
  rewrite N.Div0.mod_add, N.mod_small by done. by destruct s.
Qed.

(** *** [printSelf] *)

Lemma printSelf_loop_run s :
  wf s ->
  forall l j fuel v out,
  drop j (bufDescTable s) = l ->
  (j <= length (bufDescTable s))%nat -> (length l < fuel)%nat ->
  (v + Z.of_nat (length l) <= INT_MAX)%Z ->
  printSelf_loop fuel (N.of_nat j) v out s =
    (Ok (out ++ imap (fun k d => PrintFrame (N.of_nat (j + k)) d) l
             ++ [PrintTotal
                   (v + Z.of_nat (length (filter (fun d => valid d = true) l)))]),
     s).
Proof.
  intros Hwf. pose proof (wf_numBufs s Hwf) as Hnb.
  pose proof (wf_table s Hwf) as Hlen.
  induction l as [|d l IH]; intros j fuel v out Hdrop Hj Hfuel Hv;
    (destruct fuel as [|fuel]; [simpl in Hfuel; lia|]); simpl; mred.
  - assert (length (drop j (bufDescTable s)) = 0%nat) as Hz
      by (by rewrite Hdrop).
    rewrite length_drop in Hz.
    destruct (N.ltb_spec (N.of_nat j) (numBufs s)) as [?|_]; [lia|].
    by rewrite Z.add_0_r.
  - assert (bufDescTable s !! j = Some d) as Hd.
    { rewrite <- (Nat.add_0_r j), <- lookup_drop, Hdrop. done. }
    pose proof (lookup_lt_Some _ _ _ Hd) as Hlt.
    assert (drop (S j) (bufDescTable s) = l) as Hdrop'.
    { rewrite (drop_S _ _ _ Hd) in Hdrop. by injection Hdrop. }
    destruct (N.ltb_spec (N.of_nat j) (numBufs s)) as [_|?]; [|lia].
    rewrite Nat2N.id, Hd. mred.
    rewrite wrap32_small by lia.
    replace (N.of_nat j + 1) with (N.of_nat (S j)) by lia.
    rewrite length_cons in Hv, Hfuel.
    assert (imap ((fun k d0 => PrintFrame (N.of_nat (j + k)) d0) ∘ S) l
            = imap (fun k d0 => PrintFrame (N.of_nat (S j + k)) d0) l) as ->.
    { apply imap_ext. intros k x _. simpl. do 2 f_equal. lia. }
    rewrite Nat.add_0_r, filter_cons.
    destruct (valid d) eqn:Hvd.
    + destruct (Z.ltb_spec v INT_MAX) as [_|?]; [|lia].
      rewrite (IH (S j) fuel (v + 1)%Z) by (try done; lia).
      destruct (decide (true = true)); [|done].
      rewrite length_cons, Nat2Z.inj_succ, <- !app_assoc.
      cbn [app]. do 7 f_equal. lia.
    + rewrite (IH (S j) fuel v) by (try done; lia).
      destruct (decide (false = true)); [done|].
      by rewrite <- !app_assoc.
Qed.

Lemma list_filter_iff_elem {A} (P1 P2 : A -> Prop)
    `{!forall x, Decision (P1 x), !forall x, Decision (P2 x)} (l : list A) :
  (forall x, x ∈ l -> P1 x <-> P2 x) -> filter P1 l = filter P2 l.
Proof.
  induction l as [|a l IH]; intros HPQ; [done|].
  rewrite !filter_cons.
  rewrite IH by (intros x Hx; apply HPQ; by right).
  pose proof (HPQ a ltac:(by left)) as Ha.
  destruct (decide (P1 a)), (decide (P2 a)); tauto.
Qed.

(** The valid frames are as many as the entries of the index. *)
Lemma valid_frames_size s :
  manager_inv s ->
  length (filter (fun d => valid d = true) (bufDescTable s))
  = size (hashTable s).
Proof.
  intros Hinv.
  set (P := fun j : nat => valid <$> bufDescTable s !! j = Some true).
  assert (forall l j,
    length (filter (fun d => valid d = true) l)
    = length (filter (fun k => valid <$> l !! (k - j)%nat = Some true)
                (seq j (length l)))) as Hcount.
  { induction l as [|d l IH]; intros j; [done|]. simpl.
    rewrite !filter_cons, Nat.sub_diag. simpl.
    assert (filter (fun k => valid <$> (d :: l) !! (k - j)%nat = Some true)
              (seq (S j) (length l))
            = filter (fun k => valid <$> l !! (k - S j)%nat = Some true)
                (seq (S j) (length l))) as ->.
    { apply list_filter_iff_elem. intros k Hk. apply elem_of_seq in Hk.
      replace (k - j)%nat with (S (k - S j)) by lia. done. }
    destruct (valid d); simpl.
    - destruct (decide (true = true)); [|done].
      destruct (decide (Some true = Some true)); [|done]. simpl.
      by rewrite (IH (S j)).
    - destruct (decide (false = true)); [done|].
      destruct (decide (Some false = Some true)); [done|].
      by rewrite (IH (S j)). }
  rewrite (Hcount _ 0%nat), <- length_map_to_list.
  rewrite <- (length_fmap snd (map_to_list (hashTable s))).
  rewrite <- (length_fmap N.of_nat (filter _ _)).
  apply Permutation_length, NoDup_Permutation.
  - apply NoDup_fmap_2; [apply _|]. apply NoDup_filter, NoDup_seq.
  - apply NoDup_fmap_2_strong; [|apply NoDup_map_to_list].
    intros [k1 fr1] [k2 fr2] H1 H2 E. simpl in E. subst fr2.
    apply elem_of_map_to_list in H1, H2.
    destruct (inv_entry _ _ Hinv _ _ H1) as (_ & d1 & Hd1 & _ & ->).
    destruct (inv_entry _ _ Hinv _ _ H2) as (_ & d2 & Hd2 & _ & ->).
    by simplify_eq.
  - intros fr. rewrite !list_elem_of_fmap. split.
    + intros (j & -> & Hj). apply list_elem_of_filter in Hj as [Hj _].
      rewrite Nat.sub_0_r in Hj.
      destruct (bufDescTable s !! j) as [d|] eqn:Hd; [|done].
      simpl in Hj. injection Hj as Hv.
      assert (j = N.to_nat (N.of_nat j)) as Ej by lia. rewrite Ej in Hd.
      pose proof (inv_valid _ _ Hinv _ _ Hd Hv ltac:(done)) as Hk.
      exists ((file d, pageNo d), N.of_nat j). split; [done|].
      by apply elem_of_map_to_list.
    + intros ([k fr'] & -> & Hk). apply elem_of_map_to_list in Hk. simpl.
      destruct (inv_entry _ _ Hinv _ _ Hk) as (_ & d & Hd & Hv & _).
      exists (N.to_nat fr'). split; [lia|].
      apply list_elem_of_filter. rewrite Nat.sub_0_r, Hd. simpl.
      split; [by rewrite Hv|]. apply elem_of_seq.
      apply lookup_lt_Some in Hd. lia.
Qed.

(** X20.  [printSelf] changes nothing.  For a pool of at most [INT_MAX]
    frames, in a state that satisfies the invariant, it prints every frame
    number with its descriptor, in frame order, and then a total of valid
    frames that is the number of pages in the index. *)
Theorem printSelf_total s :
  manager_inv s -> (Z.of_N (numBufs s) <= INT_MAX)%Z ->
  printSelf s =
    (Ok (imap (fun i d => PrintFrame (N.of_nat i) d) (bufDescTable s)
         ++ [PrintTotal (Z.of_nat (size (hashTable s)))]),
     s).
Proof.
  intros Hinv Hmax. pose proof (inv_wf _ _ Hinv) as Hwf.
  pose proof (wf_table s Hwf) as Hlen.
  unfold printSelf. mred.
  rewrite (printSelf_loop_run s Hwf (bufDescTable s) 0 _ 0%Z []); try done.
  - by rewrite valid_frames_size.
  - lia.
  - lia.
  - lia.
Qed.

End Proofs.

(** ** The properties on runs of a manager of two frames *)

#[local] Existing Instance simpleFile.

Lemma st_pinned_reachable : reachable st_pinned.
Proof.
  apply reachable_exec_all; [apply reach_new; unfold UINT32_MOD; lia|].
  vm_compute. tauto.
Qed.

Lemma st_one_pinned_reachable : reachable st_one_pinned.
Proof.
  apply reachable_exec_all; [apply st_pinned_reachable|]. vm_compute. tauto.
Qed.

Lemma st_second_chance_reachable : reachable st_second_chance.
Proof.
  apply reachable_exec_all; [apply st_pinned_reachable|]. vm_compute. tauto.
Qed.

Lemma st_evictable_reachable : reachable st_evictable.
Proof.
  apply reachable_exec_all; [apply st_pinned_reachable|]. vm_compute. tauto.
Qed.

(** C1.  The claim: [allocBuf] throws [BufferExceeded] exactly when every
    frame is pinned.  The code counts the visits of pinned frames, not the
    pinned frames: in the reachable state [st_second_chance] frame 1 is valid
    and unpinned, and [allocBuf] still throws [BufferExceeded], as frame 0 is
    counted twice while frame 1 uses up its second chance. *)
Theorem allocBuf_exceeded_with_unpinned_frame :
  reachable st_second_chance /\
  (exists d, bufDescTable st_second_chance !! 1%nat = Some d /\
             valid d = true /\ pinCnt d = 0) /\
  (allocBuf st_second_chance).1 = Raise BufferExceeded.
Proof.
  split; [apply st_second_chance_reachable|]. split.
  - eexists. split; [vm_compute; reflexivity|]. done.
  - vm_compute. reflexivity.
Qed.

Lemma reachable_index_consistent_witness :
  reachable st_one_pinned /\ index_consistent st_one_pinned.
Proof.
  split; [apply st_one_pinned_reachable|].
  apply reachable_index_consistent, st_one_pinned_reachable.
Defined.

Lemma allocBuf_exhausted_witness :
  manager_inv st_pinned /\ all_pinned st_pinned /\
  (allocBuf st_pinned).1 = Raise BufferExceeded.
Proof.
  assert (manager_inv st_pinned) as Hinv
    by apply reachable_inv, st_pinned_reachable.
  assert (all_pinned st_pinned) as Hpin
    by (apply all_pinned_forallb; vm_compute; reflexivity).
  split; [done|]. split; [done|].
  destruct (allocBuf_exhausted st_pinned Hinv Hpin) as (s' & -> & _).
  reflexivity.
Defined.

Lemma allocPage_exhausted_witness :
  manager_inv st_pinned /\ all_pinned st_pinned /\
  (allocPage (Some 7) st_pinned).1 = Raise BufferExceeded.
Proof.
  assert (manager_inv st_pinned) as Hinv
    by apply reachable_inv, st_pinned_reachable.
  assert (all_pinned st_pinned) as Hpin
    by (apply all_pinned_forallb; vm_compute; reflexivity).
  split; [done|]. split; [done|].
  destruct (allocPage_exhausted st_pinned 7 Hinv Hpin) as (s' & -> & _).
  reflexivity.
Defined.

Lemma allocBuf_evicts_next_witness :
  manager_inv st_evictable /\ all_evictable st_evictable /\
  (allocBuf st_evictable).1 = Ok (next_hand st_evictable).
Proof.
  assert (manager_inv st_evictable) as Hinv
    by apply reachable_inv, st_evictable_reachable.
  assert (all_evictable st_evictable) as Hev
    by (apply all_evictable_forallb; vm_compute; reflexivity).
  split; [done|]. split; [done|].
  destruct (allocBuf_evicts_next st_evictable Hinv Hev)
    as (d & p & f & s' & _ & _ & _ & -> & _).
  reflexivity.
Defined.

Lemma unPinPage_cases_witness :
  manager_inv st_pinned /\
  (unPinPage (Some 7) 1 true st_pinned).1 = Ok tt.
Proof.
  assert (manager_inv st_pinned) as Hinv
    by apply reachable_inv, st_pinned_reachable.
  split; [done|].
  pose proof (unPinPage_cases st_pinned (Some 7) 1 true Hinv) as H.
  destruct (hashTable st_pinned !! (Some 7, 1)) as [frame|] eqn:E;
    vm_compute in E; [|discriminate].
  injection E as <-. destruct H as (d & Hd & H).
  vm_compute in Hd. injection Hd as <-.
  destruct H as (d' & -> & _). reflexivity.
Defined.

Lemma readPage_twice_witness :
  manager_inv st_one_pinned /\
  readPage (Some 7) 2 st_one_pinned
    = (Ok 1, (readPage (Some 7) 2 st_one_pinned).2) /\
  (readPage (Some 7) 2 (readPage (Some 7) 2 st_one_pinned).2).1 = Ok 1.
Proof.
  assert (manager_inv st_one_pinned) as Hinv
    by apply reachable_inv, st_one_pinned_reachable.
  assert (readPage (Some 7) 2 st_one_pinned
          = (Ok 1, (readPage (Some 7) 2 st_one_pinned).2)) as Hr
    by (vm_compute; reflexivity).
  split; [done|]. split; [done|].
  destruct (readPage_twice st_one_pinned 7 2 1 _ Hinv Hr)
    as (d0 & d1 & d2 & s2 & _ & _ & _ & -> & _).
  reflexivity.
Defined.

Lemma disposePage_ignores_pins_witness :
  hashTable st_pinned !! (Some 7, 2) = Some 1 /\
  bufDescTable st_pinned !! N.to_nat 1
    = Some (mkBufDesc (Some 7) 2 1 1 false true true) /\
  (disposePage (Some 7) 2 st_pinned).1 = Ok tt.
Proof.
  assert (hashTable st_pinned !! (Some 7, 2) = Some 1) as Hk
    by (vm_compute; reflexivity).
  assert (bufDescTable st_pinned !! N.to_nat 1
          = Some (mkBufDesc (Some 7) 2 1 1 false true true)) as Hd
    by (vm_compute; reflexivity).
  split; [done|]. split; [done|].
  destruct (disposePage_ignores_pins st_pinned 7 2 1 _ Hk Hd) as (s' & -> & _).
  reflexivity.
Defined.

Lemma disposePage_no_writeback_witness :
  hashTable st_one_pinned !! (Some 7, 1) = Some 0 /\
  bufDescTable st_one_pinned !! N.to_nat 0
    = Some (mkBufDesc (Some 7) 1 0 0 true true true) /\
  fileCalls (disposePage (Some 7) 1 st_one_pinned).2
    = fileCalls st_one_pinned ++ [CallDelete 7 1].
Proof.
  assert (hashTable st_one_pinned !! (Some 7, 1) = Some 0) as Hk
    by (vm_compute; reflexivity).
  assert (bufDescTable st_one_pinned !! N.to_nat 0
          = Some (mkBufDesc (Some 7) 1 0 0 true true true)) as Hd
    by (vm_compute; reflexivity).
  split; [done|]. split; [done|].
  destruct (disposePage_no_writeback st_one_pinned 7 1 0 _ Hk Hd)
    as (s' & Hr & Hc & _).
  rewrite Hr. exact Hc.
Defined.

Lemma flushFile_pinned_partial_witness :
  manager_inv st_one_pinned /\
  bufDescTable st_one_pinned !! N.to_nat 1
    = Some (mkBufDesc (Some 7) 2 1 1 false true true) /\
  (flushFile (Some 7) st_one_pinned).1 = Raise PagePinned.
Proof.
  assert (manager_inv st_one_pinned) as Hinv
    by apply reachable_inv, st_one_pinned_reachable.
  assert (bufDescTable st_one_pinned !! N.to_nat 1
          = Some (mkBufDesc (Some 7) 2 1 1 false true true)) as Hd
    by (vm_compute; reflexivity).
  split; [done|]. split; [done|].
  destruct (flushFile_pinned_partial st_one_pinned 7 1 _ Hinv Hd eq_refl)
    as (i & s' & _ & _ & _ & -> & _); [simpl; lia|].
  reflexivity.
Defined.

(** C3, as stated, fails: in [st_one_pinned] frame 1 of file 7 is pinned and
    [flushFile] throws [PagePinned], but frame 0 of the file, which the scan
    meets first, has been cleared by then. *)
Lemma flushFile_pinned_not_atomic :
  ~ (forall s f i d,
       manager_inv s ->
       bufDescTable s !! N.to_nat i = Some d -> file d = Some f ->
       0 < pinCnt d ->
       exists s',
         flushFile (Some f) s = (Raise PagePinned, s') /\
         forall j dj, bufDescTable s !! j = Some dj -> file dj = Some f ->
           bufDescTable s' !! j = Some dj).
Proof.
  intros H.
  destruct (H st_one_pinned 7 1 (mkBufDesc (Some 7) 2 1 1 false true true))
    as (s' & Hr & Hsame).
  - apply reachable_inv, st_one_pinned_reachable.
  - vm_compute. reflexivity.
  - reflexivity.
  - simpl. lia.
  - specialize (Hsame 0%nat (mkBufDesc (Some 7) 1 0 0 true true true)
                  ltac:(vm_compute; reflexivity) eq_refl).
    assert (s' = (flushFile (Some 7) st_one_pinned).2) as -> by (by rewrite Hr).
    vm_compute in Hsame. discriminate.
Qed.

(** C4, as stated, fails: in [st_pinned] both frames are pinned and
    [allocBuf] throws [BufferExceeded], but the reference bits of the frames,
    which were set, are clear afterwards. *)
Lemma allocBuf_exhausted_changes_refbit :
  ~ (forall s,
       manager_inv s -> all_pinned s ->
       exists s',
         allocBuf s = (Raise BufferExceeded, s') /\
         bufDescTable s' = bufDescTable s).
Proof.
  intros H. destruct (H st_pinned) as (s' & Hr & Hsame).
  - apply reachable_inv, st_pinned_reachable.
  - apply all_pinned_forallb. vm_compute. reflexivity.
  - assert (s' = (allocBuf st_pinned).2) as -> by (by rewrite Hr).
    vm_compute in Hsame. discriminate.
Qed.

(** ** The further properties on the same runs *)

Lemma st_unpinned_reachable : reachable st_unpinned.
Proof.
  apply reachable_exec_all; [apply st_one_pinned_reachable|].
  vm_compute. tauto.
Qed.

Lemma allocBuf_loop_ends_witness :
  wf st_pinned /\ files_ok st_pinned /\
  allocBuf_loop 4 0 st_pinned = allocBuf_loop 100 0 st_pinned.
Proof.
  assert (manager_inv st_pinned) as Hinv
    by apply reachable_inv, st_pinned_reachable.
  pose proof (inv_wf _ _ Hinv) as Hwf.
  pose proof (inv_files_ok _ _ Hinv) as Hf.
  split; [done|]. split; [done|].
  destruct (allocBuf_loop_ends st_pinned Hwf Hf) as (r & s' & _ & H).
  rewrite (H 4%nat), (H 100%nat); [done| |]; vm_compute; lia.
Defined.

Lemma allocBuf_frame_unpinned_witness :
  manager_inv st_one_pinned /\
  allocBuf st_one_pinned = (Ok 0, (allocBuf st_one_pinned).2) /\
  fileCalls (allocBuf st_one_pinned).2
    = fileCalls st_one_pinned ++ [CallWrite 7 (mkPage 1 0)].
Proof.
  assert (manager_inv st_one_pinned) as Hinv
    by apply reachable_inv, st_one_pinned_reachable.
  assert (allocBuf st_one_pinned = (Ok 0, (allocBuf st_one_pinned).2)) as Hr
    by (vm_compute; reflexivity).
  split; [done|]. split; [done|].
  destruct (allocBuf_frame_unpinned st_one_pinned 0 _ Hinv Hr)
    as (d0 & Hd0 & _ & _ & Hc & _).
  vm_compute in Hd0. injection Hd0 as <-. exact Hc.
Defined.

Lemma allocBuf_succeeds_with_free_frame_witness :
  wf st_evictable /\ files_ok st_evictable /\
  bufDescTable st_evictable !! N.to_nat 1
    = Some (mkBufDesc (Some 7) 2 1 0 false true false) /\
  free_frame (mkBufDesc (Some 7) 2 1 0 false true false) /\
  exists frame s', allocBuf st_evictable = (Ok frame, s').
Proof.
  assert (manager_inv st_evictable) as Hinv
    by apply reachable_inv, st_evictable_reachable.
  pose proof (inv_wf _ _ Hinv) as Hwf.
  pose proof (inv_files_ok _ _ Hinv) as Hf.
  assert (bufDescTable st_evictable !! N.to_nat 1
          = Some (mkBufDesc (Some 7) 2 1 0 false true false)) as Hd
    by (vm_compute; reflexivity).
  assert (free_frame (mkBufDesc (Some 7) 2 1 0 false true false)) as Hfree
    by (right; split; reflexivity).
  split; [done|]. split; [done|]. split; [done|]. split; [done|].
  exact (allocBuf_succeeds_with_free_frame st_evictable 1 _ Hwf Hf Hd Hfree).
Defined.

Lemma allocBuf_succeeds_when_unpinned_witness :
  wf st_unpinned /\ files_ok st_unpinned /\
  (forall i d, bufDescTable st_unpinned !! i = Some d -> pinCnt d = 0) /\
  exists frame s', allocBuf st_unpinned = (Ok frame, s').
Proof.
  assert (manager_inv st_unpinned) as Hinv
    by apply reachable_inv, st_unpinned_reachable.
  pose proof (inv_wf _ _ Hinv) as Hwf.
  pose proof (inv_files_ok _ _ Hinv) as Hf.
  assert (forall i d, bufDescTable st_unpinned !! i = Some d ->
                      pinCnt d = 0) as Hun.
  { intros i d Hd. destruct i as [|[|i]]; vm_compute in Hd;
      [injection Hd as <-; reflexivity ..|discriminate]. }
  split; [done|]. split; [done|]. split; [done|].
  exact (allocBuf_succeeds_when_unpinned st_unpinned Hwf Hf Hun).
Defined.

Lemma pinned_page_survives_witness :
  manager_inv st_one_pinned /\
  hashTable st_one_pinned !! (Some 7, 2) = Some 1 /\
  bufDescTable st_one_pinned !! N.to_nat 1
    = Some (mkBufDesc (Some 7) 2 1 1 false true true) /\
  (readPage (Some 7) 3 st_one_pinned).1 = Ok 0 /\
  hashTable (readPage (Some 7) 3 st_one_pinned).2 !! (Some 7, 2) = Some 1 /\
  bufPool (readPage (Some 7) 3 st_one_pinned).2 !! N.to_nat 1
    = Some (mkPage 2 0).
Proof.
  assert (manager_inv st_one_pinned) as Hinv
    by apply reachable_inv, st_one_pinned_reachable.
  assert (hashTable st_one_pinned !! (Some 7, 2) = Some 1) as Hk
    by (vm_compute; reflexivity).
  assert (bufDescTable st_one_pinned !! N.to_nat 1
          = Some (mkBufDesc (Some 7) 2 1 1 false true true)) as Hd
    by (vm_compute; reflexivity).
  assert (bufPool st_one_pinned !! N.to_nat 1 = Some (mkPage 2 0)) as Hp
    by (vm_compute; reflexivity).
  split; [done|]. split; [done|]. split; [done|].
  split; [vm_compute; reflexivity|].
  destruct (pinned_page_survives st_one_pinned 7 2 1 _ _ Hinv Hk Hd
              ltac:(simpl; lia) Hp) as [Hread _].
  destruct (Hread 7 3 ltac:(intros [=])) as (H1 & H2 & _).
  split; [exact H1|exact H2].
Defined.

Lemma readPage_hit_no_io_witness :
  manager_inv st_one_pinned /\
  hashTable st_one_pinned !! (Some 7, 1) = Some 0 /\
  (readPage (Some 7) 1 st_one_pinned).1 = Ok 0 /\
  fileCalls (readPage (Some 7) 1 st_one_pinned).2 = fileCalls st_one_pinned.
Proof.
  assert (manager_inv st_one_pinned) as Hinv
    by apply reachable_inv, st_one_pinned_reachable.
  assert (hashTable st_one_pinned !! (Some 7, 1) = Some 0) as Hk
    by (vm_compute; reflexivity).
  split; [done|]. split; [done|].
  destruct (readPage_hit_no_io st_one_pinned (Some 7) 1 0 Hinv Hk)
    as (d & _ & ->).
  split; reflexivity.
Defined.

Lemma readPage_miss_loads_witness :
  manager_inv st_one_pinned /\
  hashTable st_one_pinned !! (Some 7, 3) = None /\
  readPage (Some 7) 3 st_one_pinned
    = (Ok 0, (readPage (Some 7) 3 st_one_pinned).2) /\
  fileCalls (readPage (Some 7) 3 st_one_pinned).2
    = fileCalls st_one_pinned ++ [CallWrite 7 (mkPage 1 0); CallRead 7 3].
Proof.
  assert (manager_inv st_one_pinned) as Hinv
    by apply reachable_inv, st_one_pinned_reachable.
  assert (hashTable st_one_pinned !! (Some 7, 3) = None) as Hk
    by (vm_compute; reflexivity).
  assert (readPage (Some 7) 3 st_one_pinned
          = (Ok 0, (readPage (Some 7) 3 st_one_pinned).2)) as Hr
    by (vm_compute; reflexivity).
  split; [done|]. split; [done|]. split; [done|].
  destruct (readPage_miss_loads st_one_pinned 7 3 0 _ Hinv Hk Hr)
    as (d0 & Hd0 & _ & Hc & _).
  vm_compute in Hd0. injection Hd0 as <-. exact Hc.
Defined.

Lemma allocPage_registers_witness :
  manager_inv st_one_pinned /\
  allocPage (Some 7) st_one_pinned
    = (Ok (3, 0), (allocPage (Some 7) st_one_pinned).2) /\
  fileCalls (allocPage (Some 7) st_one_pinned).2
    = fileCalls st_one_pinned ++ [CallAllocate 7; CallWrite 7 (mkPage 1 0)].
Proof.
  assert (manager_inv st_one_pinned) as Hinv
    by apply reachable_inv, st_one_pinned_reachable.
  assert (allocPage (Some 7) st_one_pinned
          = (Ok (3, 0), (allocPage (Some 7) st_one_pinned).2)) as Hr
    by (vm_compute; reflexivity).
  split; [done|]. split; [done|].
  destruct (allocPage_registers st_one_pinned 7 3 0 _ Hinv Hr)
    as (d0 & _ & Hd0 & _ & Hc & _).
  vm_compute in Hd0. injection Hd0 as <-. exact Hc.
Defined.

Lemma readPage_then_unPinPage_witness :
  manager_inv st_pinned /\
  readPage (Some 7) 1 st_pinned = (Ok 0, (readPage (Some 7) 1 st_pinned).2) /\
  (unPinPage (Some 7) 1 true (readPage (Some 7) 1 st_pinned).2).1 = Ok tt.
Proof.
  assert (manager_inv st_pinned) as Hinv
    by apply reachable_inv, st_pinned_reachable.
  assert (readPage (Some 7) 1 st_pinned
          = (Ok 0, (readPage (Some 7) 1 st_pinned).2)) as Hr
    by (vm_compute; reflexivity).
  split; [done|]. split; [done|].
  destruct (readPage_then_unPinPage st_pinned 7 1 0 _ true Hinv Hr)
    as (d1 & d2 & s2 & _ & -> & _).
  reflexivity.
Defined.

Lemma disposePage_then_gone_witness :
  manager_inv st_pinned /\
  (disposePage (Some 7) 1 st_pinned).1 = Ok tt /\
  hashTable (disposePage (Some 7) 1 st_pinned).2 !! (Some 7, 1) = None.
Proof.
  assert (manager_inv st_pinned) as Hinv
    by apply reachable_inv, st_pinned_reachable.
  split; [done|].
  destruct (disposePage_then_gone st_pinned 7 1 true Hinv)
    as (s' & -> & Hk & _).
  split; [reflexivity|exact Hk].
Defined.

Lemma flushFile_flushes_file_witness :
  manager_inv st_evictable /\
  (forall j, ~ pinned_by 7 st_evictable j) /\
  (flushFile (Some 7) st_evictable).1 = Ok tt /\
  fileCalls (flushFile (Some 7) st_evictable).2
    = fileCalls st_evictable ++ [CallWrite 7 (mkPage 1 0)].
Proof.
  assert (manager_inv st_evictable) as Hinv
    by apply reachable_inv, st_evictable_reachable.
  assert (forall j, ~ pinned_by 7 st_evictable j) as Hun.
  { intros j (d & Hd & _ & Hp). destruct j as [|[|j]]; vm_compute in Hd;
      [injection Hd as <-; simpl in Hp; lia ..|discriminate]. }
  split; [done|]. split; [done|].
  destruct (flushFile_flushes_file st_evictable 7 Hinv Hun)
    as (s' & -> & _ & _ & _ & _ & _ & Hc).
  split; [reflexivity|exact Hc].
Defined.

Lemma flushFile_throws_iff_pinned_witness :
  manager_inv st_one_pinned /\
  (exists j, pinned_by 7 st_one_pinned j) /\
  (flushFile (Some 7) st_one_pinned).1 = Raise PagePinned.
Proof.
  assert (manager_inv st_one_pinned) as Hinv
    by apply reachable_inv, st_one_pinned_reachable.
  split; [done|].
  destruct (flushFile_throws_iff_pinned st_one_pinned 7 Hinv)
    as [[Hex Hr]|[_ Hr]]; [done|].
  vm_compute in Hr. discriminate.
Defined.

Lemma flushFile_idempotent_witness :
  manager_inv st_pinned /\
  (forall j d, bufDescTable st_pinned !! j = Some d -> file d <> Some 8) /\
  flushFile (Some 8) st_pinned = (Ok tt, st_pinned).
Proof.
  assert (manager_inv st_pinned) as Hinv
    by apply reachable_inv, st_pinned_reachable.
  assert (forall j d, bufDescTable st_pinned !! j = Some d ->
                      file d <> Some 8) as Hno.
  { intros j d Hd. destruct j as [|[|j]]; vm_compute in Hd;
      [injection Hd as <-; intros [=] ..|discriminate]. }
  split; [done|]. split; [done|].
  exact (proj1 (flushFile_idempotent st_pinned 8 Hinv) Hno).
Defined.

Lemma flushFile_null_file_witness :
  manager_inv (BufMgr_new 2) /\
  bufDescTable (BufMgr_new 2) !! 0%nat
    = Some (mkBufDesc None 0 0 0 false false false) /\
  flushFile None (BufMgr_new 2) = (Raise BadBuffer, BufMgr_new 2).
Proof.
  assert (manager_inv (BufMgr_new 2)) as Hinv
    by (apply BufMgr_new_inv; unfold UINT32_MOD; lia).
  assert (bufDescTable (BufMgr_new 2) !! 0%nat
          = Some (mkBufDesc None 0 0 0 false false false)) as Hd
    by (vm_compute; reflexivity).
  split; [done|]. split; [done|].
  exact (proj1 (flushFile_null_file (BufMgr_new 2) Hinv) 0%nat _ Hd eq_refl).
Defined.

Lemma operations_end_well_witness :
  manager_inv st_pinned /\ new_page_fresh (OpAllocPage 7) st_pinned /\
  result (OpAllocPage 7) st_pinned = Raise BufferExceeded.
Proof.
  assert (manager_inv st_pinned) as Hinv
    by apply reachable_inv, st_pinned_reachable.
  assert (new_page_fresh (OpAllocPage 7) st_pinned) as Hfresh
    by (vm_compute; reflexivity).
  split; [done|]. split; [done|].
  pose proof (operations_end_well st_pinned (OpAllocPage 7) Hinv Hfresh) as H.
  destruct (result (OpAllocPage 7) st_pinned) as [[]|e| |] eqn:E;
    [vm_compute in E; discriminate| |destruct H ..].
  simpl in H. apply list_elem_of_singleton in H. by rewrite H.
Defined.

Lemma reachable_frameNo_witness :
  reachable st_evictable /\
  bufDescTable st_evictable !! 1%nat
    = Some (mkBufDesc (Some 7) 2 1 0 false true false) /\
  frameNo (mkBufDesc (Some 7) 2 1 0 false true false) = N.of_nat 1.
Proof.
  assert (bufDescTable st_evictable !! 1%nat
          = Some (mkBufDesc (Some 7) 2 1 0 false true false)) as Hd
    by (vm_compute; reflexivity).
  split; [apply st_evictable_reachable|]. split; [done|].
  exact (reachable_frameNo st_evictable 1 _ st_evictable_reachable Hd).
Defined.

Lemma readPage_fills_in_order_witness :
  filled 0 (BufMgr_new 2) /\ 0 < numBufs (BufMgr_new 2) /\
  hashTable (BufMgr_new 2) !! (Some 7, 1) = None /\
  (readPage (Some 7) 1 (BufMgr_new 2)).1 = Ok 0 /\
  filled (0 + 1) (readPage (Some 7) 1 (BufMgr_new 2)).2.
Proof.
  assert (filled 0 (BufMgr_new 2)) as Hfill
    by (apply BufMgr_new_filled; unfold UINT32_MOD; lia).
  assert (0 < numBufs (BufMgr_new 2)) as Hlt by (simpl; lia).
  assert (hashTable (BufMgr_new 2) !! (Some 7, 1) = None) as Hk
    by (vm_compute; reflexivity).
  split; [done|]. split; [done|]. split; [done|].
  destruct (readPage_fills_in_order 0 (BufMgr_new 2) 7 1 Hfill Hlt Hk)
    as (s' & -> & Hfill' & _).
  split; [reflexivity|exact Hfill'].
Defined.

Lemma advanceClock_cycle_witness :
  wf st_one_pinned /\ advance_times 2 st_one_pinned = st_one_pinned.
Proof.
  assert (wf st_one_pinned) as Hwf
    by (eapply inv_wf, reachable_inv, st_one_pinned_reachable).
  split; [done|].
  exact (proj2 (advanceClock_cycle st_one_pinned Hwf)).
Defined.

Lemma printSelf_total_witness :
  manager_inv st_one_pinned /\
  (Z.of_N (numBufs st_one_pinned) <= INT_MAX)%Z /\
  printSelf st_one_pinned =
    (Ok [PrintFrame 0 (mkBufDesc (Some 7) 1 0 0 true true true);
         PrintFrame 1 (mkBufDesc (Some 7) 2 1 1 false true true);
         PrintTotal 2],
     st_one_pinned).
Proof.
  assert (manager_inv st_one_pinned) as Hinv
    by apply reachable_inv, st_one_pinned_reachable.
  assert (Z.of_N (numBufs st_one_pinned) <= INT_MAX)%Z as Hmax
    by (vm_compute; discriminate).
  split; [done|]. split; [done|].
  rewrite (printSelf_total st_one_pinned Hinv Hmax).
  vm_compute. reflexivity.
Defined.
